(** * FightPandemics: the user directory and profile propagation

    A shallow embedding of [backend/lib/endpoints/users.js]: the directory
    search ([GET /api/users/]), the single-profile read
    ([GET /api/users/:userId]), the profile update ([PATCH /api/users/current]),
    the avatar routes ([updateUserAvatar]) and the unsubscribe routes.

    The handlers build MongoDB pipelines and update documents as data; the
    store that runs them is modelled next to them, over JSON-like documents.
    What lives outside the file (the regular expression built by
    [createSearchRegex], the text index, the geo index, the [name] virtual of
    the user model, the CDN upload, storage failures) is a field of the
    class [Collaborators], and every theorem holds for all of them. *)

From Stdlib Require Import List ZArith String Bool Lia Sorted Permutation.
Import ListNotations.
Open Scope string_scope.
Open Scope Z_scope.
Open Scope list_scope.

Set Warnings "-register-all".

(** ** JavaScript values *)

(** A JSON-like value. [undefined] is the absence of a value: an expression
    that may be [undefined] has type [option value]. An ObjectId is modelled
    as a number (ids are compared and ordered, never inspected). *)
Inductive value : Type :=
| VNull
| VBool (b : bool)
| VNum (n : Z)
| VStr (s : string)
| VArr (xs : list value)
| VObj (fields : list (string * value)).

(** JavaScript truthiness, as tested by [if (x)], [x || y] and [x ? a : b]. *)
Definition truthy (x : option value) : bool :=
  match x with
  | None => false
  | Some VNull => false
  | Some (VBool b) => b
  | Some (VNum n) => negb (n =? 0)
  | Some (VStr s) => negb (s =? "")%string
  | Some (VArr _) => true
  | Some (VObj _) => true
  end.

Fixpoint lookup (k : string) (fs : list (string * value)) : option value :=
  match fs with
  | [] => None
  | (k', v) :: r => if (k' =? k)%string then Some v else lookup k r
  end.

(** [o[k] = v]: replaces the property where it stands, or appends it. *)
Fixpoint set_field (k : string) (v : value) (fs : list (string * value))
  : list (string * value) :=
  match fs with
  | [] => [(k, v)]
  | (k', x) :: r =>
      if (k' =? k)%string then (k, v) :: r else (k', x) :: set_field k v r
  end.

(** [delete o[k]] on the property list of an object. *)
Fixpoint remove_field (k : string) (fs : list (string * value))
  : list (string * value) :=
  match fs with
  | [] => []
  | (k', x) :: r =>
      if (k' =? k)%string then remove_field k r else (k', x) :: remove_field k r
  end.

(** [x.k] for an [x] that is neither [null] nor [undefined]: own properties
    of objects; primitives and arrays have none of the names used here. *)
Definition prop (x : value) (k : string) : option value :=
  match x with
  | VObj fs => lookup k fs
  | _ => None
  end.

(** [Object.assign(target, source)] on property lists. *)
Definition assign (target source : list (string * value))
  : list (string * value) :=
  fold_left (fun acc kv => set_field (fst kv) (snd kv) acc) source target.

(** [delete x.k]: removes an own property of an object and does nothing on a
    primitive or where the property is absent. *)
Definition delete_prop (x : value) (k : string) : value :=
  match x with
  | VObj fs => VObj (remove_field k fs)
  | _ => x
  end.

(** Structural equality of values (embedded documents compare field by
    field, in order, as BSON does). *)
Fixpoint value_eqb (a b : value) {struct a} : bool :=
  match a, b with
  | VNull, VNull => true
  | VBool x, VBool y => Bool.eqb x y
  | VNum x, VNum y => x =? y
  | VStr x, VStr y => (x =? y)%string
  | VArr xs, VArr ys =>
      (fix go (xs ys : list value) {struct xs} : bool :=
         match xs, ys with
         | [], [] => true
         | x :: xs', y :: ys' => value_eqb x y && go xs' ys'
         | _, _ => false
         end) xs ys
  | VObj fs, VObj gs =>
      (fix go (fs gs : list (string * value)) {struct fs} : bool :=
         match fs, gs with
         | [], [] => true
         | (k, x) :: fs', (k', y) :: gs' =>
             (k =? k')%string && value_eqb x y && go fs' gs'
         | _, _ => false
         end) fs gs
  | _, _ => false
  end.

(** Induction on values, through arrays and objects. *)
Section ValueInduction.
Variable P : value -> Prop.
Hypothesis HNull : P VNull.
Hypothesis HBool : forall b, P (VBool b).
Hypothesis HNum : forall n, P (VNum n).
Hypothesis HStr : forall s, P (VStr s).
Hypothesis HArr : forall xs, Forall P xs -> P (VArr xs).
Hypothesis HObj : forall fs, Forall (fun kv => P (snd kv)) fs -> P (VObj fs).

Fixpoint value_nested_ind (v : value) : P v :=
  match v with
  | VNull => HNull
  | VBool b => HBool b
  | VNum n => HNum n
  | VStr s => HStr s
  | VArr xs =>
      HArr xs
        ((fix go (xs : list value) : Forall P xs :=
            match xs with
            | [] => Forall_nil P
            | x :: r => Forall_cons x (value_nested_ind x) (go r)
            end) xs)
  | VObj fs =>
      HObj fs
        ((fix go (fs : list (string * value))
            : Forall (fun kv => P (snd kv)) fs :=
            match fs with
            | [] => Forall_nil _
            | kv :: r =>
                Forall_cons kv (value_nested_ind (snd kv)) (go r)
            end) fs)
  end.

End ValueInduction.

(** ** The document store *)

Definition path := list string.

(** The value at a dotted path, through embedded documents only. *)
Fixpoint get_path (p : path) (d : value) : option value :=
  match p with
  | [] => Some d
  | k :: p' =>
      match prop d k with
      | Some x => get_path p' x
      | None => None
      end
  end.

(** The values a query sees at a dotted path: an array met on the way
    stands for each of its elements. *)
Fixpoint path_values (p : path) (d : value) : list value :=
  match p with
  | [] => [d]
  | k :: p' =>
      match d with
      | VObj fs =>
          match lookup k fs with
          | Some x => path_values p' x
          | None => []
          end
      | VArr xs =>
          flat_map (fun x =>
                      match x with
                      | VObj fs =>
                          match lookup k fs with
                          | Some y => path_values p' y
                          | None => []
                          end
                      | _ => []
                      end) xs
      | _ => []
      end
  end.

(** [{ path: v }]: some value at the path equals [v], or is an array that
    holds [v]. *)
Definition eq_match (v x : value) : bool :=
  value_eqb x v ||
  match x with
  | VArr xs => existsb (fun e => value_eqb e v) xs
  | _ => false
  end.

(** Query predicates, as the handlers write them. *)
Inductive filter : Type :=
| FEq (p : path) (v : value)
| FRegex (p : path) (keywords : string)
| FOr (fs : list filter)
| FAnd (fs : list filter).

Inductive sort_key : Type :=
| ByField (p : path) (dir : Z)
| ByTextScore.

Inductive expr : Type :=
| EField (p : path)
| ELit (v : value)
| ECond (c t e : expr).

Inductive proj_item : Type :=
| PInclude (p : path)
| PCompute (field : string) (e : expr).

Inductive stage : Type :=
| SGeoNear (distanceField : string) (key : path) (near : option value)
           (query : filter)
| SMatch (f : filter) (text : option string)
| SSort (keys : list sort_key)
| SSkip (n : Z)
| SLimit (n : Z)
| SProject (items : list proj_item)
| SUnset (p : path)
| SGroupCount.

(** A segment of an update path: a field name, or the filtered positional
    operator [$[ident]]. *)
Inductive useg : Type :=
| UKey (k : string)
| UEach (ident : string).

Inductive coll_name : Type := Users | Posts | Comments | Threads.

(** The calls a handler makes to its collaborators, in the order made. *)
Inductive call : Type :=
| FindById (c : coll_name) (id : option value)
| Save (doc : value)
| Aggregate (pipeline : list stage)
| UpdateMany (c : coll_name) (f : filter)
             (sets : list (list useg * option value))
             (arrayFilters : list (string * filter))
| FindOneAndUpdate (id : option value) (sets : list (list useg * option value))
| Upload (userId : value) (file : value).

(** What the file takes from elsewhere. *)
Class Collaborators : Type := {
  (** [createSearchRegex(keywords).test(s)] *)
  regex_test : string -> string -> bool;
  (** the text index: [None] when the document does not match the search,
      else its [textScore] *)
  text_score : string -> value -> option Z;
  (** the geo index: is this value a point, and the distance of two points *)
  is_point : value -> bool;
  distance : value -> value -> Z;
  (** the [name] virtual of the user model *)
  display_name : value -> option value;
  (** [uploadUserAvatar(userId, file)]: the photo reference, [None] when it
      throws *)
  uploadUserAvatar : value -> value -> option value;
  (** does this call to the store fail? *)
  fails : call -> bool
}.

(** ** Running queries, pipelines and updates *)

Section Store.
Context {C : Collaborators}.

(** Does a document satisfy a query predicate? *)
Fixpoint matches (f : filter) (d : value) {struct f} : bool :=
  match f with
  | FEq p v => existsb (eq_match v) (path_values p d)
  | FRegex p kw =>
      existsb (fun x => match x with
                        | VStr s => regex_test kw s
                        | _ => false
                        end) (path_values p d)
  | FOr fs => existsb (fun g => matches g d) fs
  | FAnd fs => forallb (fun g => matches g d) fs
  end.

(** A document on its way through a pipeline, with its [textScore]. *)
Record row : Type := Row { r_doc : value; r_score : Z }.

(** The BSON comparison order, as far as the pipelines need it: a missing
    field sorts with [null], below every number; numbers by value; the other
    types above them by type, equal within a type. *)
Definition bson_key (x : option value) : Z * Z :=
  match x with
  | None => (0, 0)
  | Some VNull => (0, 0)
  | Some (VNum n) => (1, n)
  | Some (VStr _) => (2, 0)
  | Some (VObj _) => (3, 0)
  | Some (VArr _) => (4, 0)
  | Some (VBool _) => (5, 0)
  end.

Definition key_compare (a b : Z * Z) : comparison :=
  match fst a ?= fst b with
  | Eq => snd a ?= snd b
  | c => c
  end.

(** Compares two rows on one sort key: an ascending field, a descending
    field, or the text score (the highest first). *)
Definition compare_on (k : sort_key) (a b : row) : comparison :=
  match k with
  | ByField p dir =>
      let c := key_compare (bson_key (get_path p (r_doc a)))
                           (bson_key (get_path p (r_doc b))) in
      if 0 <=? dir then c else CompOpp c
  | ByTextScore => r_score b ?= r_score a
  end.

Fixpoint compare_rows (ks : list sort_key) (a b : row) : comparison :=
  match ks with
  | [] => Eq
  | k :: ks' =>
      match compare_on k a b with
      | Eq => compare_rows ks' a b
      | c => c
      end
  end.

Definition row_leb (ks : list sort_key) (a b : row) : bool :=
  match compare_rows ks a b with
  | Gt => false
  | _ => true
  end.

Fixpoint insert_row (ks : list sort_key) (x : row) (l : list row) : list row :=
  match l with
  | [] => [x]
  | y :: r => if row_leb ks x y then x :: y :: r else y :: insert_row ks x r
  end.

Definition sort_rows (ks : list sort_key) (l : list row) : list row :=
  fold_right (insert_row ks) [] l.

(** Truth of an aggregation expression: [false], [null], [0] and a missing
    field are false, everything else is true. *)
Definition cond_true (x : option value) : bool :=
  match x with
  | None => false
  | Some VNull => false
  | Some (VBool b) => b
  | Some (VNum n) => negb (n =? 0)
  | Some _ => true
  end.

Fixpoint eval (e : expr) (d : value) : option value :=
  match e with
  | EField p => get_path p d
  | ELit v => Some v
  | ECond c t f => if cond_true (eval c d) then eval t d else eval f d
  end.

(** The part of a document an inclusion keeps. *)
Fixpoint include_path (p : path) (d : value) : list (string * value) :=
  match p with
  | [] => []
  | k :: p' =>
      match prop d k with
      | None => []
      | Some x =>
          match p' with
          | [] => [(k, x)]
          | _ => [(k, VObj (include_path p' x))]
          end
      end
  end.

Definition project_item (d : value) (it : proj_item) : list (string * value) :=
  match it with
  | PInclude p => include_path p d
  | PCompute field e =>
      match eval e d with
      | Some v => [(field, v)]
      | None => []
      end
  end.

Definition project (items : list proj_item) (d : value) : value :=
  VObj (flat_map (project_item d) items).

(** [$unset] of a dotted path: the field goes from every embedded document
    on the way, through arrays as well. *)
Fixpoint unset_path (p : path) (d : value) {struct d} : value :=
  match p with
  | [] => d
  | k :: p' =>
      match d with
      | VObj fs =>
          VObj ((fix go (fs : list (string * value)) : list (string * value) :=
                   match fs with
                   | [] => []
                   | (k', x) :: r =>
                       if (k' =? k)%string
                       then match p' with
                            | [] => go r
                            | _ => (k', unset_path p' x) :: go r
                            end
                       else (k', x) :: go r
                   end) fs)
      | VArr xs =>
          VArr ((fix go (xs : list value) : list value :=
                   match xs with
                   | [] => []
                   | x :: r => unset_path p x :: go r
                   end) xs)
      | _ => d
      end
  end.

Definition on_doc (f : value -> value) (r : row) : row :=
  Row (f (r_doc r)) (r_score r).

(** [$geoNear]: the documents that satisfy the query and hold a point at
    [key], each with its distance to [near] written to [distanceField],
    the nearest first. A [near] that is not a point is an error. *)
Definition geoNear (distanceField : string) (key : path) (near : option value)
    (query : filter) (rows : list row) : option (list row) :=
  match near with
  | None => None
  | Some c =>
      if is_point c then
        Some (sort_rows [ByField [distanceField] 1]
                (flat_map
                   (fun r =>
                      if matches query (r_doc r) then
                        match get_path key (r_doc r) with
                        | Some pt =>
                            if is_point pt then
                              match r_doc r with
                              | VObj fs =>
                                  [Row (VObj (set_field distanceField
                                                (VNum (distance c pt)) fs))
                                       (r_score r)]
                              | _ => []
                              end
                            else []
                        | None => []
                        end
                      else []) rows))
      else None
  end.

(** [$match]; a [$text] search keeps the documents the text index matches
    and records their score. *)
Definition match_rows (f : filter) (text : option string) (rows : list row)
  : list row :=
  flat_map
    (fun r =>
       if matches f (r_doc r) then
         match text with
         | None => [r]
         | Some kw =>
             match text_score kw (r_doc r) with
             | Some s => [Row (r_doc r) s]
             | None => []
             end
         end
       else []) rows.

(** One stage; [None] is an error of the store ([$skip] refuses a negative
    number, [$limit] anything but a positive one). *)
Definition run_stage (s : stage) (rows : list row) : option (list row) :=
  match s with
  | SGeoNear df key near q => geoNear df key near q rows
  | SMatch f text => Some (match_rows f text rows)
  | SSort ks => Some (sort_rows ks rows)
  | SSkip n => if n <? 0 then None else Some (skipn (Z.to_nat n) rows)
  | SLimit n => if n <=? 0 then None else Some (firstn (Z.to_nat n) rows)
  | SProject items => Some (map (on_doc (project items)) rows)
  | SUnset p => Some (map (on_doc (unset_path p)) rows)
  | SGroupCount =>
      match rows with
      | [] => Some []
      | _ => Some [Row (VObj [("_id", VNull);
                              ("count", VNum (Z.of_nat (List.length rows)))]) 0]
      end
  end.

Fixpoint run_pipeline (ss : list stage) (rows : list row) : option (list row) :=
  match ss with
  | [] => Some rows
  | s :: ss' =>
      match run_stage s rows with
      | Some rows' => run_pipeline ss' rows'
      | None => None
      end
  end.

(** [Model.aggregate(pipeline)] over a collection. *)
Definition aggregate (coll : list value) (pipeline : list stage)
  : option (list value) :=
  match run_pipeline pipeline (map (fun d => Row d 0) coll) with
  | Some rows => Some (map r_doc rows)
  | None => None
  end.

(** [$set] at an update path. [$[ident]] visits the array elements that
    satisfy the array filter named [ident]; a missing embedded document is
    created on the way to a field, not on the way to an array; a value of
    another shape is left as it is. *)
Fixpoint set_upath (afs : list (string * filter)) (p : list useg) (v : value)
    (d : value) {struct p} : value :=
  match p with
  | [] => v
  | UKey k :: p' =>
      match d with
      | VObj fs =>
          match lookup k fs with
          | Some x => VObj (set_field k (set_upath afs p' v x) fs)
          | None =>
              match p' with
              | UEach _ :: _ => d
              | _ => VObj (set_field k (set_upath afs p' v (VObj [])) fs)
              end
          end
      | _ => d
      end
  | UEach ident :: p' =>
      match d with
      | VArr xs =>
          VArr (map (fun x =>
                       if existsb (fun af => (fst af =? ident)%string
                                             && matches (snd af) x) afs
                       then set_upath afs p' v x else x) xs)
      | _ => d
      end
  end.

(** A value the driver sends: [undefined] goes out as [null]. *)
Definition to_bson (x : option value) : value :=
  match x with
  | Some v => v
  | None => VNull
  end.

Definition apply_sets (afs : list (string * filter))
    (sets : list (list useg * option value)) (d : value) : value :=
  fold_left (fun acc s => set_upath afs (fst s) (to_bson (snd s)) acc) sets d.

(** [Model.updateMany(filter, { $set: sets }, { arrayFilters })]. *)
Definition updateMany (f : filter) (sets : list (list useg * option value))
    (afs : list (string * filter)) (coll : list value) : list value :=
  map (fun d => if matches f d then apply_sets afs sets d else d) coll.

Definition has_id (id : value) (d : value) : bool :=
  match prop d "_id" with
  | Some x => value_eqb x id
  | None => false
  end.

(** [Model.findById(id)]: [null] is [None]. *)
Definition findById (coll : list value) (id : option value) : option value :=
  match id with
  | Some i => find (has_id i) coll
  | None => None
  end.

(** [doc.save()]: the stored document of that id is replaced. *)
Definition store_doc (id : value) (doc : value) (coll : list value)
  : list value :=
  map (fun d => if has_id id d then doc else d) coll.

End Store.

(** ** Requests, responses and the handler monad *)

Inductive http_error : Type :=
| InternalServerError
| Forbidden
| NotFound
| BadRequest (msg : string)
| Conflict (msg : string).

(** How a request ends: a response, an error response, or a promise that
    never settles. *)
Inductive outcome (A : Type) : Type :=
| Return (a : A)
| Throw (e : http_error)
| Pending.

Arguments Return {A} a.
Arguments Throw {A} e.
Arguments Pending {A}.

(** The collections, the error log and the calls made so far. *)
Record World : Type := mkWorld {
  users : list value;
  posts : list value;
  comments : list value;
  threads : list value;
  log : list string;
  trace : list call
}.

Definition M (A : Type) : Type := World -> outcome A * World.

Definition ret {A : Type} (a : A) : M A := fun w => (Return a, w).

Definition bind {A B : Type} (m : M A) (k : A -> M B) : M B :=
  fun w =>
    match m w with
    | (Return a, w') => k a w'
    | (Throw e, w') => (Throw e, w')
    | (Pending, w') => (Pending, w')
    end.

Definition throw {A : Type} (e : http_error) : M A := fun w => (Throw e, w).

Definition never {A : Type} : M A := fun w => (Pending, w).

Notation "x <- c ;; k" := (bind c (fun x => k))
  (at level 61, c at next level, right associativity).
Notation "c ;; k" := (bind c (fun _ => k))
  (at level 61, right associativity).

(** The world after [req.log.error(err, msg)]. *)
Definition logged (msg : string) (w : World) : World :=
  mkWorld (users w) (posts w) (comments w) (threads w) (log w ++ [msg])
          (trace w).

(** The world after a call has been made. *)
Definition called (c : call) (w : World) : World :=
  mkWorld (users w) (posts w) (comments w) (threads w) (log w)
          (trace w ++ [c]).

Definition log_error (msg : string) : M unit :=
  fun w => (Return tt, logged msg w).

Definition record_call (c : call) : M unit :=
  fun w => (Return tt, called c w).

Definition coll (c : coll_name) (w : World) : list value :=
  match c with
  | Users => users w
  | Posts => posts w
  | Comments => comments w
  | Threads => threads w
  end.

Definition set_coll (c : coll_name) (l : list value) (w : World) : World :=
  match c with
  | Users => mkWorld l (posts w) (comments w) (threads w) (log w) (trace w)
  | Posts => mkWorld (users w) l (comments w) (threads w) (log w) (trace w)
  | Comments => mkWorld (users w) (posts w) l (threads w) (log w) (trace w)
  | Threads => mkWorld (users w) (posts w) (comments w) l (log w) (trace w)
  end.

(** The pair [[err, result]] of [app.to(promise)]. *)
Inductive attempt (A : Type) : Type :=
| Failed
| Done (a : A).

Arguments Failed {A}.
Arguments Done {A} a.

(** [x.k] where [x] may be [null]: a TypeError, which the framework answers
    with an internal error. *)
Definition member (x : option value) (k : string) : M (option value) :=
  match x with
  | None => throw InternalServerError
  | Some VNull => throw InternalServerError
  | Some v => ret (prop v k)
  end.

Section Handlers.
Context {C : Collaborators}.

(** *** Calls to the store. A failing call changes nothing. *)

Definition db_findById (c : coll_name) (id : option value)
  : M (attempt (option value)) :=
  record_call (FindById c id);;
  fun w =>
    if fails (FindById c id) then (Return Failed, w)
    else (Return (Done (findById (coll c w) id)), w).

Definition db_save (id : value) (doc : value) : M (attempt value) :=
  record_call (Save doc);;
  fun w =>
    if fails (Save doc) then (Return Failed, w)
    else (Return (Done doc), set_coll Users (store_doc id doc (users w)) w).

Definition db_aggregate (pipeline : list stage) : M (attempt (list value)) :=
  record_call (Aggregate pipeline);;
  fun w =>
    if fails (Aggregate pipeline) then (Return Failed, w)
    else match aggregate (users w) pipeline with
         | Some r => (Return (Done r), w)
         | None => (Return Failed, w)
         end.

Definition db_updateMany (c : coll_name) (f : filter)
    (sets : list (list useg * option value)) (afs : list (string * filter))
  : M (attempt unit) :=
  record_call (UpdateMany c f sets afs);;
  fun w =>
    if fails (UpdateMany c f sets afs) then (Return Failed, w)
    else (Return (Done tt), set_coll c (updateMany f sets afs (coll c w)) w).

(** [findOneAndUpdate({ _id: id }, { $set: sets }, { new: true })] *)
Definition db_findOneAndUpdate (id : option value)
    (sets : list (list useg * option value)) : M (attempt (option value)) :=
  record_call (FindOneAndUpdate id sets);;
  fun w =>
    if fails (FindOneAndUpdate id sets) then (Return Failed, w)
    else match findById (users w) id with
         | Some d =>
             let d' := apply_sets [] sets d in
             (Return (Done (Some d')),
              set_coll Users (store_doc (to_bson id) d' (users w)) w)
         | None => (Return (Done None), w)
         end.

(** An awaited promise that is not wrapped in [app.to]: its failure is
    thrown, and the framework answers with an internal error. *)
Definition await {A : Type} (m : M (attempt A)) : M A :=
  r <- m;;
  match r with
  | Failed => throw InternalServerError
  | Done a => ret a
  end.

(** *** GET /api/users/ *)

Inductive objective_kind : Type := request | offer.

(** The validated query string. [q_filter] is the [filter] parameter after
    [JSON.parse(decodeURIComponent(filter))], [None] when the parameter is
    absent or empty. *)
Record users_query : Type := {
  q_ignoreUserLocation : bool;
  q_filter : option value;
  q_keywords : option string;
  q_limit : option Z;
  q_objective : option objective_kind;
  q_skip : option Z;
  q_includeMeta : bool
}.

Definition USERS_PAGE_SIZE : Z := 10.

Definition objectives (o : objective_kind) : filter :=
  match o with
  | request =>
      FOr [FEq ["needs"; "medicalHelp"] (VBool true);
           FEq ["needs"; "otherHelp"] (VBool true)]
  | offer =>
      FOr [FEq ["objectives"; "donate"] (VBool true);
           FEq ["objectives"; "shareInformation"] (VBool true);
           FEq ["objectives"; "volunteer"] (VBool true)]
  end.

Definition str (s : option string) : option value := option_map VStr s.

(** [location]: the location of the query filters, else the requester's,
    unless told to ignore it. *)
Definition location (queryFilters_location : option value)
    (user : option value) (ignoreUserLocation : bool) : option value :=
  if truthy queryFilters_location then queryFilters_location
  else match user with
       | Some u => if negb ignoreUserLocation then prop u "location" else None
       | None => None
       end.

Definition filters (queryFilters_location : option value)
    (objective : option objective_kind) (location : option value)
    (keywords : option string) : list filter :=
  [FEq ["type"] (VStr "Individual")]
  ++ (if truthy queryFilters_location
      then [FEq ["hide"; "address"] (VBool false)] else [])
  ++ (match objective with Some o => [objectives o] | None => [] end)
  ++ (if truthy location && truthy (str keywords) then
        (* keywordsRegex = createSearchRegex(keywords) *)
        let kw := match keywords with Some s => s | None => "" end in
        [FOr [FRegex ["name"] kw;
              FRegex ["firstName"] kw;
              FRegex ["lastName"] kw;
              FRegex ["about"] kw;
              FRegex ["location"; "country"] kw;
              FRegex ["location"; "state"] kw;
              FRegex ["location"; "city"] kw]]
      else []).

Definition sortAndFilterSteps (location : option value)
    (keywords : option string) (filters : list filter) : list stage :=
  if truthy location then
    [SGeoNear "distance" ["location"; "coordinates"]
              (match location with
               | Some loc => prop loc "coordinates"
               | None => None
               end)
              (FAnd filters);
     SSort [ByField ["distance"] 1; ByField ["_id"] (-1)]]
  else if truthy (str keywords) then
    [SMatch (FAnd filters) keywords; SSort [ByTextScore]]
  else [SMatch (FAnd filters) None; SSort [ByField ["_id"] (-1)]].

(** [x || d] on an optional number. *)
Definition or_default (x : option Z) (d : Z) : Z :=
  match x with
  | Some n => if truthy (Some (VNum n)) then n else d
  | None => d
  end.

Definition paginationSteps (limit skip : option Z) : list stage :=
  match limit with
  | Some (-1) => [SSkip (or_default skip 0)]
  | _ => [SSkip (or_default skip 0); SLimit (or_default limit USERS_PAGE_SIZE)]
  end.

(** The [$project] of [projectionSteps]. *)
Definition profile_projection : list proj_item :=
  [PInclude ["_id"];
   PInclude ["about"];
   PInclude ["firstName"];
   PInclude ["lastName"];
   PInclude ["type"];
   PInclude ["hide"; "address"];
   PCompute "location"
     (ECond (EField ["hide"; "address"]) (ELit VNull) (EField ["location"]));
   PInclude ["urls"];
   PInclude ["objectives"];
   PInclude ["needs"];
   PInclude ["photo"]].

Definition projectionSteps : list stage :=
  [SProject profile_projection;
   SUnset ["location"; "coordinates"] (* remove sensitive data *)].

Definition aggregationPipelineResults (location : option value)
    (keywords : option string) (filters : list filter)
    (limit skip : option Z) : list stage :=
  sortAndFilterSteps location keywords filters
  ++ paginationSteps limit skip
  ++ projectionSteps.

(** The pipeline of [totalResultsAggregationPipeline]. *)
Definition totalResultsSteps (location : option value)
    (keywords : option string) (filters : list filter) : list stage :=
  if truthy (str keywords) && negb (truthy location)
  then [SMatch (FAnd filters) keywords; SGroupCount]
  else [SMatch (FAnd filters) None; SGroupCount].

(** An object literal: a property whose value is [undefined] is not sent. *)
Definition object (fs : list (string * option value)) : value :=
  VObj (flat_map (fun kv => match snd kv with
                            | Some v => [(fst kv, v)]
                            | None => []
                            end) fs).

Definition responseHandler (includeMeta : bool)
    (totalResultsAggregationPipeline : list value) (response : list value)
  : value :=
  if negb includeMeta then VArr response
  else object
         [("meta",
           Some (object
                   [("total",
                     match totalResultsAggregationPipeline with
                     | d :: _ => prop d "count"
                     | [] => Some (VNum 0)
                     end)]));
          ("data", Some (VArr response))].

(** The handler. [userId] is the requester, [None] when not authenticated.
    The store answers an aggregation with a list or a failure, never with
    [null]: the branch [users === null] of the source is not reached. *)
Definition get_users (query : users_query) (userId : option value) : M value :=
  let queryFilters :=
    match q_filter query with Some v => v | None => VObj [] end in
  user <- match userId with
          | Some id =>
              r <- db_findById Users (Some id);;
              match r with
              | Failed =>
                  log_error "Failed retrieving user";;
                  throw InternalServerError
              | Done None =>
                  log_error "User does not exist";;
                  throw Forbidden
              | Done (Some u) => ret (Some u)
              end
          | None => ret None
          end;;
  queryFilters_location <- member (Some queryFilters) "location";;
  let location :=
    location queryFilters_location user (q_ignoreUserLocation query) in
  let filters :=
    filters queryFilters_location (q_objective query) location
            (q_keywords query) in
  totalResultsAggregationPipeline <-
    await (db_aggregate (totalResultsSteps location (q_keywords query) filters));;
  r <- db_aggregate
         (aggregationPipelineResults location (q_keywords query) filters
            (q_limit query) (q_skip query));;
  match r with
  | Failed =>
      log_error "Failed requesting users";;
      throw InternalServerError
  | Done users =>
      ret (responseHandler (q_includeMeta query)
             totalResultsAggregationPipeline users)
  end.

(** *** PATCH /api/users/current *)

Definition fields_of (d : value) : list (string * value) :=
  match d with
  | VObj fs => fs
  | _ => []
  end.

(** The update of the author snapshots of a collection:
    [updateMany({ "author.id": id }, { $set: updateOps })]. *)
Definition author_refs_call (c : coll_name) (id : option value)
    (updateOps : list (list useg * option value)) : call :=
  UpdateMany c (FEq ["author"; "id"] (to_bson id)) updateOps [].

Definition update_author_refs (c : coll_name) (id : option value)
    (updateOps : list (list useg * option value)) : M (attempt unit) :=
  db_updateMany c (FEq ["author"; "id"] (to_bson id)) updateOps [].

(** The update of the participant entries of the threads:
    [updateMany({ "participants.id": id }, { $set: sets },
                { arrayFilters: [{ "userToUpdate.id": id }] })],
    where [sets] names the fields of ["participants.$[userToUpdate]"]. *)
Definition participant_sets (sets : list (string * option value))
  : list (list useg * option value) :=
  map (fun s => ([UKey "participants"; UEach "userToUpdate"; UKey (fst s)],
                 snd s)) sets.

Definition participants_call (id : option value)
    (sets : list (string * option value)) : call :=
  UpdateMany Threads (FEq ["participants"; "id"] (to_bson id))
    (participant_sets sets) [("userToUpdate", FEq ["id"] (to_bson id))].

Definition update_participants (id : option value)
    (sets : list (string * option value)) : M (attempt unit) :=
  db_updateMany Threads (FEq ["participants"; "id"] (to_bson id))
    (participant_sets sets) [("userToUpdate", FEq ["id"] (to_bson id))].

(** Logs a failed attempt and goes on. *)
Definition log_failure {A : Type} (r : attempt A) (msg : string) : M unit :=
  match r with
  | Failed => log_error msg
  | Done _ => ret tt
  end.

Definition patch_current (userId : value) (body : list (string * value))
  : M value :=
  r <- db_findById Users (Some userId);;
  match r with
  | Failed =>
      log_error "Failed retrieving user userId=";;
      throw InternalServerError
  | Done None => throw NotFound
  | Done (Some user) =>
      s <- db_save userId (VObj (assign (fields_of user) body));;
      match s with
      | Failed =>
          log_error "Failed updating user";;
          throw InternalServerError
      | Done updatedUser =>
          let firstName := lookup "firstName" body in
          let lastName := lookup "lastName" body in
          let photo := lookup "photo" body in
          (if truthy firstName || truthy lastName || truthy photo then
             let updateOps :=
               (if truthy firstName || truthy lastName
                then [([UKey "author"; UKey "name"], display_name updatedUser)]
                else [])
               ++ (if truthy photo
                   then [([UKey "author"; UKey "photo"],
                          prop updatedUser "photo")]
                   else []) in
             postErr <- update_author_refs Posts (prop updatedUser "_id")
                          updateOps;;
             log_failure postErr "Failed updating author refs at posts";;
             commentErr <- update_author_refs Comments (prop updatedUser "_id")
                             updateOps;;
             log_failure commentErr "Failed updating author refs at comments";;
             threadErr <- update_participants (prop updatedUser "_id")
                            [("name", display_name updatedUser);
                             ("photo", prop updatedUser "photo")];;
             log_failure threadErr "Failed updating author refs at threads"
           else ret tt);;
          ret updatedUser
      end
  end.

(** *** GET /api/users/:userId *)

(** [authUserId] is the viewer, [None] when the request carries none. *)
Definition get_user_by_id (userId : value) (authUserId : option value)
  : M value :=
  found <- await (db_findById Users (Some userId));;
  match found with
  | None => throw NotFound
  | Some user =>
      match prop user "location" with
      | None => throw InternalServerError
      | Some VNull => throw InternalServerError
      | Some location0 =>
          (* never reveal user's email, coordinates in profile *)
          let location1 := delete_prop location0 "coordinates" in
          hide_address <- member (prop user "hide") "address";;
          let location := if truthy hide_address then VObj [] else location1 in
          let ownUser :=
            match authUserId with
            | Some a => has_id a user
            | None => false
            end in
          ret (object
                 [("about", prop user "about");
                  ("firstName", prop user "firstName");
                  ("id", prop user "_id");
                  ("lastName", prop user "lastName");
                  ("location", Some location);
                  ("needs", prop user "needs");
                  ("organisations", prop user "organisations");
                  ("objectives", prop user "objectives");
                  ("ownUser", Some (VBool ownUser));
                  ("photo", prop user "photo");
                  ("urls", prop user "urls");
                  ("usesPassword",
                   if ownUser then prop user "usesPassword" else None)])
      end
  end.

(** *** The avatar routes *)

(** [file] is [None] for the delete case. The promise has no [reject]:
    every path that calls it throws inside the executor instead, and the
    promise never settles. *)
Definition updateUserAvatar (userId : value) (file : option value) : M value :=
  r <- db_findById Users (Some userId);;
  match r with
  | Failed =>
      log_error "Failed retrieving user userId=";;
      never
  | Done None => never
  | Done (Some user) =>
      (* set user photo to be null when deleting avatar *)
      uploaded <- (if truthy file
                   then record_call (Upload userId (to_bson file));;
                        ret (uploadUserAvatar userId (to_bson file))
                   else ret (Some VNull));;
      match uploaded with
      | None =>
          log_error "Failed updating user avatar.";;
          never
      | Some photo =>
          s <- db_save userId (VObj (set_field "photo" photo (fields_of user)));;
          match s with
          | Failed =>
              log_error "Failed updating user";;
              log_error "Failed updating user avatar.";;
              never
          | Done updatedUser =>
              let updateOps :=
                [([UKey "author"; UKey "photo"], prop updatedUser "photo")] in
              postErr <- update_author_refs Posts (prop updatedUser "_id")
                           updateOps;;
              log_failure postErr "Failed updating author photo refs at posts";;
              commentErr <- update_author_refs Comments
                              (prop updatedUser "_id") updateOps;;
              log_failure commentErr
                "Failed updating author photo refs at comments";;
              threadErr <- update_participants (prop updatedUser "_id")
                             [("photo", prop updatedUser "photo")];;
              log_failure threadErr "Failed updating author photo at threads";;
              ret (VObj [("updatedUser", updatedUser)])
          end
      end
  end.

(** POST /api/users/current/avatar *)
Definition post_current_avatar (userId : value) (file : option value)
  : M value :=
  updateUserAvatar userId file.

(** DELETE /api/users/current/avatar *)
Definition delete_current_avatar (userId : value) : M value :=
  updateUserAvatar userId None.

(** *** The unsubscribe routes *)

(** The payload of an unsubscribe token: the subject, [exp] in seconds and
    [expireDate] in milliseconds, each absent when the token does not carry
    it. *)
Record token_payload : Type := {
  p_userId : option value;
  p_exp : option Z;
  p_expireDate : option Z
}.

(** The verdict of [jwt.verify(token, secretKey, callback)]. *)
Inductive verified : Type :=
| Invalid
| Payload (decoded : token_payload).

(** [x < now] on numbers, where [undefined] makes the comparison false. *)
Definition js_lt (x : option Z) (now : Z) : bool :=
  match x with
  | Some n => n <? now
  | None => false
  end.

(** [x * k], where [undefined] gives no number. *)
Definition js_times (x : option Z) (k : Z) : option Z :=
  option_map (fun n => n * k) x.

(** What GET does once the token has passed. *)
Definition read_notifyPrefs (userId : option value) : M value :=
  r <- db_findById Users userId;;
  match r with
  | Failed =>
      log_error "Failed retrieving user userId=";;
      throw InternalServerError
  | Done None => throw NotFound
  | Done (Some user) => ret (object [("notifyPrefs", prop user "notifyPrefs")])
  end.

(** GET /api/users/unsubscribe; [now] is [Date.now()]. *)
Definition get_unsubscribe (token : verified) (now : Z) : M value :=
  match token with
  | Invalid =>
      log_error "Invalid token for unsubscribing";;
      throw (BadRequest "token is invalid")
  | Payload decoded =>
      if js_lt (js_times (p_exp decoded) 1000) now
      then throw (BadRequest "token is expired")
      else read_notifyPrefs (p_userId decoded)
  end.

(** What PATCH does once the token has passed. *)
Definition write_notifyPrefs (userId : option value)
    (notifyPrefs : option value) : M (option value) :=
  r <- db_findOneAndUpdate userId [([UKey "notifyPrefs"], notifyPrefs)];;
  match r with
  | Failed =>
      log_error "Failed updating user";;
      throw InternalServerError
  | Done updatedUser =>
      member updatedUser "notifyPrefs"
  end.

(** PATCH /api/users/unsubscribe *)
Definition patch_unsubscribe (token : verified) (now : Z)
    (body : list (string * value)) : M (option value) :=
  match token with
  | Invalid =>
      log_error "Invalid token for unsubscribing";;
      throw (BadRequest "token is invalid")
  | Payload decoded =>
      if js_lt (p_expireDate decoded) now
      then throw (BadRequest "token is expired")
      else write_notifyPrefs (p_userId decoded) (lookup "notifyPrefs" body)
  end.





End Handlers.

(** ** Names for the parts of a search *)

Section SearchParts.
Context {C : Collaborators}.

(** The requester's profile, as the search reads it. *)
Definition requester (w : World) (userId : option value) : option value :=
  match userId with
  | Some id => findById (users w) (Some id)
  | None => None
  end.

(** [queryFilters.location] *)
Definition query_location (query : users_query) : option value :=
  prop (match q_filter query with Some v => v | None => VObj [] end) "location".

Definition search_location (query : users_query) (user : option value)
  : option value :=
  location (query_location query) user (q_ignoreUserLocation query).

Definition search_filters (query : users_query) (user : option value)
  : list filter :=
  filters (query_location query) (q_objective query)
          (search_location query user) (q_keywords query).

(** What the projection steps make of one profile. *)
Definition directory_view (d : value) : value :=
  unset_path ["location"; "coordinates"] (project profile_projection d).

(** The list of profiles in a response, bare or under [data]. *)
Definition response_data (resp : value) : list value :=
  match resp with
  | VArr l => l
  | VObj fs =>
      match lookup "data" fs with
      | Some (VArr l) => l
      | _ => []
      end
  | _ => []
  end.

(** The same query with another page window. *)
Definition paged (query : users_query) (limit skip : option Z) : users_query :=
  {| q_ignoreUserLocation := q_ignoreUserLocation query;
     q_filter := q_filter query;
     q_keywords := q_keywords query;
     q_limit := limit;
     q_objective := q_objective query;
     q_skip := skip;
     q_includeMeta := q_includeMeta query |}.

(** Is the profile counted in [total]: it satisfies the filters and, in a
    keyword search without a location, the text search as well. *)
Definition counted (location : option value) (keywords : option string)
    (fs : list filter) (d : value) : bool :=
  matches (FAnd fs) d &&
  match keywords with
  | Some kw =>
      if truthy (str keywords) && negb (truthy location)
      then match text_score kw d with Some _ => true | None => false end
      else true
  | None => true
  end.

(** The name of the field a projection item writes. *)
Definition item_key (it : proj_item) : string :=
  match it with
  | PInclude p => match p with k :: _ => k | [] => "" end
  | PCompute field _ => field
  end.

End SearchParts.

(** ** Names for the parts of a propagation *)

Section PropagationParts.
Context {C : Collaborators}.

(** The fan-out of both routes: the three updates, each followed by the
    log of its failure. *)
Definition propagation (id : option value)
    (updateOps : list (list useg * option value))
    (sets : list (string * option value)) (m1 m2 m3 : string) : M unit :=
  postErr <- update_author_refs Posts id updateOps;;
  log_failure postErr m1;;
  commentErr <- update_author_refs Comments id updateOps;;
  log_failure commentErr m2;;
  threadErr <- update_participants id sets;;
  log_failure threadErr m3.

(** The collection after a call to [updateMany] that may fail. *)
Definition updated (c : call) (l : list value) : list value :=
  match c with
  | UpdateMany _ f sets afs => if fails c then l else updateMany f sets afs l
  | _ => l
  end.

(** The log lines of the failures among three calls. *)
Definition failure_lines (c1 c2 c3 : call) (m1 m2 m3 : string) : list string :=
  (if fails c1 then [m1] else []) ++
  (if fails c2 then [m2] else []) ++
  (if fails c3 then [m3] else []).

(** The trigger of PATCH /current: [firstName || lastName || photo]. *)
Definition triggers (body : list (string * value)) : bool :=
  truthy (lookup "firstName" body) || truthy (lookup "lastName" body)
  || truthy (lookup "photo" body).

(** The [updateOps] of PATCH /current. *)
Definition patch_updateOps (body : list (string * value)) (updatedUser : value)
  : list (list useg * option value) :=
  (if truthy (lookup "firstName" body) || truthy (lookup "lastName" body)
   then [([UKey "author"; UKey "name"], display_name updatedUser)]
   else [])
  ++ (if truthy (lookup "photo" body)
      then [([UKey "author"; UKey "photo"], prop updatedUser "photo")]
      else []).

(** Is this participant entry the one the array filter
    [{ "userToUpdate.id": id }] selects? *)
Definition is_entry_of (id : value) (p : value) : bool :=
  matches (FEq ["id"] id) p.

(** Between a thread and its update: the thread that does not have [id]
    among its participants is the same; the fields other than
    [participants] are the same; the participants are as many, and every
    entry that is not an entry of [id] is the same at the same place. *)
Definition entries_kept (id : value) (t t' : value) : Prop :=
  (matches (FEq ["participants"; "id"] id) t = false -> t' = t) /\
  (forall k, k <> "participants" -> prop t' k = prop t k) /\
  match prop t "participants" with
  | Some (VArr ps) =>
      exists ps',
        prop t' "participants" = Some (VArr ps') /\
        List.length ps' = List.length ps /\
        forall i p,
          nth_error ps i = Some p -> is_entry_of id p = false ->
          nth_error ps' i = Some p
  | other => prop t' "participants" = other
  end.

(** [entries_kept] without its first clause, which does not compose. *)
Definition kept (id : value) (t t' : value) : Prop :=
  (forall k, k <> "participants" -> prop t' k = prop t k) /\
  match prop t "participants" with
  | Some (VArr ps) =>
      exists ps',
        prop t' "participants" = Some (VArr ps') /\
        List.length ps' = List.length ps /\
        forall i p,
          nth_error ps i = Some p -> is_entry_of id p = false ->
          nth_error ps' i = Some p
  | other => prop t' "participants" = other
  end.

(** The photo a call of [updateUserAvatar] stores, [None] when the upload
    throws. *)
Definition avatar_photo (userId : value) (file : option value) : option value :=
  if truthy file then uploadUserAvatar userId (to_bson file) else Some VNull.

Definition upload_calls (userId : value) (file : option value) : list call :=
  if truthy file then [Upload userId (to_bson file)] else [].

End PropagationParts.

(** ** The plans of the ranking selector, in the words of the design *)

Inductive plan : Type := GeoPlan | TextPlan | DefaultPlan.

(** The geo-proximity plan whenever a location is there, otherwise the
    text-relevance plan when a keyword that is not empty is there, otherwise
    the default plan. *)
Definition selected_plan (location : option value) (keywords : option string)
  : plan :=
  if truthy location then GeoPlan
  else match keywords with
       | Some kw => if (kw =? "")%string then DefaultPlan else TextPlan
       | None => DefaultPlan
       end.

(** The order of two keys of the comparison order. *)
Definition key_le (a b : Z * Z) : Prop :=
  fst a < fst b \/ (fst a = fst b /\ snd a <= snd b).

Section Orders.
Context {C : Collaborators}.

Definition id_key (r : row) : Z * Z := bson_key (get_path ["_id"] (r_doc r)).

(** [a] may stand before [b] in the geo plan: nearer, or as near with an
    identity that is not smaller. *)
Definition geo_before (a b : row) : Prop :=
  exists da db,
    get_path ["distance"] (r_doc a) = Some (VNum da) /\
    get_path ["distance"] (r_doc b) = Some (VNum db) /\
    (da < db \/ (da = db /\ key_le (id_key b) (id_key a))).

(** ... in the text plan: a score that is not smaller. *)
Definition score_before (a b : row) : Prop := r_score b <= r_score a.

(** ... in the default plan: an identity that is not smaller. *)
Definition id_before (a b : row) : Prop := key_le (id_key b) (id_key a).

(** The candidates of the geo plan: the rows of [rows] that satisfy the
    filters and hold a point, with their distance to [c]. *)
Definition geo_candidate (c : value) (fs : list filter) (rows : list row)
    (r : row) : Prop :=
  exists r0 fs0 pt,
    In r0 rows /\ r_doc r0 = VObj fs0 /\
    matches (FAnd fs) (r_doc r0) = true /\
    get_path ["location"; "coordinates"] (r_doc r0) = Some pt /\
    is_point pt = true /\
    r = Row (VObj (set_field "distance" (VNum (distance c pt)) fs0))
            (r_score r0).

(** The point a geo search is anchored at. *)
Definition anchor (location : option value) : option value :=
  match location with
  | Some loc =>
      match prop loc "coordinates" with
      | Some c => if is_point c then Some c else None
      | None => None
      end
  | None => None
  end.

(** A row of the ranking steps stands for a stored document that satisfies
    the filters: the document itself, or the document with its distance. *)
Definition row_of (fs : list filter) (rows : list row) (r : row) : Prop :=
  exists r0,
    In r0 rows /\ matches (FAnd fs) (r_doc r0) = true /\
    (r_doc r = r_doc r0 \/
     exists fs0 v,
       r_doc r0 = VObj fs0 /\ r_doc r = VObj (set_field "distance" v fs0)).

End Orders.

(** ** The other routes of the file *)

Section MoreRoutes.
Context {C : Collaborators}.

(** *** GET /api/users/current *)

Definition get_current (userId : value) : M value :=
  r <- db_findById Users (Some userId);;
  match r with
  | Failed =>
      log_error "Failed retrieving user";;
      throw InternalServerError
  | Done None =>
      log_error "User does not exist";;
      throw NotFound
  | Done (Some user) =>
      ret (object
             [("about", prop user "about");
              ("email", prop user "email");
              ("firstName", prop user "firstName");
              ("hide", prop user "hide");
              ("id", prop user "_id");
              ("lastName", prop user "lastName");
              ("location", prop user "location");
              ("needs", prop user "needs");
              ("objectives", prop user "objectives");
              ("organisations", prop user "organisations");
              ("photo", prop user "photo");
              ("urls", prop user "urls");
              ("permissions", prop user "permissions");
              ("notifyPrefs", prop user "notifyPrefs");
              ("usesPassword", prop user "usesPassword")])
  end.

(** *** POST /api/users/ *)

(** What [Auth0.getUser] answers for the cookie token. *)
Record auth0_user : Type := {
  a_email : option value;
  a_email_verified : option value
}.

(** [{ ...o, k: x }]: the property is written where it stands or appended;
    written as [undefined], it is not stored. *)
Definition with_prop (k : string) (x : option value)
    (fs : list (string * value)) : list (string * value) :=
  match x with
  | Some v => set_field k v fs
  | None => remove_field k fs
  end.

(** [new User(userData).save()]: the document joins the collection. *)
Definition db_create (doc : value) : M (attempt value) :=
  record_call (Save doc);;
  fun w =>
    if fails (Save doc) then (Return Failed, w)
    else (Return (Done doc), set_coll Users (users w ++ [doc]) w).

(** [auth0] is the answer of [Auth0.getUser], [Failed] when it throws;
    [userId] is [req.userId] and [sub] is [req.user.sub]. The message of a
    forbidden error ("emailUnverified") is not kept. *)
Definition post_users (auth0 : attempt auth0_user) (userId sub : option value)
    (body : list (string * value)) : M value :=
  a <- await (ret auth0);;
  if negb (truthy (a_email_verified a)) then throw Forbidden
  else
    match userId with
    | None =>
        log_error "No userId for create user, invalid configuration";;
        throw InternalServerError
    | Some id =>
        existing <- await (db_findById Users userId);;
        match existing with
        | Some _ => throw (Conflict "userExists")
        | None =>
            let userData :=
              with_prop "email" (a_email a)
                (with_prop "authId" sub (with_prop "_id" userId body)) in
            user <- await (db_create (VObj userData));;
            ret (VObj (set_field "organisations" (VArr []) (fields_of user)))
        end
    end.

(** *** PATCH /api/users/:userId/permissions *)

(** [ROLES] is the table of [../constants]: the permissions of a role name,
    [None] where the table has no such name. *)
Definition patch_permissions (ROLES : string -> option value) (userId : value)
    (role : string) : M value :=
  match ROLES role with
  | None => throw (BadRequest "invalid role")
  | Some permissions =>
      r <- db_findOneAndUpdate (Some userId)
             [([UKey "permissions"], Some permissions)];;
      match r with
      | Failed =>
          log_error "Failed to add permission";;
          throw InternalServerError
      | Done _ => ret (VObj [("success", VBool true)])
      end
  end.

(** *** Names for the properties of the routes *)

(** The four collections of a world. *)
Definition stores (w : World)
  : list value * list value * list value * list value :=
  (users w, posts w, comments w, threads w).

(** A computation that leaves the collections as they are, however it
    ends. *)
Definition read_only {A : Type} (m : M A) : Prop :=
  forall w, stores (snd (m w)) = stores w.

Definition is_update (c : call) : bool :=
  match c with
  | UpdateMany _ _ _ _ => true
  | _ => false
  end.

(** The [$set] of fields of the embedded [author]. *)
Definition author_ops (kvs : list (string * option value))
  : list (list useg * option value) :=
  map (fun kv => ([UKey "author"; UKey (fst kv)], snd kv)) kvs.

(** The fields of a [$set], as the driver sends them. *)
Definition sent (kvs : list (string * option value)) : list (string * value) :=
  map (fun kv => (fst kv, to_bson (snd kv))) kvs.

(** Between a post or a comment and its update: a document of another
    author is the same; in a document of the author [id], the fields
    beside [author] are the same, and a field of [author] holds the value
    sent for it, or what it held when no value is sent. *)
Definition snapshot_written (id : value) (kvs : list (string * option value))
    (d d' : value) : Prop :=
  (matches (FEq ["author"; "id"] id) d = false -> d' = d) /\
  (matches (FEq ["author"; "id"] id) d = true ->
   forall fs a,
     d = VObj fs -> lookup "author" fs = Some (VObj a) ->
     (forall k, k <> "author" -> prop d' k = prop d k) /\
     (forall k, get_path ["author"; k] d' =
                match lookup k (sent kvs) with
                | Some v => Some v
                | None => lookup k a
                end)).

(** Between a thread of the participant [id] and its update: an entry the
    array filter selects holds the values sent, over what it held. *)
Definition entries_written (id : value) (kvs : list (string * option value))
    (t t' : value) : Prop :=
  forall tf ps,
    t = VObj tf -> lookup "participants" tf = Some (VArr ps) ->
    matches (FEq ["participants"; "id"] id) t = true ->
    exists ps',
      prop t' "participants" = Some (VArr ps') /\
      forall i pf,
        nth_error ps i = Some (VObj pf) -> is_entry_of id (VObj pf) = true ->
        nth_error ps' i = Some (VObj (assign pf (sent kvs))).

(** The fields PATCH /current writes to the author snapshots. *)
Definition patch_author_fields (body : list (string * value))
    (updatedUser : value) : list (string * option value) :=
  (if truthy (lookup "firstName" body) || truthy (lookup "lastName" body)
   then [("name", display_name updatedUser)] else [])
  ++ (if truthy (lookup "photo" body)
      then [("photo", prop updatedUser "photo")] else []).

(** The paths the keyword of a location search is looked for at. *)
Definition keyword_paths : list path :=
  [["name"]; ["firstName"]; ["lastName"]; ["about"];
   ["location"; "country"]; ["location"; "state"]; ["location"; "city"]].

(** The fields the projection of the search copies as they are. *)
Definition copied_keys : list string :=
  ["_id"; "about"; "firstName"; "lastName"; "type"; "urls"; "objectives";
   "needs"; "photo"].

(** The keys a directory search can return. *)
Definition directory_keys : list string :=
  ["_id"; "about"; "firstName"; "lastName"; "type"; "hide"; "location";
   "urls"; "objectives"; "needs"; "photo"].

(** The object a single-profile read answers with. *)
Definition profile_of (user : value) (location : value) (ownUser : bool)
  : value :=
  object
    [("about", prop user "about");
     ("firstName", prop user "firstName");
     ("id", prop user "_id");
     ("lastName", prop user "lastName");
     ("location", Some location);
     ("needs", prop user "needs");
     ("organisations", prop user "organisations");
     ("objectives", prop user "objectives");
     ("ownUser", Some (VBool ownUser));
     ("photo", prop user "photo");
     ("urls", prop user "urls");
     ("usesPassword", if ownUser then prop user "usesPassword" else None)].

(** The keys a single-profile read can return. *)
Definition profile_keys : list string :=
  ["about"; "firstName"; "id"; "lastName"; "location"; "needs";
   "organisations"; "objectives"; "ownUser"; "photo"; "urls"; "usesPassword"].

End MoreRoutes.

(** ** The session actions of the client *)

(** The actions the thunks dispatch to the session reducer. *)
Inductive action : Type :=
| SET_AUTH_LOADING (payload : bool)
| SET_USER (user : option value)
| AUTH_ERROR
| AUTH_LOGOUT.

(** What the thunks see and change: the remember cookie, the two storages,
    the tag manager's data layer, the actions dispatched, the requests
    sent, the interval and the reloads of the page. *)
Record Browser : Type := mkBrowser {
  rememberCookie : bool;
  organisationId : option string;
  postredirect : option string;
  pathname : string;
  dataLayer : list (option value * bool);
  dispatched : list action;
  requests : nat;
  intervalRunning : bool;
  reloads : nat
}.

Definition dispatch (a : action) (b : Browser) : Browser :=
  mkBrowser (rememberCookie b) (organisationId b) (postredirect b)
            (pathname b) (dataLayer b) (dispatched b ++ [a]) (requests b)
            (intervalRunning b) (reloads b).

(** [TagManager.dataLayer({ dataLayer: { userId, isActingAsOrg } })] *)
Definition tag (userId : option value) (isActingAsOrg : bool) (b : Browser)
  : Browser :=
  mkBrowser (rememberCookie b) (organisationId b) (postredirect b)
            (pathname b) (dataLayer b ++ [(userId, isActingAsOrg)])
            (dispatched b) (requests b) (intervalRunning b) (reloads b).

(** [axios.get(GET_CURRENT_USER_ENDPOINT)] is sent. *)
Definition requested (b : Browser) : Browser :=
  mkBrowser (rememberCookie b) (organisationId b) (postredirect b)
            (pathname b) (dataLayer b) (dispatched b) (S (requests b))
            (intervalRunning b) (reloads b).

(** [initAuth()(dispatch)]. [response] is what the request gives: [None]
    when it throws, else the [data] of the response. Reading [user.id] of a
    [data] that is [null] or [undefined] throws, and the [catch] takes it. *)
Definition initAuth (response : option (option value)) (b : Browser) : Browser :=
  if negb (rememberCookie b) then b
  else
    let b1 := requested (dispatch (SET_AUTH_LOADING true) b) in
    let b2 :=
      match response with
      | Some (Some user) =>
          match user with
          | VNull => dispatch AUTH_ERROR b1
          | _ =>
              dispatch (SET_USER (Some user))
                (tag (prop user "id") (truthy (str (organisationId b1))) b1)
          end
      | Some None => dispatch AUTH_ERROR b1
      | None => dispatch AUTH_ERROR b1
      end in
    dispatch (SET_AUTH_LOADING false) b2.

(** [refetchUser()(dispatch)] *)
Definition refetchUser (response : option (option value)) (b : Browser)
  : Browser :=
  match response with
  | Some user => dispatch (SET_USER user) (requested b)
  | None => dispatch AUTH_ERROR (requested b)
  end.

(** [authLogout()(dispatch)]: the thunk, once it is run. *)
Definition authLogout (b : Browser) : Browser :=
  dispatch AUTH_LOGOUT
    (tag (Some (VNum (-1))) false
       (mkBrowser false (organisationId b) (postredirect b) (pathname b)
                  (dataLayer b) (dispatched b) (requests b)
                  (intervalRunning b) (reloads b))).

(** [startCheckCookieInterval()] *)
Definition startCheckCookieInterval (b : Browser) : Browser :=
  mkBrowser (rememberCookie b) (organisationId b) (postredirect b)
            (pathname b) (dataLayer b) (dispatched b) (requests b) true
            (reloads b).

(** One firing of the interval. With the cookie gone, the callback clears
    the interval, calls [authLogout()] (which builds the thunk and runs
    nothing: no [dispatch] is at hand), stores the path and reloads. *)
Definition checkCookieTick (b : Browser) : Browser :=
  if negb (intervalRunning b) then b
  else if negb (rememberCookie b) then
    mkBrowser (rememberCookie b) (organisationId b) (Some (pathname b))
              (pathname b) (dataLayer b) (dispatched b) (requests b) false
              (S (reloads b))
  else b.

(** The cookie as the server or the user leaves it. *)
Definition set_cookie (c : bool) (b : Browser) : Browser :=
  mkBrowser c (organisationId b) (postredirect b) (pathname b) (dataLayer b)
            (dispatched b) (requests b) (intervalRunning b) (reloads b).

(** The interval firing once for each state it finds the cookie in, until
    the interval is started again. *)
Definition ticks (cookies : list bool) (b : Browser) : Browser :=
  fold_left (fun b c => checkCookieTick (set_cookie c b)) cookies b.

(** ** A small directory to run the handlers on *)

Definition contains (kw s : string) : bool :=
  match String.index 0 kw s with
  | Some _ => true
  | None => false
  end.

Definition point (v : value) : bool :=
  match v with
  | VArr [VNum _; VNum _] => true
  | _ => false
  end.

Definition taxicab (a b : value) : Z :=
  match a, b with
  | VArr [VNum x1; VNum y1], VArr [VNum x2; VNum y2] =>
      Z.abs (x1 - x2) + Z.abs (y1 - y2)
  | _, _ => 0
  end.

Definition full_name (u : value) : option value :=
  match prop u "firstName", prop u "lastName" with
  | Some (VStr f), Some (VStr l) => Some (VStr (f ++ " " ++ l))
  | _, _ => None
  end.

(** Collaborators that never fail: a substring search on [about] for the
    text index, points as pairs of numbers. *)
Definition demo : Collaborators := {|
  regex_test := contains;
  text_score := fun kw d =>
    match prop d "about" with
    | Some (VStr s) => if contains kw s then Some 1 else None
    | _ => None
    end;
  is_point := point;
  distance := taxicab;
  display_name := full_name;
  uploadUserAvatar := fun _ _ => Some (VStr "avatar.png");
  fails := fun _ => false
|}.

(** The same, with a store that fails every update of the posts. *)
Definition demo_posts_down : Collaborators := {|
  regex_test := contains;
  text_score := fun kw d =>
    match prop d "about" with
    | Some (VStr s) => if contains kw s then Some 1 else None
    | _ => None
    end;
  is_point := point;
  distance := taxicab;
  display_name := full_name;
  uploadUserAvatar := fun _ _ => Some (VStr "avatar.png");
  fails := fun c =>
    match c with
    | UpdateMany Posts _ _ _ => true
    | _ => false
    end
|}.

Definition ann : value :=
  VObj [("_id", VNum 1);
        ("type", VStr "Individual");
        ("firstName", VStr "Ann");
        ("lastName", VStr "Lee");
        ("about", VStr "nurse");
        ("hide", VObj [("address", VBool false)]);
        ("location", VObj [("city", VStr "Lyon");
                           ("coordinates", VArr [VNum 4; VNum 45])]);
        ("photo", VStr "ann.png");
        ("notifyPrefs", VObj [("digest", VBool true)])].

Definition bob : value :=
  VObj [("_id", VNum 2);
        ("type", VStr "Individual");
        ("firstName", VStr "Bob");
        ("lastName", VStr "Roy");
        ("about", VStr "driver");
        ("hide", VObj [("address", VBool true)]);
        ("location", VObj [("city", VStr "Nice");
                           ("coordinates", VArr [VNum 7; VNum 43])]);
        ("photo", VStr "bob.png")].

Definition snapshot (id : Z) (name photo : string) : value :=
  VObj [("id", VNum id); ("name", VStr name); ("photo", VStr photo)].

Definition sample : World :=
  mkWorld [ann; bob]
          [VObj [("_id", VNum 10); ("author", snapshot 1 "Ann Lee" "ann.png")]]
          [VObj [("_id", VNum 20); ("author", snapshot 1 "Ann Lee" "ann.png")]]
          [VObj [("_id", VNum 30);
                 ("participants", VArr [snapshot 1 "Ann Lee" "ann.png";
                                        snapshot 2 "Bob Roy" "bob.png"])]]
          [] [].

Definition plain_query : users_query :=
  {| q_ignoreUserLocation := false;
     q_filter := None;
     q_keywords := None;
     q_limit := None;
     q_objective := None;
     q_skip := None;
     q_includeMeta := false |}.

Definition with_keywords (kw : string) (meta : bool) : users_query :=
  {| q_ignoreUserLocation := false;
     q_filter := None;
     q_keywords := Some kw;
     q_limit := None;
     q_objective := None;
     q_skip := None;
     q_includeMeta := meta |}.

Definition near_lyon : users_query :=
  {| q_ignoreUserLocation := false;
     q_filter := Some (VObj [("location",
                              VObj [("coordinates", VArr [VNum 4; VNum 45])])]);
     q_keywords := None;
     q_limit := None;
     q_objective := None;
     q_skip := None;
     q_includeMeta := false |}.

(** A token the signer issued for [ann]. *)
Definition token (exp expireDate : option Z) : verified :=
  Payload {| p_userId := Some (VNum 1);
             p_exp := exp;
             p_expireDate := expireDate |}.

(** The collaborators of [demo], with a store that fails the calls [bad]
    and an upload that gives [upload]. *)
Definition demo_with (bad : call -> bool) (upload : option value)
  : Collaborators := {|
  regex_test := contains;
  text_score := fun kw d =>
    match prop d "about" with
    | Some (VStr s) => if contains kw s then Some 1 else None
    | _ => None
    end;
  is_point := point;
  distance := taxicab;
  display_name := full_name;
  uploadUserAvatar := fun _ _ => upload;
  fails := bad
|}.

Definition is_find (c : call) : bool :=
  match c with
  | FindById _ _ => true
  | _ => false
  end.

Definition is_save (c : call) : bool :=
  match c with
  | Save _ => true
  | _ => false
  end.

(** A profile stored without a location. *)
Definition carl : value :=
  VObj [("_id", VNum 3); ("firstName", VStr "Carl")].

Definition sample_with_carl : World :=
  mkWorld [ann; bob; carl] [] [] [] [] [].

(** A browser with the remember cookie and a running interval. *)
Definition browser : Browser :=
  mkBrowser true None None "/feed" [] [] 0 true 0.


(** ** Properties of values and objects *)

Lemma value_eqb_refl : forall a, value_eqb a a = true.
Proof.
  induction a using value_nested_ind; simpl; auto.
  - apply Bool.eqb_reflx.
  - apply Z.eqb_refl.
  - apply String.eqb_refl.
  - induction H as [|x r Hx _ IH]; auto. now rewrite Hx.
  - induction H as [|[k x] r Hx _ IH]; auto.
    simpl in Hx. now rewrite String.eqb_refl, Hx.
Qed.

Lemma value_eqb_eq : forall a b, value_eqb a b = true -> a = b.
Proof.
  intros a. induction a using value_nested_ind; intros c; destruct c; simpl;
    try discriminate; auto.
  - intros E. apply Bool.eqb_prop in E. now subst.
  - intros E. apply Z.eqb_eq in E. now subst.
  - intros E. apply String.eqb_eq in E. now subst.
  - rename xs0 into ys. revert ys. induction H as [|x r Hx _ IH]; intros [|y ys]; try discriminate; auto.
    intros E. apply andb_true_iff in E as [E1 E2].
    apply Hx in E1. apply IH in E2. congruence.
  - rename fields into gs. revert gs.
    induction H as [|[k x] r Hx _ IH]; intros [|[k' y] gs];
      try discriminate; auto.
    intros E. apply andb_true_iff in E as [E E3].
    apply andb_true_iff in E as [E1 E2].
    apply String.eqb_eq in E1. apply Hx in E2. apply IH in E3. simpl in *. congruence.
Qed.

Lemma value_eqb_spec : forall a b, value_eqb a b = true <-> a = b.
Proof.
  split; [apply value_eqb_eq | intros ->; apply value_eqb_refl].
Qed.

Lemma lookup_set_field_eq : forall k v fs, lookup k (set_field k v fs) = Some v.
Proof.
  induction fs as [|[k' x] r IH]; simpl.
  - now rewrite String.eqb_refl.
  - destruct (k' =? k)%string eqn:E; simpl.
    + now rewrite String.eqb_refl.
    + now rewrite E.
Qed.

Lemma lookup_set_field_ne : forall k k' v fs,
  k' <> k -> lookup k' (set_field k v fs) = lookup k' fs.
Proof.
  intros k k' v fs Hne. induction fs as [|[k0 x] r IH]; simpl.
  - apply String.eqb_neq in Hne. rewrite String.eqb_sym in Hne. now rewrite Hne.
  - destruct (k0 =? k)%string eqn:E; simpl.
    + apply String.eqb_eq in E. subst k0.
      assert (Hk : (k =? k')%string = false)
        by (apply String.eqb_neq; congruence).
      now rewrite Hk.
    + now rewrite IH.
Qed.

Lemma lookup_remove_field_eq : forall k fs, lookup k (remove_field k fs) = None.
Proof.
  induction fs as [|[k' x] r IH]; simpl; auto.
  destruct (k' =? k)%string eqn:E; simpl; auto. now rewrite E.
Qed.

Lemma lookup_remove_field_ne : forall k k' fs,
  k' <> k -> lookup k' (remove_field k fs) = lookup k' fs.
Proof.
  intros k k' fs Hne. induction fs as [|[k0 x] r IH]; simpl; auto.
  destruct (k0 =? k)%string eqn:E; simpl.
  - apply String.eqb_eq in E. subst k0.
    assert (Hk : (k =? k')%string = false) by (apply String.eqb_neq; congruence).
    now rewrite Hk.
  - now rewrite IH.
Qed.

Lemma get_path_values : forall p d v,
  get_path p d = Some v -> path_values p d = [v].
Proof.
  induction p as [|k p IH]; simpl; intros d v H.
  - congruence.
  - destruct d; simpl in H; try discriminate.
    destruct (lookup k fields); try discriminate. now apply IH.
Qed.

(** ** Sorting *)

Section SortProperties.
Context {C : Collaborators}.

Ltac zcases :=
  repeat match goal with
         | H : context [?x ?= ?y] |- _ => destruct (Z.compare_spec x y)
         | |- context [?x ?= ?y] => destruct (Z.compare_spec x y)
         end;
  simpl in *; try congruence; try lia.

Lemma key_compare_sym : forall a b, key_compare b a = CompOpp (key_compare a b).
Proof. intros [a1 a2] [b1 b2]. unfold key_compare. simpl. zcases. Qed.

Lemma key_compare_eq : forall a b c,
  key_compare a b = Eq -> key_compare a c = key_compare b c.
Proof.
  intros [a1 a2] [b1 b2] [c1 c2]. unfold key_compare. simpl. intros H.
  assert (a1 = b1 /\ a2 = b2) as [-> ->] by zcases. reflexivity.
Qed.

Lemma key_compare_lt : forall a b c,
  key_compare a b = Lt -> key_compare b c = Lt -> key_compare a c = Lt.
Proof.
  intros [a1 a2] [b1 b2] [c1 c2]. unfold key_compare. simpl. intros H1 H2.
  assert (Hab : a1 < b1 \/ (a1 = b1 /\ a2 < b2)) by zcases.
  assert (Hbc : b1 < c1 \/ (b1 = c1 /\ b2 < c2)) by zcases.
  clear H1 H2. zcases.
Qed.

Lemma key_compare_le : forall a b, key_compare a b <> Gt <-> key_le a b.
Proof.
  intros [a1 a2] [b1 b2]. unfold key_compare, key_le. simpl.
  split; intros H; zcases.
Qed.

Lemma compare_on_sym : forall k a b,
  compare_on k b a = CompOpp (compare_on k a b).
Proof.
  intros [p dir|] a b; simpl.
  - rewrite (key_compare_sym (bson_key (get_path p (r_doc a)))).
    destruct (0 <=? dir); auto; now rewrite CompOpp_involutive.
  - apply Z.compare_antisym.
Qed.

Lemma compare_on_eq : forall k a b c,
  compare_on k a b = Eq -> compare_on k a c = compare_on k b c.
Proof.
  intros [p dir|] a b c; simpl.
  - intros H.
    assert (E : key_compare (bson_key (get_path p (r_doc a)))
                            (bson_key (get_path p (r_doc b))) = Eq).
    { destruct (0 <=? dir); auto.
      now destruct (key_compare (bson_key (get_path p (r_doc a)))
                                (bson_key (get_path p (r_doc b)))). }
    now rewrite (key_compare_eq _ _ (bson_key (get_path p (r_doc c))) E).
  - intros H. apply Z.compare_eq in H. now rewrite H.
Qed.

Lemma compare_on_lt : forall k a b c,
  compare_on k a b = Lt -> compare_on k b c = Lt -> compare_on k a c = Lt.
Proof.
  intros [p dir|] a b c; simpl.
  - set (ka := bson_key (get_path p (r_doc a))).
    set (kb := bson_key (get_path p (r_doc b))).
    set (kc := bson_key (get_path p (r_doc c))).
    destruct (0 <=? dir).
    + apply key_compare_lt.
    + intros H1 H2.
      assert (G1 : key_compare kb ka = Lt)
        by (rewrite key_compare_sym; destruct (key_compare ka kb); auto; discriminate).
      assert (G2 : key_compare kc kb = Lt)
        by (rewrite key_compare_sym; destruct (key_compare kb kc); auto; discriminate).
      pose proof (key_compare_lt _ _ _ G2 G1) as G.
      rewrite key_compare_sym in G.
      destruct (key_compare ka kc); auto; discriminate.
  - rewrite !Z.compare_lt_iff. lia.
Qed.

Lemma compare_rows_sym : forall ks a b,
  compare_rows ks b a = CompOpp (compare_rows ks a b).
Proof.
  induction ks as [|k ks IH]; intros a b; simpl; auto.
  rewrite (compare_on_sym k a b).
  destruct (compare_on k a b); simpl; auto.
Qed.

Lemma compare_rows_eq : forall ks a b c,
  compare_rows ks a b = Eq -> compare_rows ks a c = compare_rows ks b c.
Proof.
  induction ks as [|k ks IH]; intros a b c; simpl; auto.
  destruct (compare_on k a b) eqn:E; try discriminate.
  intros H. rewrite (compare_on_eq k a b c E).
  destruct (compare_on k b c); auto.
Qed.

Lemma compare_rows_lt : forall ks a b c,
  compare_rows ks a b = Lt -> compare_rows ks b c = Lt ->
  compare_rows ks a c = Lt.
Proof.
  induction ks as [|k ks IH]; intros a b c; simpl; try discriminate.
  destruct (compare_on k a b) eqn:E1; try discriminate;
    destruct (compare_on k b c) eqn:E2; try discriminate; intros H1 H2.
  - rewrite (compare_on_eq k a b c E1), E2. eauto.
  - now rewrite (compare_on_eq k a b c E1), E2.
  - assert (E3 : compare_on k c b = Eq) by (rewrite compare_on_sym, E2; auto).
    assert (E4 : compare_on k c a = Gt).
    { rewrite (compare_on_eq k c b a E3), compare_on_sym, E1. auto. }
    rewrite compare_on_sym, E4. auto.
  - now rewrite (compare_on_lt k a b c E1 E2).
Qed.

Lemma row_leb_total : forall ks a b, row_leb ks a b = false -> row_leb ks b a = true.
Proof.
  unfold row_leb. intros ks a b. rewrite (compare_rows_sym ks a b).
  destruct (compare_rows ks a b); simpl; auto; discriminate.
Qed.

Lemma row_leb_trans : forall ks a b c,
  row_leb ks a b = true -> row_leb ks b c = true -> row_leb ks a c = true.
Proof.
  unfold row_leb. intros ks a b c.
  destruct (compare_rows ks a b) eqn:E1; try discriminate; intros _.
  - now rewrite (compare_rows_eq ks a b c E1).
  - destruct (compare_rows ks b c) eqn:E2; try discriminate; intros _.
    + assert (E3 : compare_rows ks c b = Eq)
        by (rewrite compare_rows_sym, E2; auto).
      assert (E4 : compare_rows ks c a = Gt).
      { rewrite (compare_rows_eq ks c b a E3), compare_rows_sym, E1. auto. }
      rewrite compare_rows_sym, E4. auto.
    + now rewrite (compare_rows_lt ks a b c E1 E2).
Qed.

Lemma insert_row_perm : forall ks x l, Permutation (insert_row ks x l) (x :: l).
Proof.
  induction l as [|y r IH]; simpl; auto.
  destruct (row_leb ks x y); auto.
  rewrite IH. apply perm_swap.
Qed.

Lemma sort_rows_perm : forall ks l, Permutation (sort_rows ks l) l.
Proof.
  induction l as [|x r IH]; simpl; auto.
  rewrite insert_row_perm. now constructor.
Qed.

Lemma insert_row_sorted : forall ks x l,
  StronglySorted (fun a b => row_leb ks a b = true) l ->
  StronglySorted (fun a b => row_leb ks a b = true) (insert_row ks x l).
Proof.
  induction l as [|y r IH]; simpl; intros H.
  - repeat constructor.
  - inversion H as [|? ? Hr Hy]; subst.
    destruct (row_leb ks x y) eqn:E.
    + constructor; auto. constructor; auto.
      eapply Forall_impl; [|exact Hy]. intros z Hz. simpl in Hz.
      eapply row_leb_trans; eauto.
    + constructor; auto.
      apply (Permutation_Forall (Permutation_sym (insert_row_perm ks x r))).
      constructor; auto. now apply row_leb_total.
Qed.

Lemma sort_rows_sorted : forall ks l,
  StronglySorted (fun a b => row_leb ks a b = true) (sort_rows ks l).
Proof.
  induction l as [|x r IH]; simpl.
  - constructor.
  - now apply insert_row_sorted.
Qed.

Lemma StronglySorted_impl : forall (A : Type) (R S : A -> A -> Prop) (P : A -> Prop) l,
  (forall a b, P a -> P b -> R a b -> S a b) ->
  Forall P l -> StronglySorted R l -> StronglySorted S l.
Proof.
  intros A R S P l HRS. induction l as [|x r IH]; intros HP H.
  - constructor.
  - inversion H; subst. inversion HP; subst. constructor; auto.
    rewrite Forall_forall in *. intros y Hy. auto.
Qed.

End SortProperties.

(** ** Ranking *)

Section SearchProperties.
Context {C : Collaborators}.

Lemma run_pipeline_app : forall s1 s2 rows,
  run_pipeline (s1 ++ s2) rows =
  match run_pipeline s1 rows with
  | Some mid => run_pipeline s2 mid
  | None => None
  end.
Proof.
  induction s1 as [|s s1 IH]; intros s2 rows; simpl; auto.
  destruct (run_stage s rows); auto.
Qed.

Lemma leb_geo_before : forall a b da db,
  get_path ["distance"] (r_doc a) = Some (VNum da) ->
  get_path ["distance"] (r_doc b) = Some (VNum db) ->
  row_leb [ByField ["distance"] 1; ByField ["_id"] (-1)] a b = true ->
  geo_before a b.
Proof.
  intros a b da db Ha Hb H. exists da, db. repeat split; auto.
  unfold row_leb, compare_rows, compare_on in H. rewrite Ha, Hb in H.
  simpl in H. unfold key_compare at 1 in H. simpl in H.
  destruct (Z.compare_spec da db) as [E|E|E]; try discriminate; try lia.
  right. split; auto. apply key_compare_le. rewrite key_compare_sym.
  unfold id_key. simpl.
  destruct (key_compare _ _); simpl in *; congruence.
Qed.

Lemma leb_id_before : forall a b,
  row_leb [ByField ["_id"] (-1)] a b = true -> id_before a b.
Proof.
  intros a b H. unfold id_before. apply key_compare_le.
  unfold row_leb, compare_rows, compare_on in H. simpl in H.
  rewrite key_compare_sym. unfold id_key. simpl.
  destruct (key_compare _ _); simpl in *; congruence.
Qed.

Lemma leb_score_before : forall a b,
  row_leb [ByTextScore] a b = true -> score_before a b.
Proof.
  intros a b H. unfold score_before.
  unfold row_leb, compare_rows, compare_on in H.
  destruct (Z.compare_spec (r_score b) (r_score a)); try discriminate; lia.
Qed.

Lemma match_rows_text_score : forall f kw rows r,
  In r (match_rows f (Some kw) rows) ->
  matches f (r_doc r) = true /\ text_score kw (r_doc r) = Some (r_score r).
Proof.
  intros f kw rows r H. unfold match_rows in H.
  apply in_flat_map in H as [r0 [_ H]].
  destruct (matches f (r_doc r0)) eqn:Em; [|contradiction].
  destruct (text_score kw (r_doc r0)) eqn:Et; [|contradiction].
  destruct H as [<-|[]]. simpl. auto.
Qed.

Lemma match_rows_plain : forall f rows,
  match_rows f None rows = List.filter (fun r => matches f (r_doc r)) rows.
Proof.
  intros f rows. unfold match_rows.
  induction rows as [|r rows IH]; simpl; auto.
  destruct (matches f (r_doc r)); simpl; now rewrite IH.
Qed.

Lemma geoNear_candidates : forall c fs rows out,
  is_point c = true ->
  geoNear "distance" ["location"; "coordinates"] (Some c) (FAnd fs) rows
    = Some out ->
  forall r, In r out <-> geo_candidate c fs rows r.
Proof.
  intros c fs rows out Hc H r. unfold geoNear in H. rewrite Hc in H.
  apply (f_equal (fun o => match o with Some x => x | None => [] end)) in H.
  cbv beta iota in H. subst out.
  match goal with
  | |- In r (sort_rows ?ks ?l) <-> _ =>
      pose proof (sort_rows_perm ks l) as Hperm;
      assert (Hiff : In r (sort_rows ks l) <-> In r l)
        by (split; apply Permutation_in; auto using Permutation_sym)
  end.
  rewrite Hiff. clear Hiff Hperm.
  rewrite in_flat_map. unfold geo_candidate. split.
  - intros [r0 [Hin H]].
    destruct (matches (FAnd fs) (r_doc r0)) eqn:Em; [|contradiction].
    destruct (get_path ["location"; "coordinates"] (r_doc r0)) as [pt|] eqn:Ep;
      [|contradiction].
    destruct (is_point pt) eqn:Ei; [|contradiction].
    destruct (r_doc r0) as [| | | | |fs0] eqn:Ed; try contradiction.
    destruct H as [<-|[]].
    exists r0, fs0, pt. rewrite Ed. repeat split; auto.
  - intros [r0 [fs0 [pt [Hin [Hd [Hm [Hp [Hi ->]]]]]]]].
    exists r0. split; auto. rewrite Hm, Hp, Hi, Hd. now left.
Qed.

End SearchProperties.

(** ** Running handlers *)

Section Running.
Context {C : Collaborators}.

Lemma bind_Return : forall (A B : Type) (m : M A) (k : A -> M B) w b w',
  bind m k w = (Return b, w') ->
  exists a w1, m w = (Return a, w1) /\ k a w1 = (Return b, w').
Proof.
  unfold bind. intros A B m k w b w' H.
  destruct (m w) as [[a|e|] w1]; try discriminate. eauto.
Qed.

Lemma bind_run : forall (A B : Type) (m : M A) (k : A -> M B) w a w1,
  m w = (Return a, w1) -> bind m k w = k a w1.
Proof. unfold bind. intros A B m k w a w1 ->. reflexivity. Qed.

Lemma db_findById_run : forall c id w,
  db_findById c id w =
  (Return (if fails (FindById c id) then Failed
           else Done (findById (coll c w) id)),
   called (FindById c id) w).
Proof.
  intros c id w. unfold db_findById, bind, record_call.
  destruct (fails (FindById c id)); destruct c; reflexivity.
Qed.

Lemma db_save_run : forall id doc w,
  db_save id doc w =
  (Return (if fails (Save doc) then Failed else Done doc),
   if fails (Save doc) then called (Save doc) w
   else set_coll Users (store_doc id doc (users w)) (called (Save doc) w)).
Proof.
  intros id doc w. unfold db_save, bind, record_call.
  destruct (fails (Save doc)); reflexivity.
Qed.

Lemma db_aggregate_run : forall p w,
  db_aggregate p w =
  (Return (if fails (Aggregate p) then Failed
           else match aggregate (users w) p with
                | Some r => Done r
                | None => Failed
                end),
   called (Aggregate p) w).
Proof.
  intros p w. unfold db_aggregate, bind, record_call.
  destruct (fails (Aggregate p)); [reflexivity|].
  cbn [users called]. destruct (aggregate (users w) p); reflexivity.
Qed.

Lemma db_updateMany_run : forall c f sets afs w,
  db_updateMany c f sets afs w =
  (Return (if fails (UpdateMany c f sets afs) then Failed else Done tt),
   if fails (UpdateMany c f sets afs) then called (UpdateMany c f sets afs) w
   else set_coll c (updateMany f sets afs (coll c w))
          (called (UpdateMany c f sets afs) w)).
Proof.
  intros c f sets afs w. unfold db_updateMany, bind, record_call.
  destruct (fails (UpdateMany c f sets afs)); [reflexivity|].
  destruct c; reflexivity.
Qed.

Lemma log_failure_run : forall (A : Type) (r : attempt A) msg w,
  log_failure r msg w =
  (Return tt, match r with Failed => logged msg w | Done _ => w end).
Proof. intros A [|a] msg w; reflexivity. Qed.

Lemma member_Return : forall x k w v w',
  member x k w = (Return v, w') ->
  w' = w /\ exists o, x = Some o /\ o <> VNull /\ v = prop o k.
Proof.
  intros x k w v w' H. unfold member in H.
  destruct x as [o|]; [|discriminate].
  destruct o; try discriminate; injection H as <- <-;
    (split; [reflexivity|]); eexists; (split; [reflexivity|]);
    (split; [discriminate|reflexivity]).
Qed.

End Running.

(** ** The directory search and the single-profile read *)

Section Search.
Context {C : Collaborators}.

Lemma geo_candidate_distance : forall c fs rows r,
  geo_candidate c fs rows r ->
  exists d, get_path ["distance"] (r_doc r) = Some (VNum d).
Proof.
  intros c fs rows r [r0 [fs0 [pt [_ [_ [_ [_ [_ ->]]]]]]]].
  exists (distance c pt). simpl. now rewrite lookup_set_field_eq.
Qed.

(** C1. Exactly one of the three ranking plans is selected: the
    geo-proximity plan whenever the effective location is there (the
    candidates by ascending distance, equal distances by descending
    identity), otherwise the text-relevance plan when a keyword that is not
    empty is there (by descending text score), otherwise the default plan
    (by descending identity). *)
Theorem ranking_plan_selected :
  forall (location : option value) (keywords : option string)
         (fs : list filter) (rows : list row),
  let steps := sortAndFilterSteps location keywords fs in
  match selected_plan location keywords with
  | GeoPlan =>
      truthy location = true /\
      match anchor location with
      | Some c =>
          exists out,
            run_pipeline steps rows = Some out /\
            StronglySorted geo_before out /\
            (forall r, In r out <-> geo_candidate c fs rows r)
      | None => run_pipeline steps rows = None
      end
  | TextPlan =>
      truthy location = false /\
      exists kw out,
        keywords = Some kw /\ kw <> "" /\
        run_pipeline steps rows = Some out /\
        StronglySorted score_before out /\
        Permutation out (match_rows (FAnd fs) (Some kw) rows) /\
        Forall (fun r => text_score kw (r_doc r) = Some (r_score r)) out
  | DefaultPlan =>
      truthy location = false /\ truthy (str keywords) = false /\
      exists out,
        run_pipeline steps rows = Some out /\
        StronglySorted id_before out /\
        Permutation out
          (List.filter (fun r => matches (FAnd fs) (r_doc r)) rows)
  end.
Proof.
  intros location keywords fs rows steps. subst steps.
  unfold selected_plan, sortAndFilterSteps.
  destruct (truthy location) eqn:Hloc.
  - split; auto. unfold anchor, run_pipeline, run_stage.
    destruct location as [loc|]; [|discriminate].
    destruct (prop loc "coordinates") as [c|] eqn:Hc; [|reflexivity].
    destruct (is_point c) eqn:Hp.
    + destruct (geoNear "distance" ["location"; "coordinates"] (Some c)
                  (FAnd fs) rows) as [cands|] eqn:Hg.
      2:{ unfold geoNear in Hg. rewrite Hp in Hg. discriminate. }
      pose proof (geoNear_candidates c fs rows cands Hp Hg) as Hmem.
      set (ks := [ByField ["distance"] 1; ByField ["_id"] (-1)]).
      pose proof (sort_rows_perm ks cands) as Hperm.
      assert (Hin : forall r, In r (sort_rows ks cands) <-> In r cands)
        by (intros r; split; apply Permutation_in; auto using Permutation_sym).
      exists (sort_rows ks cands). split; [reflexivity|]. split.
      * apply (StronglySorted_impl row
                 (fun a b => row_leb ks a b = true) geo_before
                 (fun r => exists d,
                      get_path ["distance"] (r_doc r) = Some (VNum d))).
        -- intros a b [da Ha] [db Hb] H. eapply leb_geo_before; eauto.
        -- apply Forall_forall. intros r Hr. apply Hin, Hmem in Hr.
           eapply geo_candidate_distance; eauto.
        -- apply sort_rows_sorted.
      * intros r. rewrite Hin. apply Hmem.
    + unfold geoNear. now rewrite Hp.
  - destruct keywords as [kw|]; simpl.
    + destruct (kw =? "")%string eqn:Hkw; simpl.
      * split; auto. split; auto. eexists. split; [reflexivity|]. split.
        -- eapply StronglySorted_impl with (P := fun _ => True);
             [intros a b _ _; apply leb_id_before | | apply sort_rows_sorted].
           apply Forall_forall; auto.
        -- rewrite sort_rows_perm. now rewrite match_rows_plain.
      * split; auto. exists kw. eexists. split; auto.
        split; [now apply String.eqb_neq|]. split; [reflexivity|]. split.
        -- eapply StronglySorted_impl with (P := fun _ => True);
             [intros a b _ _; apply leb_score_before | | apply sort_rows_sorted].
           apply Forall_forall; auto.
        -- split; [apply sort_rows_perm|].
           apply Forall_forall. intros r Hr.
           apply (Permutation_in _ (sort_rows_perm _ _)) in Hr.
           now apply match_rows_text_score in Hr.
    + split; auto. split; auto. eexists. split; [reflexivity|]. split.
      * eapply StronglySorted_impl with (P := fun _ => True);
          [intros a b _ _; apply leb_id_before | | apply sort_rows_sorted].
        apply Forall_forall; auto.
      * rewrite sort_rows_perm. now rewrite match_rows_plain.
Qed.

Lemma get_users_returns : forall query userId w resp w',
  get_users query userId w = (Return resp, w') ->
  let user := requester w userId in
  let loc := search_location query user in
  let fs := search_filters query user in
  exists totals data,
    aggregate (users w) (totalResultsSteps loc (q_keywords query) fs)
      = Some totals /\
    aggregate (users w)
      (aggregationPipelineResults loc (q_keywords query) fs
         (q_limit query) (q_skip query)) = Some data /\
    resp = responseHandler (q_includeMeta query) totals data /\
    users w' = users w.
Proof.
  intros query userId w resp w' H. cbv zeta.
  unfold get_users in H.
  apply bind_Return in H as [user [w1 [Hu H]]].
  apply bind_Return in H as [ql [w2 [Hq H]]].
  apply bind_Return in H as [totals [w3 [Ht H]]].
  apply bind_Return in H as [r [w4 [Hr H]]].
  assert (Huser : user = requester w userId /\ users w1 = users w).
  { destruct userId as [id|]; simpl.
    - apply bind_Return in Hu as [a [w0 [Hf Hu]]].
      rewrite db_findById_run in Hf. injection Hf as <- <-.
      destruct (fails (FindById Users (Some id))).
      + apply bind_Return in Hu as [? [? [_ Hu]]]. discriminate.
      + cbn [coll findById] in Hu. destruct (find (has_id id) (users w)).
        * injection Hu as <- <-. auto.
        * apply bind_Return in Hu as [? [? [_ Hu]]]. discriminate.
    - injection Hu as <- <-. auto. }
  destruct Huser as [-> Hw1].
  apply member_Return in Hq as [-> [o [Ho [_ ->]]]]. injection Ho as <-.
  fold (query_location query) in *.
  fold (search_location query (requester w userId)) in *.
  fold (search_filters query (requester w userId)) in *.
  unfold await in Ht. apply bind_Return in Ht as [a [w0 [Ha Ht]]].
  rewrite db_aggregate_run in Ha. injection Ha as <- <-.
  rewrite db_aggregate_run in Hr. injection Hr as <- <-.
  rewrite Hw1 in *.
  match type of Ht with
  | context [fails ?c] => destruct (fails c); [discriminate|]
  end.
  match type of Ht with
  | context [aggregate ?u ?q] =>
      destruct (aggregate u q) as [ts|] eqn:Ets; [|discriminate]
  end.
  injection Ht as <- <-. cbn [users called] in H. rewrite Hw1 in H.
  match type of H with
  | context [fails ?c] => destruct (fails c)
  end.
  { apply bind_Return in H as [? [? [_ H]]]. discriminate. }
  match type of H with
  | context [aggregate ?u ?q] =>
      destruct (aggregate u q) as [ds|] eqn:Eds
  end.
  2:{ apply bind_Return in H as [? [? [_ H]]]. discriminate. }
  injection H as <- <-. exists ts, ds. repeat split; auto.
Qed.

Lemma get_users_succeeds : forall query userId w totals data,
  (forall c, fails c = false) ->
  (forall id, userId = Some id -> findById (users w) (Some id) <> None) ->
  q_filter query <> Some VNull ->
  let user := requester w userId in
  let loc := search_location query user in
  let fs := search_filters query user in
  aggregate (users w) (totalResultsSteps loc (q_keywords query) fs)
    = Some totals ->
  aggregate (users w)
    (aggregationPipelineResults loc (q_keywords query) fs
       (q_limit query) (q_skip query)) = Some data ->
  exists w',
    get_users query userId w =
    (Return (responseHandler (q_includeMeta query) totals data), w').
Proof.
  intros query userId w totals data Hok Hfound Hnull user loc fs Ht Hd.
  subst user loc fs.
  unfold search_filters, search_location, query_location, requester in *.
  unfold get_users.
  assert (Hm : forall w0,
             member (Some match q_filter query with
                          | Some v => v
                          | None => VObj []
                          end) "location" w0 =
             (Return (prop match q_filter query with
                           | Some v => v
                           | None => VObj []
                           end "location"), w0)).
  { intros w0. unfold member. destruct (q_filter query) as [v|]; auto.
    destruct v; auto. congruence. }
  destruct userId as [id|].
  - destruct (findById (users w) (Some id)) as [u|] eqn:Hu;
      [|exfalso; eapply Hfound; eauto].
    unfold bind at 1. unfold bind at 1. rewrite db_findById_run, Hok.
    cbn [coll]. rewrite Hu. cbv beta iota. unfold ret at 1. cbv beta iota.
    unfold bind at 1. rewrite Hm. cbv beta iota.
    unfold bind at 1. unfold await, bind at 1. rewrite db_aggregate_run, Hok.
    cbn [users called]. rewrite Ht. cbv beta iota. unfold ret at 1.
    cbv beta iota.
    unfold bind at 1. rewrite db_aggregate_run, Hok.
    cbn [users called]. rewrite Hd. cbv beta iota. unfold ret. eauto.
  - unfold bind at 1. unfold ret at 1. cbv beta iota.
    unfold bind at 1. rewrite Hm. cbv beta iota.
    unfold bind at 1. unfold await, bind at 1. rewrite db_aggregate_run, Hok.
    rewrite Ht. cbv beta iota. unfold ret at 1.
    cbv beta iota.
    unfold bind at 1. rewrite db_aggregate_run, Hok.
    cbn [users called]. rewrite Hd. cbv beta iota. unfold ret. eauto.
Qed.

Lemma pagination_run : forall limit skip rows,
  0 <= or_default skip 0 ->
  limit = Some (-1) \/ 0 < or_default limit USERS_PAGE_SIZE ->
  run_pipeline (paginationSteps limit skip) rows =
  Some (match limit with
        | Some (-1) => skipn (Z.to_nat (or_default skip 0)) rows
        | _ => firstn (Z.to_nat (or_default limit USERS_PAGE_SIZE))
                 (skipn (Z.to_nat (or_default skip 0)) rows)
        end).
Proof.
  intros limit skip rows Hs Hl.
  assert (Es : (or_default skip 0 <? 0) = false) by (apply Z.ltb_ge; lia).
  unfold paginationSteps.
  destruct limit as [[|l|[l|l|]]|]; cbn [run_pipeline run_stage];
    rewrite Es; try reflexivity;
    match goal with
    | |- context [?x <=? 0] =>
        assert (El : (x <=? 0) = false)
          by (apply Z.leb_gt; destruct Hl as [Hl|Hl]; [discriminate|exact Hl]);
        rewrite El; reflexivity
    end.
Qed.

Lemma projection_run : forall rows,
  run_pipeline projectionSteps rows = Some (map (on_doc directory_view) rows).
Proof.
  intros rows. unfold projectionSteps. cbn [run_pipeline run_stage].
  rewrite map_map. reflexivity.
Qed.

Lemma map_r_doc_on_doc : forall f rows,
  map r_doc (map (on_doc f) rows) = map f (map r_doc rows).
Proof. intros f rows. rewrite !map_map. reflexivity. Qed.

Lemma match_rows_docs : forall f text coll,
  map r_doc (match_rows f text (map (fun d => Row d 0) coll)) =
  List.filter
    (fun d => matches f d &&
              match text with
              | Some kw =>
                  match text_score kw d with Some _ => true | None => false end
              | None => true
              end) coll.
Proof.
  intros f text coll. unfold match_rows.
  induction coll as [|d coll IH]; simpl; auto.
  destruct (matches f d); simpl; auto.
  destruct text as [kw|]; simpl.
  - destruct (text_score kw d); simpl; now rewrite IH.
  - now rewrite IH.
Qed.

Lemma group_count_run : forall rows,
  map r_doc match rows with
            | [] => []
            | _ => [Row (VObj [("_id", VNull);
                               ("count", VNum (Z.of_nat (List.length rows)))]) 0]
            end =
  match map r_doc rows with
  | [] => []
  | l => [VObj [("_id", VNull); ("count", VNum (Z.of_nat (List.length l)))]]
  end.
Proof.
  intros [|r rows]; simpl; auto. now rewrite length_map.
Qed.

Lemma total_steps_run : forall coll loc kw fs,
  aggregate coll (totalResultsSteps loc kw fs) =
  Some match List.filter (counted loc kw fs) coll with
       | [] => []
       | l => [VObj [("_id", VNull);
                     ("count", VNum (Z.of_nat (List.length l)))]]
       end.
Proof.
  intros coll loc kw fs. unfold aggregate, totalResultsSteps.
  destruct (truthy (str kw) && negb (truthy loc)) eqn:E;
    cbn [run_pipeline run_stage].
  - match goal with
    | |- context [match ?rows with [] => Some [] | _ :: _ => _ end] =>
        replace (match rows with
                 | [] => Some []
                 | _ :: _ =>
                     Some [Row (VObj [("_id", VNull);
                                      ("count",
                                       VNum (Z.of_nat (List.length rows)))]) 0]
                 end)
          with (Some match rows with
                     | [] => []
                     | _ => [Row (VObj [("_id", VNull);
                                        ("count",
                                         VNum (Z.of_nat (List.length rows)))])
                                 0]
                     end) by (destruct rows; reflexivity)
    end.
    rewrite group_count_run, match_rows_docs. f_equal.
    destruct kw as [k|]; [|discriminate].
    erewrite filter_ext; [reflexivity|]. intros d. unfold counted.
    now rewrite E.
  - match goal with
    | |- context [match ?rows with [] => Some [] | _ :: _ => _ end] =>
        replace (match rows with
                 | [] => Some []
                 | _ :: _ =>
                     Some [Row (VObj [("_id", VNull);
                                      ("count",
                                       VNum (Z.of_nat (List.length rows)))]) 0]
                 end)
          with (Some match rows with
                     | [] => []
                     | _ => [Row (VObj [("_id", VNull);
                                        ("count",
                                         VNum (Z.of_nat (List.length rows)))])
                                 0]
                     end) by (destruct rows; reflexivity)
    end.
    rewrite group_count_run, match_rows_docs. f_equal.
    erewrite filter_ext; [reflexivity|]. intros d. unfold counted.
    rewrite E. now destruct kw.
Qed.

Lemma response_data_handler : forall meta totals data,
  response_data (responseHandler meta totals data) = data.
Proof. intros [|] totals data; reflexivity. Qed.

(** C4, amended. With a skip [s] that is not negative and a limit [l]
    that is positive, the list returned is the ordered result set at the
    positions from [s] up to [s + l], and with the limit [-1] everything
    from position [s]; the skip defaults to 0, and a limit that is absent
    or 0 to the page size 10. *)
Theorem search_page_window :
  forall (query : users_query) (userId : option value) (w : World)
         (ordered page : list value) (s : Z),
  let user := requester w userId in
  let loc := search_location query user in
  let fs := search_filters query user in
  aggregate (users w) (sortAndFilterSteps loc (q_keywords query) fs)
    = Some ordered ->
  q_skip query = Some s \/ (q_skip query = None /\ s = 0) ->
  0 <= s ->
  (q_limit query = Some (-1) /\ page = skipn (Z.to_nat s) ordered) \/
  (exists l, q_limit query = Some l /\ 0 < l /\
             page = firstn (Z.to_nat l) (skipn (Z.to_nat s) ordered)) \/
  ((q_limit query = None \/ q_limit query = Some 0) /\
   page = firstn 10 (skipn (Z.to_nat s) ordered)) ->
  aggregate (users w)
    (aggregationPipelineResults loc (q_keywords query) fs
       (q_limit query) (q_skip query)) = Some (map directory_view page) /\
  (forall resp w',
     get_users query userId w = (Return resp, w') ->
     response_data resp = map directory_view page) /\
  ((forall c, fails c = false) ->
   (forall id, userId = Some id -> findById (users w) (Some id) <> None) ->
   q_filter query <> Some VNull ->
   exists resp w',
     get_users query userId w = (Return resp, w') /\
     response_data resp = map directory_view page).
Proof.
  intros query userId w ordered page s user loc fs Hord Hskip Hs Hpage.
  assert (Es : or_default (q_skip query) 0 = s).
  { destruct Hskip as [->|[-> ->]]; simpl; auto.
    destruct (s =? 0) eqn:E; simpl; auto. apply Z.eqb_eq in E. auto. }
  assert (Hagg : aggregate (users w)
            (aggregationPipelineResults loc (q_keywords query) fs
               (q_limit query) (q_skip query)) = Some (map directory_view page)).
  { unfold aggregate in *. unfold aggregationPipelineResults.
    rewrite run_pipeline_app.
    destruct (run_pipeline (sortAndFilterSteps loc (q_keywords query) fs)
                (map (fun d => Row d 0) (users w))) as [rs|]; [|discriminate].
    injection Hord as <-.
    rewrite run_pipeline_app, pagination_run.
    - rewrite projection_run, map_r_doc_on_doc, Es. f_equal. f_equal.
      destruct Hpage as [[-> ->]|[[l [-> [Hl ->]]]|[[->| ->] ->]]].
      + now rewrite skipn_map.
      + destruct l as [|l|l]; try lia.
        assert (E : or_default (Some (Z.pos l)) USERS_PAGE_SIZE = Z.pos l)
          by reflexivity.
        rewrite E. now rewrite skipn_map, firstn_map.
      + now rewrite skipn_map, firstn_map.
      + now rewrite skipn_map, firstn_map.
    - lia.
    - destruct Hpage as [[-> _]|[[l [-> [Hl _]]]|[[->| ->] _]]]; auto;
        right; try reflexivity.
      destruct l; try lia; reflexivity. }
  split; [exact Hagg|]. split.
  - intros resp w' H. apply get_users_returns in H.
    destruct H as [totals [data [_ [Hd [-> _]]]]].
    fold user loc fs in Hd. rewrite Hagg in Hd. injection Hd as <-.
    apply response_data_handler.
  - intros Hok Hfound Hnull.
    destruct (get_users_succeeds query userId w _ _ Hok Hfound Hnull
                (total_steps_run _ _ _ _) Hagg) as [w' H].
    eexists. exists w'. split; [exact H|]. apply response_data_handler.
Qed.

(** *** What the projection shows *)

Lemma lookup_app : forall k l1 l2,
  lookup k (l1 ++ l2) =
  match lookup k l1 with
  | Some v => Some v
  | None => lookup k l2
  end.
Proof.
  intros k l1 l2. induction l1 as [|[k' x] r IH]; simpl; auto.
  destruct (k' =? k)%string; auto.
Qed.

Lemma lookup_project_item_ne : forall d it k,
  (item_key it =? k)%string = false -> lookup k (project_item d it) = None.
Proof.
  intros d [p|field e] k H; simpl in *.
  - destruct p as [|k0 p']; simpl; auto.
    destruct (prop d k0); simpl; auto.
    destruct p'; simpl; now rewrite H.
  - destruct (eval e d); simpl; auto. now rewrite H.
Qed.

Lemma lookup_project : forall d items k,
  lookup k (flat_map (project_item d) items) =
  lookup k (flat_map (project_item d)
              (List.filter (fun it => (item_key it =? k)%string) items)).
Proof.
  intros d items k. induction items as [|it items IH]; simpl; auto.
  rewrite lookup_app. destruct (item_key it =? k)%string eqn:E; simpl.
  - rewrite lookup_app. now rewrite IH.
  - now rewrite lookup_project_item_ne.
Qed.

Lemma prop_unset_path_ne : forall k p fs k',
  (k =? k')%string = false ->
  prop (unset_path (k :: p) (VObj fs)) k' = lookup k' fs.
Proof.
  intros k p fs k' H. simpl. induction fs as [|[k0 x] r IH]; simpl; auto.
  destruct (k0 =? k)%string eqn:E.
  - apply String.eqb_eq in E. subst k0. rewrite H.
    destruct p; simpl; auto. now rewrite H.
  - simpl. now rewrite IH.
Qed.

Lemma prop_unset_path_eq : forall k k1 p fs,
  prop (unset_path (k :: k1 :: p) (VObj fs)) k =
  option_map (unset_path (k1 :: p)) (lookup k fs).
Proof.
  intros k k1 p fs. simpl. induction fs as [|[k0 x] r IH]; simpl; auto.
  destruct (k0 =? k)%string eqn:E; simpl; rewrite E; auto.
Qed.

Lemma prop_unset_last : forall k v, prop (unset_path [k] v) k = None.
Proof.
  intros k v. destruct v; simpl; auto.
  induction fields as [|[k0 x] r IH]; simpl; auto.
  destruct (k0 =? k)%string eqn:E; simpl; auto. now rewrite E.
Qed.

Lemma view_coordinates : forall d,
  get_path ["location"; "coordinates"] (directory_view d) = None.
Proof.
  intros d. unfold directory_view, project. cbn [get_path].
  rewrite prop_unset_path_eq.
  destruct (lookup "location" _) as [x|]; simpl; auto.
  pose proof (prop_unset_last "coordinates" x) as H. simpl in H.
  now rewrite H.
Qed.

Lemma view_location : forall d,
  prop (directory_view d) "location" =
  option_map (unset_path ["coordinates"])
    (if cond_true (get_path ["hide"; "address"] d) then Some VNull
     else get_path ["location"] d).
Proof.
  intros d. unfold directory_view, project.
  rewrite prop_unset_path_eq, lookup_project.
  replace (List.filter (fun it => (item_key it =? "location")%string)
             profile_projection)
    with [PCompute "location"
            (ECond (EField ["hide"; "address"]) (ELit VNull)
                   (EField ["location"]))] by reflexivity.
  unfold flat_map, project_item. cbn [eval].
  destruct (cond_true (get_path ["hide"; "address"] d)); [reflexivity|].
  destruct (get_path ["location"] d); reflexivity.
Qed.

Lemma view_hidden : forall d,
  cond_true (get_path ["hide"; "address"] d) = true ->
  prop (directory_view d) "location" = Some VNull.
Proof. intros d H. rewrite view_location, H. reflexivity. Qed.

Lemma view_id : forall d, prop (directory_view d) "_id" = prop d "_id".
Proof.
  intros d. unfold directory_view, project.
  rewrite prop_unset_path_ne by reflexivity. rewrite lookup_project. simpl.
  destruct (prop d "_id"); reflexivity.
Qed.

(** *** Where the rows of a result come from *)

Lemma In_firstn : forall (A : Type) n (l : list A) x, In x (firstn n l) -> In x l.
Proof.
  intros A n. induction n as [|n IH]; intros [|y l] x; simpl; try tauto.
  intros [->|H]; auto.
Qed.

Lemma In_skipn : forall (A : Type) n (l : list A) x, In x (skipn n l) -> In x l.
Proof.
  intros A n. induction n as [|n IH]; intros [|y l] x; simpl; try tauto.
  intros H. right. now apply IH.
Qed.

Lemma In_sort_rows : forall ks l r, In r (sort_rows ks l) <-> In r l.
Proof.
  intros ks l r.
  split; apply Permutation_in; auto using Permutation_sym, sort_rows_perm.
Qed.

Lemma match_rows_from : forall fs text rows r,
  In r (match_rows (FAnd fs) text rows) -> row_of fs rows r.
Proof.
  intros fs text rows r H. unfold match_rows in H.
  apply in_flat_map in H as [r0 [Hin H]].
  destruct (matches (FAnd fs) (r_doc r0)) eqn:Em; [|contradiction].
  exists r0. split; auto. split; auto. left.
  destruct text as [kw|].
  - destruct (text_score kw (r_doc r0)); [|contradiction].
    destruct H as [<-|[]]. reflexivity.
  - destruct H as [<-|[]]. reflexivity.
Qed.

Lemma geoNear_from : forall near fs rows out r,
  geoNear "distance" ["location"; "coordinates"] near (FAnd fs) rows = Some out ->
  In r out -> row_of fs rows r.
Proof.
  intros near fs rows out r H Hin. unfold geoNear in H.
  destruct near as [c|]; [|discriminate].
  destruct (is_point c) eqn:Hc; [|discriminate].
  assert (Hcand : geo_candidate c fs rows r).
  { eapply geoNear_candidates; eauto. unfold geoNear. rewrite Hc. exact H. }
  destruct Hcand as [r0 [fs0 [pt [Hr0 [Hd [Hm [_ [_ ->]]]]]]]].
  exists r0. split; auto. split; auto. right.
  exists fs0, (VNum (distance c pt)). auto.
Qed.

Lemma ranked_from : forall loc kw fs rows out r,
  run_pipeline (sortAndFilterSteps loc kw fs) rows = Some out ->
  In r out -> row_of fs rows r.
Proof.
  intros loc kw fs rows out r H Hin. unfold sortAndFilterSteps in H.
  destruct (truthy loc).
  - cbn [run_pipeline run_stage] in H.
    destruct (geoNear _ _ _ _ rows) as [cands|] eqn:Hg; [|discriminate].
    injection H as <-. apply In_sort_rows in Hin.
    eapply geoNear_from; eauto.
  - destruct (truthy (str kw)); cbn [run_pipeline run_stage] in H;
      injection H as <-; apply In_sort_rows in Hin;
      eapply match_rows_from; eauto.
Qed.

Lemma pagination_from : forall limit skip rows out r,
  run_pipeline (paginationSteps limit skip) rows = Some out ->
  In r out -> In r rows.
Proof.
  intros limit skip rows out r H Hin. unfold paginationSteps in H.
  assert (Hs : forall rs,
             run_pipeline [SSkip (or_default skip 0)] rows = Some rs ->
             In r rs -> In r rows).
  { intros rs Hr Hi. cbn [run_pipeline run_stage] in Hr.
    destruct (or_default skip 0 <? 0); [discriminate|].
    injection Hr as <-. eapply In_skipn; eauto. }
  assert (Hl : forall rs,
             run_pipeline [SSkip (or_default skip 0);
                           SLimit (or_default limit USERS_PAGE_SIZE)] rows
               = Some rs ->
             In r rs -> In r rows).
  { intros rs Hr Hi. cbn [run_pipeline run_stage] in Hr.
    destruct (or_default skip 0 <? 0); [discriminate|].
    destruct (or_default limit USERS_PAGE_SIZE <=? 0); [discriminate|].
    injection Hr as <-. eapply In_skipn, In_firstn; eauto. }
  destruct limit as [[|l|[l|l|]]|]; eauto.
Qed.

(** Every profile of a result is the view of a stored profile that
    satisfies the filters. *)
Lemma search_results_from : forall coll loc kw fs limit skip data x,
  aggregate coll (aggregationPipelineResults loc kw fs limit skip) = Some data ->
  In x data ->
  exists d0 d,
    In d0 coll /\ matches (FAnd fs) d0 = true /\
    (d = d0 \/
     exists fs0 v, d0 = VObj fs0 /\ d = VObj (set_field "distance" v fs0)) /\
    x = directory_view d.
Proof.
  intros coll loc kw fs limit skip data x H Hin.
  unfold aggregate, aggregationPipelineResults in H.
  rewrite run_pipeline_app in H.
  destruct (run_pipeline (sortAndFilterSteps loc kw fs) _) as [ranked|] eqn:Hr;
    [|discriminate].
  rewrite run_pipeline_app in H.
  destruct (run_pipeline (paginationSteps limit skip) ranked) as [pg|] eqn:Hp;
    [|discriminate].
  rewrite projection_run in H. injection H as <-.
  rewrite map_r_doc_on_doc in Hin.
  apply in_map_iff in Hin as [d [<- Hin]].
  apply in_map_iff in Hin as [r [<- Hin]].
  eapply pagination_from in Hin; eauto.
  eapply ranked_from in Hin; eauto.
  destruct Hin as [r0 [Hr0 [Hm Hd]]].
  apply in_map_iff in Hr0 as [d0 [<- Hd0]]. simpl in *.
  exists d0, (r_doc r). repeat split; auto.
Qed.

(** *** The single-profile read *)

Lemma await_findById_Return : forall c id w found w',
  await (db_findById c id) w = (Return found, w') ->
  fails (FindById c id) = false /\
  found = findById (coll c w) id /\ w' = called (FindById c id) w.
Proof.
  intros c id w found w' H. unfold await in H.
  apply bind_Return in H as [a [w1 [Ha H]]].
  rewrite db_findById_run in Ha. injection Ha as <- <-.
  destruct (fails (FindById c id)); [discriminate|].
  injection H as <- <-. auto.
Qed.

Lemma get_user_by_id_returns : forall userId authUserId w resp w',
  get_user_by_id userId authUserId w = (Return resp, w') ->
  exists user location0 hide,
    findById (users w) (Some userId) = Some user /\
    prop user "location" = Some location0 /\
    prop user "hide" = Some hide /\
    prop resp "location" =
    Some (if truthy (prop hide "address") then VObj []
          else delete_prop location0 "coordinates").
Proof.
  intros userId authUserId w resp w' H. unfold get_user_by_id in H.
  apply bind_Return in H as [found [w1 [Hf H]]].
  apply await_findById_Return in Hf as [_ [-> ->]]. cbn [coll] in H.
  destruct (findById (users w) (Some userId)) as [user|]; [|discriminate].
  destruct (prop user "location") as [location0|] eqn:Hl; [|discriminate].
  assert (Hgo : forall l0, l0 = location0 ->
    (hide_address <- member (prop user "hide") "address";;
     ret (object
            [("about", prop user "about");
             ("firstName", prop user "firstName");
             ("id", prop user "_id");
             ("lastName", prop user "lastName");
             ("location",
              Some (if truthy hide_address then VObj []
                    else delete_prop l0 "coordinates"));
             ("needs", prop user "needs");
             ("organisations", prop user "organisations");
             ("objectives", prop user "objectives");
             ("ownUser",
              Some (VBool match authUserId with
                          | Some a => has_id a user
                          | None => false
                          end));
             ("photo", prop user "photo");
             ("urls", prop user "urls");
             ("usesPassword",
              if match authUserId with
                 | Some a => has_id a user
                 | None => false
                 end
              then prop user "usesPassword" else None)]))
      (called (FindById Users (Some userId)) w) = (Return resp, w') ->
    exists hide,
      prop user "hide" = Some hide /\
      prop resp "location" =
      Some (if truthy (prop hide "address") then VObj []
            else delete_prop l0 "coordinates")).
  { intros l0 _ G. apply bind_Return in G as [ha [w2 [Hm G]]].
    apply member_Return in Hm as [-> [hide [Hh [_ ->]]]].
    injection G as <- <-. exists hide. split; auto.
    unfold object. cbn [flat_map snd fst].
    destruct (prop user "about"), (prop user "firstName"),
      (prop user "_id"), (prop user "lastName"); reflexivity. }
  destruct location0; try discriminate;
    (destruct (Hgo _ eq_refl H) as [hide [Hh Hr]];
     eexists; eexists; exists hide; repeat split; eauto).
Qed.

Lemma prop_delete_prop : forall x k, prop (delete_prop x k) k = None.
Proof.
  intros [| | | | |fs] k; simpl; auto. apply lookup_remove_field_eq.
Qed.

(** C3. Every profile a directory search returns has no coordinates in
    its location and a null location when the stored profile hides its
    address; the location a single-profile read returns has no coordinates
    either, whatever the hide flag and whoever the viewer. *)
Theorem coordinates_never_returned :
  (forall query userId w resp w' x,
     get_users query userId w = (Return resp, w') ->
     In x (response_data resp) ->
     get_path ["location"; "coordinates"] x = None /\
     exists d0,
       In d0 (users w) /\ prop x "_id" = prop d0 "_id" /\
       (get_path ["hide"; "address"] d0 = Some (VBool true) ->
        prop x "location" = Some VNull)) /\
  (forall userId authUserId w resp w',
     get_user_by_id userId authUserId w = (Return resp, w') ->
     exists loc,
       prop resp "location" = Some loc /\ prop loc "coordinates" = None).
Proof.
  split.
  - intros query userId w resp w' x H Hin.
    apply get_users_returns in H as [totals [data [_ [Hd [-> _]]]]].
    rewrite response_data_handler in Hin.
    destruct (search_results_from _ _ _ _ _ _ _ _ Hd Hin)
      as [d0 [d [Hd0 [_ [Hdd ->]]]]].
    split; [apply view_coordinates|].
    exists d0. split; auto. rewrite view_id.
    destruct Hdd as [->|[fs0 [v [-> ->]]]].
    + split; auto. intros Hh. apply view_hidden. now rewrite Hh.
    + split.
      * simpl. now rewrite lookup_set_field_ne by discriminate.
      * intros Hh. apply view_hidden. simpl in *.
        rewrite lookup_set_field_ne by discriminate. now rewrite Hh.
  - intros userId authUserId w resp w' H.
    apply get_user_by_id_returns in H
      as [user [location0 [hide [_ [_ [_ Hr]]]]]].
    eexists. split; [exact Hr|].
    destruct (truthy (prop hide "address")); [reflexivity|].
    apply prop_delete_prop.
Qed.

(** *** The filter set *)

Lemma hidden_never_matches : forall d,
  get_path ["hide"; "address"] d = Some (VBool true) ->
  matches (FEq ["hide"; "address"] (VBool false)) d = false.
Proof.
  intros d H. cbn [matches]. now rewrite (get_path_values _ _ _ H).
Qed.

Lemma matches_FAnd_In : forall fs f d,
  matches (FAnd fs) d = true -> In f fs -> matches f d = true.
Proof.
  intros fs f d H Hin. cbn [matches] in H.
  rewrite forallb_forall in H. auto.
Qed.

(** C2. The filter set holds the predicate that the hidden-address flag is
    false exactly when the query filters carry a location; with the
    requester's own location, or in a keyword or a default search, the
    predicate is not there. Where it is there, no result is a profile that
    hides its address. *)
Theorem hidden_address_filter :
  forall (queryFilters_location : option value)
         (objective : option objective_kind) (user : option value)
         (ignoreUserLocation : bool) (keywords : option string),
  let loc := location queryFilters_location user ignoreUserLocation in
  let fs := filters queryFilters_location objective loc keywords in
  (In (FEq ["hide"; "address"] (VBool false)) fs <->
   truthy queryFilters_location = true) /\
  (truthy queryFilters_location = true ->
   forall d, get_path ["hide"; "address"] d = Some (VBool true) ->
             matches (FAnd fs) d = false) /\
  (truthy queryFilters_location = false ->
   fs = filters None objective loc keywords).
Proof.
  intros ql objective user ignore keywords loc fs. subst fs.
  unfold filters. split; [|split].
  - destruct (truthy ql) eqn:Hq.
    + split; auto. intros _. right. now left.
    + split; [|discriminate]. intros H. exfalso.
      destruct H as [H|H]; [discriminate|].
      simpl in H. apply in_app_or in H as [H|H].
      * destruct objective as [[|]|]; simpl in H;
          try destruct H as [H|[]]; try discriminate; contradiction.
      * destruct (truthy loc && truthy (str keywords)); simpl in H;
          try destruct H as [H|[]]; try discriminate; contradiction.
  - intros Hq d Hd. rewrite Hq.
    destruct (matches (FAnd _) d) eqn:E; auto.
    eapply matches_FAnd_In with (f := FEq ["hide"; "address"] (VBool false))
      in E; [|right; now left].
    now rewrite (hidden_never_matches d Hd) in E.
  - intros Hq. rewrite Hq. reflexivity.
Qed.

(** Seen from the handler: with a location in the query filters, every
    profile of the response is stored with a hidden-address flag that is
    false. *)
Lemma override_results_not_hidden : forall query userId w resp w' x,
  get_users query userId w = (Return resp, w') ->
  truthy (query_location query) = true ->
  In x (response_data resp) ->
  exists d0,
    In d0 (users w) /\ prop x "_id" = prop d0 "_id" /\
    matches (FEq ["hide"; "address"] (VBool false)) d0 = true.
Proof.
  intros query userId w resp w' x H Hq Hin.
  apply get_users_returns in H as [totals [data [_ [Hd [-> _]]]]].
  rewrite response_data_handler in Hin.
  destruct (search_results_from _ _ _ _ _ _ _ _ Hd Hin)
    as [d0 [d [Hd0 [Hm [Hdd ->]]]]].
  exists d0. split; auto. split.
  - rewrite view_id. destruct Hdd as [->|[fs0 [v [-> ->]]]]; auto.
    simpl. now rewrite lookup_set_field_ne by discriminate.
  - eapply matches_FAnd_In; eauto. unfold search_filters, filters.
    rewrite Hq. right. now left.
Qed.

(** *** The total *)

(** C5, amended. With [includeMeta], the response is
    [{ meta: { total }, data }], where [total] is the number of stored
    profiles that satisfy the filter set and, in a keyword search without
    a location, the text search as well; it does not depend on the skip and
    the limit, and it is 0, without an error, when no profile is counted. *)
Theorem total_counts_matches :
  forall (query : users_query) (limit skip : option Z)
         (userId : option value) (w : World),
  let user := requester w userId in
  let loc := search_location query user in
  let fs := search_filters query user in
  let total :=
    Z.of_nat (List.length
                (List.filter (counted loc (q_keywords query) fs) (users w))) in
  q_includeMeta query = true ->
  (exists groups,
     aggregate (users w) (totalResultsSteps loc (q_keywords query) fs)
       = Some groups /\
     (total = 0 -> groups = [])) /\
  (forall resp w',
     get_users (paged query limit skip) userId w = (Return resp, w') ->
     exists data,
       resp = VObj [("meta", VObj [("total", VNum total)]);
                    ("data", VArr data)]).
Proof.
  intros query limit skip userId w user loc fs total Hmeta. split.
  - eexists. split; [apply total_steps_run|].
    subst total. intros H.
    destruct (List.filter _ (users w)); auto. simpl in H. lia.
  - intros resp w' H.
    apply get_users_returns in H as [totals [data [Ht [_ [-> _]]]]].
    exists data. cbn [paged q_includeMeta q_keywords] in *.
    change (search_location (paged query limit skip)) with
      (search_location query) in Ht.
    change (search_filters (paged query limit skip)) with
      (search_filters query) in Ht.
    fold user loc fs in Ht. rewrite total_steps_run in Ht.
    injection Ht as <-. rewrite Hmeta. unfold responseHandler. simpl negb.
    cbv iota. subst total.
    destruct (List.filter _ (users w)); reflexivity.
Qed.

End Search.

(** ** The propagation of a profile update *)

Section Propagation.
Context {C : Collaborators}.

(** *** The fan-out *)

Ltac run_fan_out :=
  unfold update_author_refs, update_participants;
  unfold bind at 1; rewrite db_updateMany_run; cbv beta iota;
  unfold bind at 1; rewrite log_failure_run; cbv beta iota;
  unfold bind at 1; rewrite db_updateMany_run; cbv beta iota;
  unfold bind at 1; rewrite log_failure_run; cbv beta iota;
  unfold bind at 1; rewrite db_updateMany_run; cbv beta iota.

Lemma propagation_run : forall id ops sets m1 m2 m3 w,
  let c1 := author_refs_call Posts id ops in
  let c2 := author_refs_call Comments id ops in
  let c3 := participants_call id sets in
  exists w',
    propagation id ops sets m1 m2 m3 w = (Return tt, w') /\
    (forall (A : Type) (k : M A),
       (postErr <- update_author_refs Posts id ops;;
        log_failure postErr m1;;
        commentErr <- update_author_refs Comments id ops;;
        log_failure commentErr m2;;
        threadErr <- update_participants id sets;;
        log_failure threadErr m3;;
        k) w = k w') /\
    users w' = users w /\
    posts w' = updated c1 (posts w) /\
    comments w' = updated c2 (comments w) /\
    threads w' = updated c3 (threads w) /\
    trace w' = trace w ++ [c1; c2; c3] /\
    log w' = log w ++ failure_lines c1 c2 c3 m1 m2 m3.
Proof.
  intros id ops sets m1 m2 m3 w c1 c2 c3.
  unfold propagation. run_fan_out. rewrite log_failure_run.
  eexists. split; [reflexivity|]. split.
  { intros A k. run_fan_out.
    unfold bind at 1. rewrite log_failure_run. reflexivity. }
  fold (author_refs_call Posts id ops) (author_refs_call Comments id ops)
       (participants_call id sets).
  fold c1 c2 c3.
  unfold failure_lines, updated. subst c1 c2 c3.
  unfold author_refs_call, participants_call.
  match goal with
  | |- context [fails ?a] => destruct (fails a)
  end;
  match goal with
  | |- context [fails ?a] => destruct (fails a)
  end;
  match goal with
  | |- context [fails ?a] => destruct (fails a)
  end; cbn; rewrite ?app_nil_r, <- ?app_assoc; cbn; repeat split; reflexivity.
Qed.

Lemma patch_current_run : forall userId body w user,
  fails (FindById Users (Some userId)) = false ->
  findById (users w) (Some userId) = Some user ->
  let updatedUser := VObj (assign (fields_of user) body) in
  fails (Save updatedUser) = false ->
  let id := prop updatedUser "_id" in
  let c1 := author_refs_call Posts id (patch_updateOps body updatedUser) in
  let c2 := author_refs_call Comments id (patch_updateOps body updatedUser) in
  let c3 := participants_call id [("name", display_name updatedUser);
                                  ("photo", prop updatedUser "photo")] in
  exists w',
    patch_current userId body w = (Return updatedUser, w') /\
    users w' = store_doc userId updatedUser (users w) /\
    posts w' = (if triggers body then updated c1 (posts w) else posts w) /\
    comments w' =
      (if triggers body then updated c2 (comments w) else comments w) /\
    threads w' = (if triggers body then updated c3 (threads w) else threads w) /\
    trace w' =
      trace w ++ [FindById Users (Some userId); Save updatedUser]
              ++ (if triggers body then [c1; c2; c3] else []) /\
    log w' =
      log w ++ (if triggers body
                then failure_lines c1 c2 c3
                       "Failed updating author refs at posts"
                       "Failed updating author refs at comments"
                       "Failed updating author refs at threads"
                else []).
Proof.
  intros userId body w user Hf Hu updatedUser Hs id c1 c2 c3.
  unfold patch_current.
  unfold bind at 1. rewrite db_findById_run, Hf. cbn [coll]. rewrite Hu.
  cbv beta iota.
  unfold bind at 1. rewrite db_save_run. fold updatedUser. rewrite Hs.
  cbv beta iota. unfold triggers.
  destruct (truthy (lookup "firstName" body) || truthy (lookup "lastName" body)
            || truthy (lookup "photo" body)).
  - match goal with
    | |- context [bind _ _ ?W] =>
        destruct (propagation_run id (patch_updateOps body updatedUser)
                    [("name", display_name updatedUser);
                     ("photo", prop updatedUser "photo")]
                    "Failed updating author refs at posts"
                    "Failed updating author refs at comments"
                    "Failed updating author refs at threads" W)
          as [w' [Hrun [_ [Hus [Hp [Hc [Ht [Htr Hl]]]]]]]]
    end.
    exists w'. split.
    + erewrite bind_run; [reflexivity|exact Hrun].
    + rewrite Hus, Hp, Hc, Ht, Htr, Hl. cbn.
      rewrite <- ?app_assoc. repeat split; reflexivity.
  - eexists. split; [reflexivity|]. cbn.
    rewrite ?app_nil_r, <- ?app_assoc. repeat split; reflexivity.
Qed.

Lemma updateUserAvatar_run : forall userId file w user photo,
  fails (FindById Users (Some userId)) = false ->
  findById (users w) (Some userId) = Some user ->
  avatar_photo userId file = Some photo ->
  let updatedUser := VObj (set_field "photo" photo (fields_of user)) in
  fails (Save updatedUser) = false ->
  let id := prop updatedUser "_id" in
  let ops := [([UKey "author"; UKey "photo"], Some photo)] in
  let c1 := author_refs_call Posts id ops in
  let c2 := author_refs_call Comments id ops in
  let c3 := participants_call id [("photo", Some photo)] in
  exists w',
    updateUserAvatar userId file w =
      (Return (VObj [("updatedUser", updatedUser)]), w') /\
    users w' = store_doc userId updatedUser (users w) /\
    posts w' = updated c1 (posts w) /\
    comments w' = updated c2 (comments w) /\
    threads w' = updated c3 (threads w) /\
    trace w' =
      trace w ++ [FindById Users (Some userId)] ++ upload_calls userId file
              ++ [Save updatedUser; c1; c2; c3] /\
    log w' =
      log w ++ failure_lines c1 c2 c3
                 "Failed updating author photo refs at posts"
                 "Failed updating author photo refs at comments"
                 "Failed updating author photo at threads".
Proof.
  intros userId file w user photo Hf Hu Hph updatedUser Hs id ops c1 c2 c3.
  assert (Hphoto : prop updatedUser "photo" = Some photo)
    by (apply lookup_set_field_eq).
  unfold updateUserAvatar.
  unfold bind at 1. rewrite db_findById_run, Hf. cbn [coll]. rewrite Hu.
  cbv beta iota.
  assert (Hup : forall w0,
             (if truthy file
              then record_call (Upload userId (to_bson file));;
                   ret (uploadUserAvatar userId (to_bson file))
              else ret (Some VNull)) w0 =
             (Return (Some photo),
              mkWorld (users w0) (posts w0) (comments w0) (threads w0)
                      (log w0) (trace w0 ++ upload_calls userId file))).
  { intros w0. unfold avatar_photo, upload_calls in *.
    destruct (truthy file).
    - unfold bind, record_call, ret, called. now rewrite Hph.
    - injection Hph as <-. unfold ret. rewrite app_nil_r. now destruct w0. }
  unfold bind at 1. rewrite Hup. cbv beta iota.
  unfold bind at 1. rewrite db_save_run. fold updatedUser. rewrite Hs.
  cbv beta iota. rewrite Hphoto.
  match goal with
  | |- context [bind _ _ ?W] =>
      destruct (propagation_run id ops [("photo", Some photo)]
                  "Failed updating author photo refs at posts"
                  "Failed updating author photo refs at comments"
                  "Failed updating author photo at threads" W)
        as [w' [_ [Hrun [Hus [Hp [Hc [Ht [Htr Hl]]]]]]]]
  end.
  exists w'. split.
  - apply Hrun.
  - rewrite Hus, Hp, Hc, Ht, Htr, Hl. cbn.
    rewrite <- ?app_assoc. repeat split; reflexivity.
Qed.

(** *** The frame of the thread update *)

Lemma kept_refl : forall id t, kept id t t.
Proof.
  intros id t. split; auto.
  destruct (prop t "participants") as [[| | | |ps|]|] eqn:E; auto.
  exists ps. auto.
Qed.

Lemma kept_trans : forall id t1 t2 t3,
  kept id t1 t2 -> kept id t2 t3 -> kept id t1 t3.
Proof.
  intros id t1 t2 t3 [H1 P1] [H2 P2]. split.
  - intros k Hk. now rewrite H2, H1.
  - destruct (prop t1 "participants") as [[| | | |ps|]|] eqn:E;
      try (rewrite P1 in P2; exact P2).
    destruct P1 as [ps' [E' [L' F']]]. rewrite E' in P2.
    destruct P2 as [ps'' [E'' [L'' F'']]].
    exists ps''. split; auto. split; [congruence|]. auto.
Qed.

Lemma set_participant_kept : forall id k v t,
  kept (to_bson id) t
    (set_upath [("userToUpdate", FEq ["id"] (to_bson id))]
       [UKey "participants"; UEach "userToUpdate"; UKey k] v t).
Proof.
  intros id k v t. destruct t as [| | | | |fs]; try apply kept_refl.
  cbn [set_upath]. destruct (lookup "participants" fs) as [x|] eqn:E;
    [|apply kept_refl].
  split.
  - intros k' Hk. cbn [prop]. now apply lookup_set_field_ne.
  - cbn [prop]. rewrite E, lookup_set_field_eq.
    destruct x as [| | | |ps|]; auto.
    eexists. split; [reflexivity|]. split; [apply length_map|].
    intros i p Hi Hp. rewrite nth_error_map, Hi. cbn [option_map].
    cbn [existsb fst snd]. unfold is_entry_of in Hp. rewrite Hp.
    reflexivity.
Qed.

Lemma apply_participant_sets_kept : forall id sets t,
  kept (to_bson id) t
    (apply_sets [("userToUpdate", FEq ["id"] (to_bson id))]
       (participant_sets sets) t).
Proof.
  intros id sets. unfold apply_sets.
  induction sets as [|[k v] sets IH]; intros t; cbn [participant_sets map fold_left].
  - apply kept_refl.
  - eapply kept_trans; [|apply IH]. cbn [fst snd]. apply set_participant_kept.
Qed.

Lemma entries_kept_refl : forall id t, entries_kept id t t.
Proof. intros id t. split; auto. apply kept_refl. Qed.

Lemma updated_participants_kept : forall id sets ths,
  Forall2 (entries_kept (to_bson id)) ths
    (updated (participants_call id sets) ths).
Proof.
  intros id sets ths. unfold updated, participants_call.
  destruct (fails _).
  - induction ths; constructor; auto using entries_kept_refl.
  - unfold updateMany. induction ths as [|t ths IH]; cbn [map]; constructor; auto.
    destruct (matches (FEq ["participants"; "id"] (to_bson id)) t) eqn:E.
    + split; [congruence|]. apply apply_participant_sets_kept.
    + apply entries_kept_refl.
Qed.

Lemma Forall2_entries_kept_refl : forall id ths,
  Forall2 (entries_kept id) ths ths.
Proof. induction ths; constructor; auto using entries_kept_refl. Qed.

Lemma is_entry_of_other : forall id fs x,
  lookup "id" fs = Some x -> x <> id -> (forall xs, x <> VArr xs) ->
  is_entry_of id (VObj fs) = false.
Proof.
  intros id fs x Hx Hne Harr. unfold is_entry_of. cbn [matches path_values].
  rewrite Hx. cbn [existsb]. unfold eq_match.
  destruct (value_eqb x id) eqn:E.
  - apply value_eqb_eq in E. contradiction.
  - destruct x; auto. exfalso. eapply Harr; eauto.
Qed.

Lemma is_entry_of_own : forall id fs,
  lookup "id" fs = Some id -> is_entry_of id (VObj fs) = true.
Proof.
  intros id fs Hx. unfold is_entry_of. cbn [matches path_values].
  rewrite Hx. cbn [existsb]. unfold eq_match. now rewrite value_eqb_refl.
Qed.

Lemma patch_current_threads : forall userId body w,
  threads (snd (patch_current userId body w)) = threads w \/
  exists user,
    findById (users w) (Some userId) = Some user /\
    threads (snd (patch_current userId body w)) =
    updated (participants_call
               (prop (VObj (assign (fields_of user) body)) "_id")
               [("name", display_name (VObj (assign (fields_of user) body)));
                ("photo", prop (VObj (assign (fields_of user) body)) "photo")])
            (threads w).
Proof.
  intros userId body w.
  destruct (fails (FindById Users (Some userId))) eqn:Hf.
  { left. unfold patch_current. unfold bind at 1.
    rewrite db_findById_run, Hf. reflexivity. }
  destruct (findById (users w) (Some userId)) as [user|] eqn:Hu.
  2:{ left. unfold patch_current. unfold bind at 1.
      rewrite db_findById_run, Hf. cbn [coll]. rewrite Hu. reflexivity. }
  destruct (fails (Save (VObj (assign (fields_of user) body)))) eqn:Hs.
  { left. unfold patch_current. unfold bind at 1.
    rewrite db_findById_run, Hf. cbn [coll]. rewrite Hu. cbv beta iota.
    unfold bind at 1. rewrite db_save_run, Hs. reflexivity. }
  destruct (patch_current_run userId body w user Hf Hu Hs)
    as [w' [Hrun [_ [_ [_ [Ht _]]]]]].
  rewrite Hrun. cbn [snd]. rewrite Ht.
  destruct (triggers body); eauto.
Qed.

Lemma updateUserAvatar_threads : forall userId file w,
  threads (snd (updateUserAvatar userId file w)) = threads w \/
  exists user photo,
    findById (users w) (Some userId) = Some user /\
    avatar_photo userId file = Some photo /\
    threads (snd (updateUserAvatar userId file w)) =
    updated (participants_call
               (prop (VObj (set_field "photo" photo (fields_of user))) "_id")
               [("photo", Some photo)])
            (threads w).
Proof.
  intros userId file w.
  destruct (fails (FindById Users (Some userId))) eqn:Hf.
  { left. unfold updateUserAvatar. unfold bind at 1.
    rewrite db_findById_run, Hf. reflexivity. }
  destruct (findById (users w) (Some userId)) as [user|] eqn:Hu.
  2:{ left. unfold updateUserAvatar. unfold bind at 1.
      rewrite db_findById_run, Hf. cbn [coll]. rewrite Hu. reflexivity. }
  destruct (avatar_photo userId file) as [photo|] eqn:Hph.
  2:{ left. unfold updateUserAvatar. unfold bind at 1.
      rewrite db_findById_run, Hf. cbn [coll]. rewrite Hu. cbv beta iota.
      unfold avatar_photo in Hph.
      destruct (truthy file); [|discriminate].
      unfold bind, record_call, ret. rewrite Hph. reflexivity. }
  destruct (fails (Save (VObj (set_field "photo" photo (fields_of user)))))
    eqn:Hs.
  { left. unfold updateUserAvatar. unfold bind at 1.
    rewrite db_findById_run, Hf. cbn [coll]. rewrite Hu. cbv beta iota.
    unfold avatar_photo in Hph. destruct (truthy file).
    - unfold bind at 1. unfold bind at 1. unfold record_call, ret.
      rewrite Hph. cbv beta iota.
      unfold bind at 1. rewrite db_save_run, Hs. reflexivity.
    - injection Hph as <-. unfold bind at 1. unfold ret at 1.
      unfold bind at 1. rewrite db_save_run, Hs. reflexivity. }
  destruct (updateUserAvatar_run userId file w user photo Hf Hu Hph Hs)
    as [w' [Hrun [_ [_ [_ [Ht _]]]]]].
  rewrite Hrun. cbn [snd]. rewrite Ht. right. exists user, photo. auto.
Qed.

(** *** The two routes *)

Lemma delete_current_avatar_run : forall userId w user,
  fails (FindById Users (Some userId)) = false ->
  findById (users w) (Some userId) = Some user ->
  let updatedUser := VObj (set_field "photo" VNull (fields_of user)) in
  fails (Save updatedUser) = false ->
  let id := prop updatedUser "_id" in
  let c1 := author_refs_call Posts id
              [([UKey "author"; UKey "photo"], Some VNull)] in
  let c2 := author_refs_call Comments id
              [([UKey "author"; UKey "photo"], Some VNull)] in
  let c3 := participants_call id [("photo", Some VNull)] in
  exists w',
    delete_current_avatar userId w =
      (Return (VObj [("updatedUser", updatedUser)]), w') /\
    trace w' =
      trace w ++ [FindById Users (Some userId); Save updatedUser; c1; c2; c3] /\
    posts w' = updated c1 (posts w) /\
    comments w' = updated c2 (comments w) /\
    threads w' = updated c3 (threads w).
Proof.
  intros userId w user Hf Hu updatedUser Hs id c1 c2 c3.
  destruct (updateUserAvatar_run userId None w user VNull Hf Hu eq_refl Hs)
    as [w' [Hrun [_ [Hp [Hc [Ht [Htr _]]]]]]].
  exists w'. unfold delete_current_avatar. repeat split; auto.
Qed.

(** C6, amended. After a profile update that succeeded, the three
    updates (author snapshots of posts, author snapshots of comments,
    participant entries of threads) are issued exactly when the body holds
    a first name, a last name or a photo that is truthy; a body with none
    of the three fields triggers nothing; and the avatar deletion issues
    the three updates with the null photo. *)
Theorem propagation_issued_iff_truthy :
  (forall userId body w user,
     fails (FindById Users (Some userId)) = false ->
     findById (users w) (Some userId) = Some user ->
     let updatedUser := VObj (assign (fields_of user) body) in
     fails (Save updatedUser) = false ->
     let id := prop updatedUser "_id" in
     let ops := patch_updateOps body updatedUser in
     exists w',
       patch_current userId body w = (Return updatedUser, w') /\
       trace w' =
         trace w ++ [FindById Users (Some userId); Save updatedUser]
                 ++ (if truthy (lookup "firstName" body)
                        || truthy (lookup "lastName" body)
                        || truthy (lookup "photo" body)
                     then [author_refs_call Posts id ops;
                           author_refs_call Comments id ops;
                           participants_call id
                             [("name", display_name updatedUser);
                              ("photo", prop updatedUser "photo")]]
                     else [])) /\
  (forall body,
     lookup "firstName" body = None -> lookup "lastName" body = None ->
     lookup "photo" body = None ->
     truthy (lookup "firstName" body) || truthy (lookup "lastName" body)
     || truthy (lookup "photo" body) = false) /\
  (forall userId w user,
     fails (FindById Users (Some userId)) = false ->
     findById (users w) (Some userId) = Some user ->
     let updatedUser := VObj (set_field "photo" VNull (fields_of user)) in
     fails (Save updatedUser) = false ->
     let id := prop updatedUser "_id" in
     let c1 := author_refs_call Posts id
                 [([UKey "author"; UKey "photo"], Some VNull)] in
     let c2 := author_refs_call Comments id
                 [([UKey "author"; UKey "photo"], Some VNull)] in
     let c3 := participants_call id [("photo", Some VNull)] in
     exists w',
       delete_current_avatar userId w =
         (Return (VObj [("updatedUser", updatedUser)]), w') /\
       trace w' =
         trace w ++ [FindById Users (Some userId); Save updatedUser;
                     c1; c2; c3] /\
       posts w' = updated c1 (posts w) /\
       comments w' = updated c2 (comments w) /\
       threads w' = updated c3 (threads w)).
Proof.
  split; [|split].
  - intros userId body w user Hf Hu updatedUser Hs id ops.
    destruct (patch_current_run userId body w user Hf Hu Hs)
      as [w' [Hrun [_ [_ [_ [_ [Htr _]]]]]]].
    exists w'. split; auto.
  - intros body -> -> ->. reflexivity.
  - apply delete_current_avatar_run.
Qed.

(** C7. In the propagation of a profile update, a failure of any of the
    three updates is logged and not thrown: the three are all attempted,
    a failing one leaves its log line and its collection as it was, and the
    operation returns the updated profile. *)
Theorem propagation_failure_is_logged :
  forall userId body w user,
  fails (FindById Users (Some userId)) = false ->
  findById (users w) (Some userId) = Some user ->
  let updatedUser := VObj (assign (fields_of user) body) in
  fails (Save updatedUser) = false ->
  triggers body = true ->
  let id := prop updatedUser "_id" in
  let ops := patch_updateOps body updatedUser in
  let c1 := author_refs_call Posts id ops in
  let c2 := author_refs_call Comments id ops in
  let c3 := participants_call id [("name", display_name updatedUser);
                                  ("photo", prop updatedUser "photo")] in
  exists w',
    patch_current userId body w = (Return updatedUser, w') /\
    trace w' =
      trace w ++ [FindById Users (Some userId); Save updatedUser; c1; c2; c3] /\
    log w' =
      log w ++ (if fails c1 then ["Failed updating author refs at posts"]
                else [])
            ++ (if fails c2 then ["Failed updating author refs at comments"]
                else [])
            ++ (if fails c3 then ["Failed updating author refs at threads"]
                else []) /\
    posts w' =
      (if fails c1 then posts w
       else updateMany (FEq ["author"; "id"] (to_bson id)) ops [] (posts w)) /\
    comments w' =
      (if fails c2 then comments w
       else updateMany (FEq ["author"; "id"] (to_bson id)) ops []
              (comments w)) /\
    threads w' = updated c3 (threads w).
Proof.
  intros userId body w user Hf Hu updatedUser Hs Htrig id ops c1 c2 c3.
  destruct (patch_current_run userId body w user Hf Hu Hs)
    as [w' [Hrun [_ [Hp [Hc [Ht [Htr Hl]]]]]]].
  rewrite Htrig in *. exists w'. repeat split; auto.
Qed.

(** C8. The update of the threads changes, in a thread that has the
    updated profile among its participants, only the participant entries
    the array filter on the profile's id selects: the other entries, the
    other fields and the other threads are as they were. An entry whose id
    is another id is not selected. *)
Theorem other_participants_unchanged :
  (forall userId body w,
   exists id,
     (forall user,
        findById (users w) (Some userId) = Some user ->
        id = to_bson (prop (VObj (assign (fields_of user) body)) "_id")) /\
     Forall2 (entries_kept id) (threads w)
       (threads (snd (patch_current userId body w)))) /\
  (forall userId file w,
   exists id,
     (forall user photo,
        findById (users w) (Some userId) = Some user ->
        avatar_photo userId file = Some photo ->
        id = to_bson
               (prop (VObj (set_field "photo" photo (fields_of user))) "_id")) /\
     Forall2 (entries_kept id) (threads w)
       (threads (snd (updateUserAvatar userId file w)))) /\
  (forall id fs x,
     lookup "id" fs = Some x -> x <> id -> (forall xs, x <> VArr xs) ->
     is_entry_of id (VObj fs) = false).
Proof.
  split; [|split].
  - intros userId body w.
    destruct (patch_current_threads userId body w) as [H|[user [Hu H]]].
    + exists (to_bson
                match findById (users w) (Some userId) with
                | Some user => prop (VObj (assign (fields_of user) body)) "_id"
                | None => None
                end).
      split; [intros user ->; reflexivity|].
      rewrite H. apply Forall2_entries_kept_refl.
    + eexists. split; [intros user' Hu'; rewrite Hu in Hu';
                       injection Hu' as <-; reflexivity|].
      rewrite H. apply updated_participants_kept.
  - intros userId file w.
    destruct (updateUserAvatar_threads userId file w)
      as [H|[user [photo [Hu [Hph H]]]]].
    + exists (to_bson
                match findById (users w) (Some userId),
                      avatar_photo userId file with
                | Some user, Some photo =>
                    prop (VObj (set_field "photo" photo (fields_of user))) "_id"
                | _, _ => None
                end).
      split; [intros user photo -> ->; reflexivity|].
      rewrite H. apply Forall2_entries_kept_refl.
    + eexists. split.
      * intros user' photo' Hu' Hph'. rewrite Hu in Hu'. rewrite Hph in Hph'.
        injection Hu' as <-. injection Hph' as <-. reflexivity.
      * rewrite H. apply updated_participants_kept.
  - apply is_entry_of_other.
Qed.

(** C10. In PATCH /current, a body whose photo is null or the empty
    string, with no first or last name that is truthy, triggers no
    propagation: the profile is saved and returned, and no update of posts,
    comments or threads is issued. The avatar deletion is the route that
    propagates the removal. *)
Theorem falsy_photo_triggers_nothing :
  (forall userId body w user,
     fails (FindById Users (Some userId)) = false ->
     findById (users w) (Some userId) = Some user ->
     let updatedUser := VObj (assign (fields_of user) body) in
     fails (Save updatedUser) = false ->
     truthy (lookup "firstName" body) = false ->
     truthy (lookup "lastName" body) = false ->
     lookup "photo" body = Some VNull \/ lookup "photo" body = Some (VStr "") ->
     exists w',
       patch_current userId body w = (Return updatedUser, w') /\
       trace w' = trace w ++ [FindById Users (Some userId); Save updatedUser] /\
       users w' = store_doc userId updatedUser (users w) /\
       posts w' = posts w /\ comments w' = comments w /\
       threads w' = threads w /\ log w' = log w) /\
  (forall userId w user,
     fails (FindById Users (Some userId)) = false ->
     findById (users w) (Some userId) = Some user ->
     let updatedUser := VObj (set_field "photo" VNull (fields_of user)) in
     fails (Save updatedUser) = false ->
     let id := prop updatedUser "_id" in
     exists w',
       delete_current_avatar userId w =
         (Return (VObj [("updatedUser", updatedUser)]), w') /\
       trace w' =
         trace w ++ [FindById Users (Some userId); Save updatedUser;
                     author_refs_call Posts id
                       [([UKey "author"; UKey "photo"], Some VNull)];
                     author_refs_call Comments id
                       [([UKey "author"; UKey "photo"], Some VNull)];
                     participants_call id [("photo", Some VNull)]]).
Proof.
  split.
  - intros userId body w user Hf Hu updatedUser Hs Hfn Hln Hph.
    destruct (patch_current_run userId body w user Hf Hu Hs)
      as [w' [Hrun [Hus [Hp [Hc [Ht [Htr Hl]]]]]]].
    assert (Htrig : triggers body = false).
    { unfold triggers. rewrite Hfn, Hln. destruct Hph as [-> | ->]; reflexivity. }
    rewrite Htrig in *. rewrite app_nil_r in Hl.
    exists w'. repeat split; auto.
  - intros userId w user Hf Hu updatedUser Hs id.
    destruct (delete_current_avatar_run userId w user Hf Hu Hs)
      as [w' [Hrun [Htr _]]].
    exists w'. split; [exact Hrun|exact Htr].
Qed.

End Propagation.

(** ** The unsubscribe routes *)

Section Unsubscribe.
Context {C : Collaborators}.


Lemma db_findOneAndUpdate_run : forall id sets w,
  db_findOneAndUpdate id sets w =
  (Return (if fails (FindOneAndUpdate id sets) then Failed
           else Done (option_map (apply_sets [] sets) (findById (users w) id))),
   if fails (FindOneAndUpdate id sets) then called (FindOneAndUpdate id sets) w
   else match findById (users w) id with
        | Some d =>
            set_coll Users
              (store_doc (to_bson id) (apply_sets [] sets d) (users w))
              (called (FindOneAndUpdate id sets) w)
        | None => called (FindOneAndUpdate id sets) w
        end).
Proof.
  intros id sets w. unfold db_findOneAndUpdate, bind, record_call.
  destruct (fails (FindOneAndUpdate id sets)); [reflexivity|].
  cbn [users called]. destruct (findById (users w) id); reflexivity.
Qed.





End Unsubscribe.

(** ** The handlers at work on the small directory *)

Lemma ranking_plan_selected_witness :
  exists out,
    run_pipeline (C := demo)
      (sortAndFilterSteps None (Some "nurse") [FEq ["type"] (VStr "Individual")])
      (map (fun d => Row d 0) [ann; bob]) = Some out /\
    StronglySorted score_before out.
Proof.
  pose proof (ranking_plan_selected (C := demo) None (Some "nurse")
                [FEq ["type"] (VStr "Individual")]
                (map (fun d => Row d 0) [ann; bob])) as H.
  cbv zeta in H.
  change (selected_plan None (Some "nurse")) with TextPlan in H. cbv iota in H.
  destruct H as [_ [kw [out [_ [_ [Hr [Hs _]]]]]]].
  exists out. split; assumption.
Defined.

Lemma hidden_address_filter_witness :
  truthy (query_location near_lyon) = true /\
  get_path ["hide"; "address"] bob = Some (VBool true) /\
  matches (C := demo)
    (FAnd (filters (query_location near_lyon) None
             (location (query_location near_lyon) None false) None)) bob
  = false.
Proof.
  split; [reflexivity|]. split; [reflexivity|].
  apply (proj1 (proj2 (hidden_address_filter (C := demo)
                         (query_location near_lyon) None None false None)));
    reflexivity.
Defined.

Lemma coordinates_never_returned_witness :
  (exists resp w' x,
     get_users (C := demo) plain_query (Some (VNum 2)) sample
       = (Return resp, w') /\
     In x (response_data resp) /\
     get_path ["location"; "coordinates"] x = None) /\
  (exists resp w' loc,
     get_user_by_id (C := demo) (VNum 1) None sample = (Return resp, w') /\
     prop resp "location" = Some loc /\ prop loc "coordinates" = None).
Proof.
  split.
  - eexists. eexists. eexists.
    assert (H : get_users (C := demo) plain_query (Some (VNum 2)) sample
                = (Return _, _)) by (vm_compute; reflexivity).
    split; [exact H|]. split; [left; reflexivity|].
    apply (proj1 (coordinates_never_returned (C := demo)) _ _ _ _ _ _ H).
    left. reflexivity.
  - eexists. eexists.
    assert (H : get_user_by_id (C := demo) (VNum 1) None sample
                = (Return _, _)) by (vm_compute; reflexivity).
    destruct (proj2 (coordinates_never_returned (C := demo)) _ _ _ _ _ H)
      as [loc [Hl Hc]].
    exists loc. split; [exact H|]. split; assumption.
Defined.

Lemma search_page_window_witness :
  aggregate (C := demo) (users sample)
    (sortAndFilterSteps None None [FEq ["type"] (VStr "Individual")])
  = Some [bob; ann] /\
  aggregate (C := demo) (users sample)
    (aggregationPipelineResults None None [FEq ["type"] (VStr "Individual")]
       (Some 1) (Some 1))
  = Some (map directory_view [ann]).
Proof.
  assert (H : aggregate (C := demo) (users sample)
                (sortAndFilterSteps None None [FEq ["type"] (VStr "Individual")])
              = Some [bob; ann]) by reflexivity.
  split; [exact H|].
  apply (proj1 (search_page_window (C := demo)
                  (paged plain_query (Some 1) (Some 1)) None sample
                  [bob; ann] [ann] 1 H (or_introl eq_refl) ltac:(lia)
                  (or_intror (or_introl
                     (ex_intro _ 1 (conj eq_refl (conj eq_refl eq_refl))))))).
Defined.

Lemma total_counts_matches_witness :
  q_includeMeta (with_keywords "nurse" true) = true /\
  exists resp w' data,
    get_users (C := demo) (paged (with_keywords "nurse" true) (Some 1) (Some 5))
      None sample = (Return resp, w') /\
    resp = VObj [("meta", VObj [("total", VNum 1)]); ("data", VArr data)].
Proof.
  split; [reflexivity|].
  eexists. eexists.
  assert (H : get_users (C := demo)
                (paged (with_keywords "nurse" true) (Some 1) (Some 5))
                None sample = (Return _, _)) by (vm_compute; reflexivity).
  destruct (proj2 (total_counts_matches (C := demo) (with_keywords "nurse" true)
                     (Some 1) (Some 5) None sample eq_refl) _ _ H)
    as [data Hd].
  exists data. split; [exact H|exact Hd].
Defined.

Lemma propagation_issued_iff_truthy_witness :
  exists w',
    patch_current (C := demo) (VNum 1) [("firstName", VStr "Anna")] sample
    = (Return (VObj (assign (fields_of ann) [("firstName", VStr "Anna")])), w') /\
    List.length (trace w') = 5%nat.
Proof.
  destruct (proj1 (propagation_issued_iff_truthy (C := demo))
              (VNum 1) [("firstName", VStr "Anna")] sample ann
              eq_refl eq_refl eq_refl) as [w' [H Htr]].
  exists w'. split; [exact H|]. rewrite Htr. reflexivity.
Defined.

Lemma propagation_failure_is_logged_witness :
  exists w',
    patch_current (C := demo_posts_down) (VNum 1) [("firstName", VStr "Anna")]
      sample
    = (Return (VObj (assign (fields_of ann) [("firstName", VStr "Anna")])), w') /\
    log w' = ["Failed updating author refs at posts"] /\
    posts w' = posts sample /\
    List.length (trace w') = 5%nat.
Proof.
  destruct (propagation_failure_is_logged (C := demo_posts_down)
              (VNum 1) [("firstName", VStr "Anna")] sample ann
              eq_refl eq_refl eq_refl eq_refl)
    as [w' [H [Htr [Hl [Hp _]]]]].
  exists w'. split; [exact H|]. split; [exact Hl|]. split; [exact Hp|].
  rewrite Htr. reflexivity.
Defined.

Lemma other_participants_unchanged_witness :
  exists id,
    Forall2 (entries_kept (C := demo) id) (threads sample)
      (threads (snd (patch_current (C := demo) (VNum 1)
                       [("firstName", VStr "Anna")] sample))) /\
    id = VNum 1.
Proof.
  destruct (proj1 (other_participants_unchanged (C := demo))
              (VNum 1) [("firstName", VStr "Anna")] sample) as [id [Hid H]].
  exists id. split; [exact H|]. apply (Hid ann). reflexivity.
Defined.


Lemma falsy_photo_triggers_nothing_witness :
  exists w',
    patch_current (C := demo) (VNum 1) [("photo", VNull)] sample
    = (Return (VObj (assign (fields_of ann) [("photo", VNull)])), w') /\
    posts w' = posts sample /\ comments w' = comments sample /\
    threads w' = threads sample.
Proof.
  destruct (proj1 (falsy_photo_triggers_nothing (C := demo))
              (VNum 1) [("photo", VNull)] sample ann
              eq_refl eq_refl eq_refl eq_refl eq_refl (or_introl eq_refl))
    as [w' [H [_ [_ [Hp [Hc [Ht _]]]]]]].
  exists w'. repeat split; assumption.
Defined.

(** A limit of 0 is not a window of no element: the page size applies. *)
Lemma limit_zero_returns_a_page :
  aggregate (C := demo) (users sample)
    (sortAndFilterSteps None None [FEq ["type"] (VStr "Individual")])
  = Some [bob; ann] /\
  fst (get_users (C := demo) (paged plain_query (Some 0) (Some 0)) None sample)
  = Return (VArr [directory_view bob; directory_view ann]) /\
  map directory_view (firstn (Z.to_nat 0) (skipn (Z.to_nat 0) [bob; ann])) = [].
Proof.
  split; [reflexivity|]. split; [vm_compute; reflexivity|reflexivity].
Qed.

(** In a keyword search without a location, [total] is not the number of
    profiles that satisfy the filter set: the text search counts too. *)
Lemma total_is_not_the_filter_count :
  search_filters (with_keywords "zzz" true) None
  = [FEq ["type"] (VStr "Individual")] /\
  List.length
    (List.filter
       (matches (C := demo)
          (FAnd (search_filters (with_keywords "zzz" true) None)))
       (users sample)) = 2%nat /\
  fst (get_users (C := demo) (with_keywords "zzz" true) None sample)
  = Return (VObj [("meta", VObj [("total", VNum 0)]); ("data", VArr [])]).
Proof.
  split; [reflexivity|]. split; [reflexivity|vm_compute; reflexivity].
Qed.

(** A body that sets the photo to null touches the photo, and nothing is
    propagated: the snapshots keep the old photo. *)
Lemma null_photo_in_body_is_not_propagated :
  lookup "photo" [("photo", VNull)] = Some VNull /\
  fst (patch_current (C := demo) (VNum 1) [("photo", VNull)] sample)
  = Return (VObj (assign (fields_of ann) [("photo", VNull)])) /\
  trace (snd (patch_current (C := demo) (VNum 1) [("photo", VNull)] sample))
  = [FindById Users (Some (VNum 1));
     Save (VObj (assign (fields_of ann) [("photo", VNull)]))] /\
  posts (snd (patch_current (C := demo) (VNum 1) [("photo", VNull)] sample))
  = posts sample.
Proof.
  split; [reflexivity|]. split; [vm_compute; reflexivity|].
  split; vm_compute; reflexivity.
Qed.


(** ** The read routes write nothing *)

Section ReadOnly.
Context {C : Collaborators}.

Lemma read_only_ret : forall (A : Type) (a : A), read_only (ret a).
Proof. intros A a w. reflexivity. Qed.

Lemma read_only_throw : forall (A : Type) e, read_only (@throw A e).
Proof. intros A e w. reflexivity. Qed.

Lemma read_only_log_error : forall msg, read_only (log_error msg).
Proof. intros msg w. reflexivity. Qed.

Lemma read_only_record_call : forall c, read_only (record_call c).
Proof. intros c w. reflexivity. Qed.

Lemma read_only_bind : forall (A B : Type) (m : M A) (k : A -> M B),
  read_only m -> (forall a, read_only (k a)) -> read_only (bind m k).
Proof.
  intros A B m k Hm Hk w. unfold bind. specialize (Hm w).
  destruct (m w) as [[a|e|] w1]; simpl in *; auto.
  now rewrite Hk.
Qed.

Lemma read_only_db_findById : forall c id, read_only (db_findById c id).
Proof. intros c id w. rewrite db_findById_run. reflexivity. Qed.

Lemma read_only_db_aggregate : forall p, read_only (db_aggregate p).
Proof. intros p w. rewrite db_aggregate_run. reflexivity. Qed.

Lemma read_only_member : forall x k, read_only (member x k).
Proof. intros [[| | | | |]|] k w; reflexivity. Qed.

Lemma read_only_await : forall (A : Type) (m : M (attempt A)),
  read_only m -> read_only (await m).
Proof.
  intros A m Hm. unfold await. apply read_only_bind; auto.
  intros [|a]; [apply read_only_throw|apply read_only_ret].
Qed.

Ltac read_only_step :=
  first
    [ apply read_only_ret
    | apply read_only_throw
    | apply read_only_log_error
    | apply read_only_record_call
    | apply read_only_db_findById
    | apply read_only_db_aggregate
    | apply read_only_member
    | apply read_only_await
    | apply read_only_bind; [|intro]
    | match goal with
      | |- read_only (match ?x with _ => _ end) => destruct x
      | |- read_only (if ?x then _ else _) => destruct x
      end ].

(** The directory search, the single-profile read, the read of the own
    profile and the read of the notification preferences leave the four
    collections as they are, whether they answer or fail. *)
Theorem read_routes_write_nothing :
  forall (query : users_query) (viewer : option value) (userId : value)
         (token : verified) (now : Z),
  read_only (get_users query viewer) /\
  read_only (get_user_by_id userId viewer) /\
  read_only (get_current userId) /\
  read_only (get_unsubscribe token now).
Proof.
  intros query viewer userId token now. repeat split.
  - unfold get_users. repeat read_only_step.
  - unfold get_user_by_id. repeat read_only_step.
  - unfold get_current. repeat read_only_step.
  - unfold get_unsubscribe, read_notifyPrefs. repeat read_only_step.
Qed.

End ReadOnly.

(** ** More on the directory search *)

Section SearchMore.
Context {C : Collaborators}.

Lemma aggregate_results_split : forall coll loc kw fs limit skip data,
  aggregate coll (aggregationPipelineResults loc kw fs limit skip) = Some data ->
  exists ranked pg,
    run_pipeline (sortAndFilterSteps loc kw fs) (map (fun d => Row d 0) coll)
      = Some ranked /\
    run_pipeline (paginationSteps limit skip) ranked = Some pg /\
    data = map directory_view (map r_doc pg).
Proof.
  intros coll loc kw fs limit skip data H.
  unfold aggregate, aggregationPipelineResults in H.
  rewrite run_pipeline_app in H.
  destruct (run_pipeline (sortAndFilterSteps loc kw fs) _) as [ranked|] eqn:Hr;
    [|discriminate].
  rewrite run_pipeline_app in H.
  destruct (run_pipeline (paginationSteps limit skip) ranked) as [pg|] eqn:Hp;
    [|discriminate].
  rewrite projection_run in H. injection H as <-.
  exists ranked, pg. repeat split; auto. apply map_r_doc_on_doc.
Qed.

Lemma pagination_length : forall limit skip rows pg,
  run_pipeline (paginationSteps limit skip) rows = Some pg ->
  (List.length pg <= List.length rows)%nat /\
  (limit <> Some (-1) ->
   (List.length pg <= Z.to_nat (or_default limit USERS_PAGE_SIZE))%nat).
Proof.
  intros limit skip rows pg H. unfold paginationSteps in H.
  assert (Hl : forall rs,
             run_pipeline [SSkip (or_default skip 0);
                           SLimit (or_default limit USERS_PAGE_SIZE)] rows
               = Some rs ->
             (List.length rs <= List.length rows)%nat /\
             (List.length rs <= Z.to_nat (or_default limit USERS_PAGE_SIZE))%nat).
  { intros rs Hr. cbn [run_pipeline run_stage] in Hr.
    destruct (or_default skip 0 <? 0); [discriminate|].
    destruct (or_default limit USERS_PAGE_SIZE <=? 0); [discriminate|].
    injection Hr as <-. split.
    - rewrite length_firstn, length_skipn. lia.
    - apply firstn_le_length. }
  destruct limit as [[|l|[l|l|]]|];
    try (destruct (Hl pg H) as [H1 H2]; split; [exact H1|intros _; exact H2]).
  cbn [run_pipeline run_stage] in H.
  destruct (or_default skip 0 <? 0); [discriminate|].
  injection H as <-. split; [rewrite length_skipn; lia|congruence].
Qed.


Lemma results_from_stored : forall coll loc kw fs limit skip data x,
  aggregate coll (aggregationPipelineResults loc kw fs limit skip) = Some data ->
  In x data ->
  exists d0 d,
    In d0 coll /\
    (forall f, In f fs -> matches f d0 = true) /\
    (truthy loc = false -> forall k, kw = Some k -> k <> "" ->
     text_score k d0 <> None) /\
    (d = d0 \/
     exists fs0 v, d0 = VObj fs0 /\ d = VObj (set_field "distance" v fs0)) /\
    x = directory_view d.
Proof.
  intros coll loc kw fs limit skip data x H Hin.
  destruct (search_results_from _ _ _ _ _ _ _ _ H Hin)
    as [d0 [d [Hd0 [Hm [Hdd Hx]]]]].
  destruct (truthy loc) eqn:Hloc.
  - exists d0, d. repeat split; auto; try discriminate.
    intros f Hf. eapply matches_FAnd_In; eauto.
  - destruct (aggregate_results_split _ _ _ _ _ _ _ H)
      as [ranked [pg [Hr [Hp ->]]]].
    apply in_map_iff in Hin as [d' [<- Hin]].
    apply in_map_iff in Hin as [r [<- Hin]].
    eapply pagination_from in Hin; eauto.
    unfold sortAndFilterSteps in Hr. rewrite Hloc in Hr.
    destruct (truthy (str kw)) eqn:Hkw; cbn [run_pipeline run_stage] in Hr;
      injection Hr as <-; apply In_sort_rows in Hin.
    + destruct kw as [k|]; [|discriminate].
      pose proof (match_rows_text_score _ _ _ _ Hin) as [Hmr Hts].
      unfold match_rows in Hin. apply in_flat_map in Hin as [r0 [Hr0 Hin]].
      destruct (matches (FAnd fs) (r_doc r0)); [|contradiction].
      destruct (text_score k (r_doc r0)) eqn:Et; [|contradiction].
      destruct Hin as [<-|[]]. cbn [r_doc] in *.
      apply in_map_iff in Hr0 as [e [<- He]]. cbn [r_doc] in *.
      exists e, e. repeat split; auto.
      * intros f Hf. eapply matches_FAnd_In; eauto.
      * intros _ k' Hk' _. injection Hk' as <-. congruence.
    + exists d0, d. repeat split; auto.
      * intros f Hf. eapply matches_FAnd_In; eauto.
      * intros _ k -> Hk. exfalso. simpl in Hkw.
        apply negb_false_iff, String.eqb_eq in Hkw. contradiction.
Qed.

Lemma filters_hold_type : forall ql objective loc kw,
  In (FEq ["type"] (VStr "Individual")) (filters ql objective loc kw).
Proof. intros. left. reflexivity. Qed.

Lemma filters_hold_objective : forall ql o loc kw,
  In (objectives o) (filters ql (Some o) loc kw).
Proof.
  intros. unfold filters. apply in_or_app. right. apply in_or_app. right.
  simpl. now left.
Qed.

Lemma filters_hold_keywords : forall ql objective loc k,
  truthy loc = true -> k <> "" ->
  In (FOr (map (fun p => FRegex p k) keyword_paths))
     (filters ql objective loc (Some k)).
Proof.
  intros ql objective loc k Hloc Hk. unfold filters.
  apply in_or_app. right. apply in_or_app. right. apply in_or_app. right.
  rewrite Hloc.
  apply String.eqb_neq in Hk. simpl. rewrite Hk. simpl. now left.
Qed.

(** Every profile of a search result is the view of a stored profile of
    type Individual; with an objective, the stored profile satisfies the
    predicate of the objective; with a keyword, it matches the keyword's
    regular expression at one of the seven text paths when the search has a
    location, and the text index otherwise. *)
Theorem results_satisfy_filters :
  forall query userId w resp w' x,
  get_users query userId w = (Return resp, w') ->
  In x (response_data resp) ->
  exists d0,
    In d0 (users w) /\ prop x "_id" = prop d0 "_id" /\
    matches (FEq ["type"] (VStr "Individual")) d0 = true /\
    (forall o, q_objective query = Some o -> matches (objectives o) d0 = true) /\
    (forall k, q_keywords query = Some k -> k <> "" ->
       if truthy (search_location query (requester w userId))
       then exists p, In p keyword_paths /\ matches (FRegex p k) d0 = true
       else text_score k d0 <> None).
Proof.
  intros query userId w resp w' x H Hin.
  apply get_users_returns in H as [totals [data [_ [Hd [-> _]]]]].
  rewrite response_data_handler in Hin.
  destruct (results_from_stored _ _ _ _ _ _ _ _ Hd Hin)
    as [d0 [d [Hd0 [Hm [Ht [Hdd ->]]]]]].
  exists d0. split; auto. split.
  { rewrite view_id. destruct Hdd as [->|[fs0 [v [-> ->]]]]; auto.
    simpl. now rewrite lookup_set_field_ne by discriminate. }
  split; [apply Hm, filters_hold_type|]. split.
  - intros o Ho. apply Hm. unfold search_filters. rewrite Ho.
    apply filters_hold_objective.
  - intros k Hk Hne.
    destruct (truthy (search_location query (requester w userId))) eqn:Hloc.
    + assert (Hor : matches (FOr (map (fun p => FRegex p k) keyword_paths)) d0
                    = true).
      { apply Hm. unfold search_filters. rewrite Hk.
        now apply filters_hold_keywords. }
      cbn [matches] in Hor. apply existsb_exists in Hor as [g [Hg Hgm]].
      apply in_map_iff in Hg as [p [<- Hp]]. eauto.
    + apply (Ht eq_refl k Hk Hne).
Qed.

(** A page holds no more profiles than the limit asked for, 10 when the
    limit is absent or 0; only the limit -1 lifts the bound. *)
Theorem page_holds_at_most_limit :
  forall query userId w resp w',
  get_users query userId w = (Return resp, w') ->
  q_limit query <> Some (-1) ->
  (List.length (response_data resp)
   <= Z.to_nat (or_default (q_limit query) USERS_PAGE_SIZE))%nat /\
  (q_limit query = None \/ q_limit query = Some 0 ->
   (List.length (response_data resp) <= 10)%nat).
Proof.
  intros query userId w resp w' H Hl.
  apply get_users_returns in H as [totals [data [_ [Hd [-> _]]]]].
  rewrite response_data_handler.
  destruct (aggregate_results_split _ _ _ _ _ _ _ Hd)
    as [ranked [pg [_ [Hp ->]]]].
  rewrite !length_map.
  destruct (pagination_length _ _ _ _ Hp) as [_ Hb]. specialize (Hb Hl).
  split; [exact Hb|].
  intros [E|E]; rewrite E in Hb; exact Hb.
Qed.


Lemma lookup_project_key : forall d items k v,
  lookup k (flat_map (project_item d) items) = Some v ->
  In k (map item_key items).
Proof.
  intros d items k v. induction items as [|it items IH]; simpl; [discriminate|].
  rewrite lookup_app. destruct (item_key it =? k)%string eqn:E.
  - intros _. left. now apply String.eqb_eq.
  - rewrite lookup_project_item_ne by exact E. intros H. right. auto.
Qed.

Lemma view_keys : forall d k v,
  prop (directory_view d) k = Some v -> In k directory_keys.
Proof.
  intros d k v H. destruct ("location" =? k)%string eqn:E.
  - apply String.eqb_eq in E. subst k. simpl. tauto.
  - unfold directory_view, project in H.
    rewrite prop_unset_path_ne in H by exact E.
    apply lookup_project_key in H. exact H.
Qed.

Lemma view_copied : forall d k,
  In k copied_keys -> prop (directory_view d) k = prop d k.
Proof.
  intros d k Hin. unfold directory_view, project.
  repeat (destruct Hin as [<-|Hin];
          [rewrite prop_unset_path_ne by reflexivity;
           rewrite lookup_project; simpl;
           match goal with
           | |- context [prop d ?key] => destruct (prop d key); reflexivity
           end|]).
  contradiction.
Qed.

(** A profile of a search result has no key beyond the eleven of the
    projection (no email, no distance, no notification preferences); the
    nine plain keys hold what the stored profile holds; and the location of
    a profile that does not hide its address is the stored location, less
    its coordinates. *)
Theorem results_show_listed_fields :
  forall query userId w resp w' x,
  get_users query userId w = (Return resp, w') ->
  In x (response_data resp) ->
  (forall k v, prop x k = Some v -> In k directory_keys) /\
  exists d0,
    In d0 (users w) /\
    (forall k, In k copied_keys -> prop x k = prop d0 k) /\
    (forall fs,
       cond_true (get_path ["hide"; "address"] d0) = false ->
       prop d0 "location" = Some (VObj fs) ->
       exists fs',
         prop x "location" = Some (VObj fs') /\
         lookup "coordinates" fs' = None /\
         forall k, k <> "coordinates" -> lookup k fs' = lookup k fs).
Proof.
  intros query userId w resp w' x H Hin.
  apply get_users_returns in H as [totals [data [_ [Hd [-> _]]]]].
  rewrite response_data_handler in Hin.
  destruct (search_results_from _ _ _ _ _ _ _ _ Hd Hin)
    as [d0 [d [Hd0 [_ [Hdd ->]]]]].
  split; [apply view_keys|]. exists d0. split; auto.
  assert (Hsame : forall k, k <> "distance" -> prop d k = prop d0 k).
  { intros k Hk. destruct Hdd as [->|[fs0 [v [-> ->]]]]; auto.
    simpl. now apply lookup_set_field_ne. }
  split.
  - intros k Hk. rewrite (view_copied d k Hk). apply Hsame.
    intros ->. simpl in Hk. intuition discriminate.
  - intros fs Hhide Hloc. rewrite view_location.
    assert (Hh : get_path ["hide"; "address"] d
                 = get_path ["hide"; "address"] d0).
    { cbn [get_path]. now rewrite Hsame by discriminate. }
    assert (Hl : get_path ["location"] d = Some (VObj fs)).
    { cbn [get_path]. rewrite Hsame by discriminate. now rewrite Hloc. }
    rewrite Hh, Hhide, Hl. cbn [option_map].
    eexists. split; [reflexivity|]. split.
    + apply (prop_unset_last "coordinates" (VObj fs)).
    + intros k Hk.
      apply (prop_unset_path_ne "coordinates" [] fs k).
      apply String.eqb_neq. congruence.
Qed.

(** A requester that cannot be read stops the search before any query: a
    failing lookup gives an internal error, an unknown requester a
    forbidden error, and a filter that parses to [null] an internal error;
    each time no aggregation is sent. *)
Theorem search_stops_before_querying :
  forall query id w,
  (fails (FindById Users (Some id)) = true ->
   get_users query (Some id) w =
   (Throw InternalServerError,
    logged "Failed retrieving user" (called (FindById Users (Some id)) w))) /\
  (fails (FindById Users (Some id)) = false ->
   findById (users w) (Some id) = None ->
   get_users query (Some id) w =
   (Throw Forbidden,
    logged "User does not exist" (called (FindById Users (Some id)) w))) /\
  (q_filter query = Some VNull ->
   get_users query None w = (Throw InternalServerError, w)).
Proof.
  intros query id w. repeat split.
  - intros Hf. unfold get_users. unfold bind at 1. unfold bind at 1.
    rewrite db_findById_run, Hf. reflexivity.
  - intros Hf Hu. unfold get_users. unfold bind at 1. unfold bind at 1.
    rewrite db_findById_run, Hf. cbn [coll]. rewrite Hu. reflexivity.
  - intros Hq. unfold get_users. rewrite Hq. reflexivity.
Qed.

End SearchMore.

(** ** More on the single-profile read *)

Section ProfileRead.
Context {C : Collaborators}.

Lemma prop_object_key : forall fs k v,
  prop (object fs) k = Some v -> In k (map fst fs).
Proof.
  intros fs k v. unfold object. cbn [prop].
  induction fs as [|[k0 o0] r IH]; cbn [flat_map map fst snd]; [discriminate|].
  rewrite lookup_app. destruct o0 as [v0|]; cbn [lookup].
  - destruct (k0 =? k)%string eqn:E.
    + intros _. left. now apply String.eqb_eq.
    + intros H. right. auto.
  - intros H. right. auto.
Qed.

Lemma prop_object : forall fs k o,
  NoDup (map fst fs) -> In (k, o) fs -> prop (object fs) k = o.
Proof.
  intros fs k o. unfold object. cbn [prop].
  induction fs as [|[k0 o0] r IH]; cbn [flat_map map fst snd]; [contradiction|].
  intros Hnd Hin. inversion Hnd as [|? ? Hk0 Hr]; subst.
  rewrite lookup_app. destruct Hin as [E|Hin].
  - injection E as -> ->. destruct o as [v|]; cbn [lookup].
    + now rewrite String.eqb_refl.
    + destruct (lookup k _) as [v|] eqn:El; auto.
      exfalso. apply Hk0. eapply prop_object_key. unfold object. cbn [prop].
      exact El.
  - assert (Hne : (k0 =? k)%string = false).
    { apply String.eqb_neq. intros ->. apply Hk0.
      apply in_map_iff. exists (k, o). auto. }
    destruct o0 as [v0|]; cbn [lookup]; [rewrite Hne|]; auto.
Qed.

Lemma get_user_by_id_shape : forall userId authUserId w resp w',
  get_user_by_id userId authUserId w = (Return resp, w') ->
  exists user location0 hide,
    findById (users w) (Some userId) = Some user /\
    prop user "location" = Some location0 /\
    prop user "hide" = Some hide /\
    resp = profile_of user
             (if truthy (prop hide "address") then VObj []
              else delete_prop location0 "coordinates")
             match authUserId with
             | Some a => has_id a user
             | None => false
             end.
Proof.
  intros userId authUserId w resp w' H. unfold get_user_by_id in H.
  apply bind_Return in H as [found [w1 [Hf H]]].
  apply await_findById_Return in Hf as [_ [-> ->]]. cbn [coll] in H.
  destruct (findById (users w) (Some userId)) as [user|]; [|discriminate].
  destruct (prop user "location") as [location0|] eqn:Hl; [|discriminate].
  exists user, location0.
  destruct location0; try discriminate;
    (apply bind_Return in H as [ha [w2 [Hm H]]];
     apply member_Return in Hm as [-> [hide [Hh [_ ->]]]];
     injection H as <- <-; exists hide; repeat split; auto).
Qed.

Lemma profile_keys_nodup : forall user location ownUser,
  NoDup (map fst
           [("about", prop user "about");
            ("firstName", prop user "firstName");
            ("id", prop user "_id");
            ("lastName", prop user "lastName");
            ("location", Some location);
            ("needs", prop user "needs");
            ("organisations", prop user "organisations");
            ("objectives", prop user "objectives");
            ("ownUser", Some (VBool ownUser));
            ("photo", prop user "photo");
            ("urls", prop user "urls");
            ("usesPassword",
             if ownUser then prop user "usesPassword" else None)]).
Proof.
  intros. cbn [map fst].
  repeat (constructor; [simpl; intuition discriminate|]). constructor.
Qed.

(** A single-profile read answers with no key beyond its twelve (no email,
    no notification preferences, no permissions); [ownUser] is true exactly
    when the viewer's id is the profile's id; and [usesPassword] is there
    for the owner only. *)
Theorem profile_read_shows_owner_fields_to_owner :
  forall userId authUserId w resp w',
  get_user_by_id userId authUserId w = (Return resp, w') ->
  exists user,
    findById (users w) (Some userId) = Some user /\
    (forall k v, prop resp k = Some v -> In k profile_keys) /\
    (prop resp "ownUser" = Some (VBool true) <->
     exists a, authUserId = Some a /\ prop user "_id" = Some a) /\
    (prop resp "ownUser" = Some (VBool true) \/
     prop resp "ownUser" = Some (VBool false)) /\
    (prop resp "ownUser" = Some (VBool true) ->
     prop resp "usesPassword" = prop user "usesPassword") /\
    (prop resp "ownUser" = Some (VBool false) ->
     prop resp "usesPassword" = None) /\
    prop resp "firstName" = prop user "firstName" /\
    prop resp "lastName" = prop user "lastName" /\
    prop resp "id" = prop user "_id".
Proof.
  intros userId authUserId w resp w' H.
  apply get_user_by_id_shape in H as [user [l0 [hide [Hu [_ [_ ->]]]]]].
  exists user. split; auto.
  set (own := match authUserId with Some a => has_id a user | None => false end).
  set (loc := if truthy (prop hide "address") then VObj []
              else delete_prop l0 "coordinates").
  assert (Hget : forall k o,
             In (k, o)
                [("about", prop user "about");
                 ("firstName", prop user "firstName");
                 ("id", prop user "_id");
                 ("lastName", prop user "lastName");
                 ("location", Some loc);
                 ("needs", prop user "needs");
                 ("organisations", prop user "organisations");
                 ("objectives", prop user "objectives");
                 ("ownUser", Some (VBool own));
                 ("photo", prop user "photo");
                 ("urls", prop user "urls");
                 ("usesPassword",
                  if own then prop user "usesPassword" else None)] ->
             prop (profile_of user loc own) k = o).
  { intros k o Hin. apply prop_object; auto. apply profile_keys_nodup. }
  assert (Hown : prop (profile_of user loc own) "ownUser" = Some (VBool own))
    by (apply Hget; simpl; tauto).
  assert (Hpw : prop (profile_of user loc own) "usesPassword"
                = if own then prop user "usesPassword" else None)
    by (apply Hget; simpl; tauto).
  rewrite Hown, Hpw.
  split; [intros k v Hk; apply prop_object_key in Hk; exact Hk|].
  split.
  { split.
    - intros E. injection E as E. subst own.
      destruct authUserId as [a|]; [|discriminate]. exists a. split; auto.
      unfold has_id in E. destruct (prop user "_id") as [x|]; [|discriminate].
      apply value_eqb_eq in E. now subst.
    - intros [a [-> Ha]]. subst own. unfold has_id. rewrite Ha.
      now rewrite value_eqb_refl. }
  split; [destruct own; auto|].
  split; [intros E; injection E as ->; reflexivity|].
  split; [intros E; injection E as ->; reflexivity|].
  repeat split; apply Hget; simpl; tauto.
Qed.

(** The location of a single-profile read is the empty object when the
    profile hides its address, and the stored location less its
    coordinates otherwise. *)
Theorem profile_read_location :
  forall userId authUserId w resp w',
  get_user_by_id userId authUserId w = (Return resp, w') ->
  exists user location0 hide,
    findById (users w) (Some userId) = Some user /\
    prop user "location" = Some location0 /\
    prop user "hide" = Some hide /\
    (truthy (prop hide "address") = true ->
     prop resp "location" = Some (VObj [])) /\
    (truthy (prop hide "address") = false ->
     exists location,
       prop resp "location" = Some location /\
       prop location "coordinates" = None /\
       forall k, k <> "coordinates" -> prop location k = prop location0 k).
Proof.
  intros userId authUserId w resp w' H.
  apply get_user_by_id_shape in H as [user [l0 [hide [Hu [Hl [Hh ->]]]]]].
  exists user, l0, hide. repeat split; auto.
  - intros Ht. rewrite Ht. apply prop_object; [apply profile_keys_nodup|].
    simpl. tauto.
  - intros Ht. rewrite Ht. exists (delete_prop l0 "coordinates").
    split; [apply prop_object; [apply profile_keys_nodup|simpl; tauto]|].
    split; [apply prop_delete_prop|].
    intros k Hk. destruct l0; simpl; auto.
    now apply lookup_remove_field_ne.
Qed.

(** A single-profile read of an id that is not stored is a not-found
    error; a stored profile without a location, or without the [hide]
    document, makes the read fail with an internal error. *)
Theorem profile_read_errors :
  forall userId authUserId w,
  fails (FindById Users (Some userId)) = false ->
  (findById (users w) (Some userId) = None ->
   fst (get_user_by_id userId authUserId w) = Throw NotFound) /\
  (forall user,
     findById (users w) (Some userId) = Some user ->
     prop user "location" = None \/ prop user "location" = Some VNull ->
     fst (get_user_by_id userId authUserId w) = Throw InternalServerError) /\
  (forall user location0,
     findById (users w) (Some userId) = Some user ->
     prop user "location" = Some location0 -> location0 <> VNull ->
     prop user "hide" = None \/ prop user "hide" = Some VNull ->
     fst (get_user_by_id userId authUserId w) = Throw InternalServerError).
Proof.
  intros userId authUserId w Hf.
  assert (Hstart : forall k : option value -> M value,
             bind (await (db_findById Users (Some userId))) k w =
             k (findById (users w) (Some userId))
               (called (FindById Users (Some userId)) w)).
  { intros k. unfold await. unfold bind at 1. unfold bind at 1.
    rewrite db_findById_run, Hf. reflexivity. }
  repeat split.
  - intros Hu. unfold get_user_by_id. rewrite Hstart, Hu. reflexivity.
  - intros user Hu Hl. unfold get_user_by_id. rewrite Hstart, Hu.
    destruct Hl as [-> | ->]; reflexivity.
  - intros user l0 Hu Hl Hn Hh. unfold get_user_by_id. rewrite Hstart, Hu, Hl.
    destruct l0; try contradiction;
      destruct Hh as [-> | ->]; reflexivity.
Qed.

End ProfileRead.

(** ** More on the profile update *)

Section PatchMore.
Context {C : Collaborators}.

Lemma lookup_not_in : forall k fs, ~ In k (map fst fs) -> lookup k fs = None.
Proof.
  intros k fs. induction fs as [|[k0 x] r IH]; simpl; auto.
  intros H. destruct (k0 =? k)%string eqn:E.
  - apply String.eqb_eq in E. exfalso. auto.
  - apply IH. auto.
Qed.

(** [Object.assign]: a key of the source takes the source's value, every
    other key keeps the target's. *)
Lemma lookup_assign : forall source target k,
  NoDup (map fst source) ->
  lookup k (assign target source) =
  match lookup k source with
  | Some v => Some v
  | None => lookup k target
  end.
Proof.
  unfold assign. induction source as [|[k0 v0] r IH]; intros target k Hnd;
    cbn [fold_left fst snd]; auto.
  inversion Hnd as [|? ? Hk0 Hr]; subst. rewrite IH by exact Hr.
  cbn [lookup]. destruct (k0 =? k)%string eqn:E.
  - apply String.eqb_eq in E. subst k0.
    rewrite (lookup_not_in k r Hk0). apply lookup_set_field_eq.
  - destruct (lookup k r); auto. apply lookup_set_field_ne.
    apply String.eqb_neq in E. congruence.
Qed.

Lemma find_store_doc : forall id doc coll u,
  find (has_id id) coll = Some u -> has_id id doc = true ->
  find (has_id id) (store_doc id doc coll) = Some doc.
Proof.
  intros id doc coll u. unfold store_doc.
  induction coll as [|d coll IH]; cbn [find map]; [discriminate|].
  intros H Hdoc. destruct (has_id id d) eqn:E.
  - now rewrite Hdoc.
  - rewrite E. auto.
Qed.

Lemma nth_store_doc : forall id doc coll i d,
  nth_error coll i = Some d -> has_id id d = false ->
  nth_error (store_doc id doc coll) i = Some d.
Proof.
  intros id doc coll i d Hn Hd. unfold store_doc.
  rewrite nth_error_map, Hn. cbn [option_map]. now rewrite Hd.
Qed.

(** A profile update that succeeds returns the stored profile with the
    fields of the body written over it: a key of the body takes the body's
    value, every other key keeps the stored one. The profile is stored
    under its id, and the other profiles stay where they are. *)
Theorem patch_merges_body :
  forall userId body w user,
  fails (FindById Users (Some userId)) = false ->
  findById (users w) (Some userId) = Some user ->
  let updatedUser := VObj (assign (fields_of user) body) in
  fails (Save updatedUser) = false ->
  NoDup (map fst body) ->
  exists w',
    patch_current userId body w = (Return updatedUser, w') /\
    (forall k, prop updatedUser k =
               match lookup k body with
               | Some v => Some v
               | None => prop user k
               end) /\
    (lookup "_id" body = None ->
     findById (users w') (Some userId) = Some updatedUser) /\
    List.length (users w') = List.length (users w) /\
    (forall i d, nth_error (users w) i = Some d -> has_id userId d = false ->
                 nth_error (users w') i = Some d).
Proof.
  intros userId body w user Hf Hu updatedUser Hs Hnd.
  destruct (patch_current_run userId body w user Hf Hu Hs)
    as [w' [Hrun [Hus _]]].
  exists w'. split; [exact Hrun|].
  assert (Hprop : forall k, prop updatedUser k =
                            match lookup k body with
                            | Some v => Some v
                            | None => prop user k
                            end).
  { intros k. subst updatedUser. cbn [prop]. rewrite lookup_assign by exact Hnd.
    destruct (lookup k body); auto. destruct user; reflexivity. }
  split; [exact Hprop|]. rewrite Hus. split; [|split].
  - intros Hid. cbn [findById] in *. eapply find_store_doc; eauto.
    apply find_some in Hu as [_ Hh]. unfold has_id in *.
    rewrite Hprop, Hid. exact Hh.
  - unfold store_doc. apply length_map.
  - intros i d Hn Hd. now apply nth_store_doc.
Qed.

(** A profile update that cannot read or save the profile stops there:
    an internal error when the lookup fails, a not-found error when the
    profile is not stored, an internal error when the save fails; the
    collections are unchanged and no update of posts, comments or threads
    is sent. *)
Theorem patch_errors_change_nothing :
  forall userId body w,
  (fails (FindById Users (Some userId)) = true ->
   patch_current userId body w =
   (Throw InternalServerError,
    logged "Failed retrieving user userId="
      (called (FindById Users (Some userId)) w))) /\
  (fails (FindById Users (Some userId)) = false ->
   findById (users w) (Some userId) = None ->
   patch_current userId body w =
   (Throw NotFound, called (FindById Users (Some userId)) w)) /\
  (forall user,
     fails (FindById Users (Some userId)) = false ->
     findById (users w) (Some userId) = Some user ->
     fails (Save (VObj (assign (fields_of user) body))) = true ->
     patch_current userId body w =
     (Throw InternalServerError,
      logged "Failed updating user"
        (called (Save (VObj (assign (fields_of user) body)))
           (called (FindById Users (Some userId)) w)))).
Proof.
  intros userId body w. repeat split.
  - intros Hf. unfold patch_current. unfold bind at 1.
    rewrite db_findById_run, Hf. reflexivity.
  - intros Hf Hu. unfold patch_current. unfold bind at 1.
    rewrite db_findById_run, Hf. cbn [coll]. rewrite Hu. reflexivity.
  - intros user Hf Hu Hs. unfold patch_current. unfold bind at 1.
    rewrite db_findById_run, Hf. cbn [coll]. rewrite Hu. cbv beta iota.
    unfold bind at 1. rewrite db_save_run, Hs. reflexivity.
Qed.

(** *** What the fan-out writes *)

Lemma set_author_field : forall afs key v fs a,
  lookup "author" fs = Some (VObj a) ->
  set_upath afs [UKey "author"; UKey key] v (VObj fs) =
  VObj (set_field "author" (VObj (set_field key v a)) fs).
Proof.
  intros afs key v fs a H. cbn [set_upath]. rewrite H.
  destruct (lookup key a); reflexivity.
Qed.

Lemma apply_author_ops : forall kvs fs a,
  lookup "author" fs = Some (VObj a) ->
  exists fs',
    apply_sets [] (author_ops kvs) (VObj fs) = VObj fs' /\
    lookup "author" fs' = Some (VObj (assign a (sent kvs))) /\
    forall k, k <> "author" -> lookup k fs' = lookup k fs.
Proof.
  unfold apply_sets, assign.
  induction kvs as [|[k v] kvs IH]; intros fs a Ha;
    cbn [author_ops sent map fold_left fst snd].
  - exists fs. auto.
  - rewrite (set_author_field [] k (to_bson v) fs a Ha).
    destruct (IH (set_field "author" (VObj (set_field k (to_bson v) a)) fs)
                 (set_field k (to_bson v) a) (lookup_set_field_eq _ _ _))
      as [fs' [E [Hl Hk]]].
    exists fs'. split; [exact E|]. split; [exact Hl|].
    intros k' Hk'. rewrite Hk by exact Hk'. now apply lookup_set_field_ne.
Qed.

Lemma updated_author_refs : forall c id kvs l,
  fails (author_refs_call c id (author_ops kvs)) = false ->
  NoDup (map fst kvs) ->
  Forall2 (snapshot_written (to_bson id) kvs) l
    (updated (author_refs_call c id (author_ops kvs)) l).
Proof.
  intros c id kvs l Hf Hnd. unfold updated, author_refs_call in *. rewrite Hf.
  unfold updateMany. induction l as [|d l IH]; cbn [map]; constructor; auto.
  unfold snapshot_written.
  destruct (matches (FEq ["author"; "id"] (to_bson id)) d) eqn:E.
  - split; [discriminate|]. intros _ fs a -> Ha.
    destruct (apply_author_ops kvs fs a Ha) as [fs' [-> [Hl Hk]]].
    split; [intros k Hk'; cbn [prop]; auto|].
    intros k. cbn [get_path prop]. rewrite Hl. cbn [prop].
    destruct (lookup k (assign a (sent kvs))) eqn:El;
      rewrite lookup_assign in El
        by (unfold sent; rewrite map_map; exact Hnd);
      rewrite El; reflexivity.
  - split; [reflexivity|discriminate].
Qed.

Lemma patch_updateOps_fields : forall body u,
  patch_updateOps body u = author_ops (patch_author_fields body u).
Proof.
  intros body u. unfold patch_updateOps, patch_author_fields.
  destruct (truthy (lookup "firstName" body) || truthy (lookup "lastName" body));
    destruct (truthy (lookup "photo" body)); reflexivity.
Qed.

Lemma patch_author_fields_nodup : forall body u,
  NoDup (map fst (patch_author_fields body u)).
Proof.
  intros body u. unfold patch_author_fields.
  destruct (truthy (lookup "firstName" body) || truthy (lookup "lastName" body));
    destruct (truthy (lookup "photo" body)); cbn;
    repeat (constructor; [simpl; intuition discriminate|]); constructor.
Qed.

(** After a profile update that propagates, a post or a comment of the
    profile carries the new name in [author.name] when the body held a
    first or a last name, and the new photo in [author.photo] when the body
    held a photo; its other author fields and its other fields, and every
    document of another author, are as they were. This holds for each of
    the two collections whose update did not fail. *)
Theorem patch_rewrites_author_snapshots :
  forall userId body w user,
  fails (FindById Users (Some userId)) = false ->
  findById (users w) (Some userId) = Some user ->
  let updatedUser := VObj (assign (fields_of user) body) in
  fails (Save updatedUser) = false ->
  triggers body = true ->
  let id := prop updatedUser "_id" in
  let kvs := patch_author_fields body updatedUser in
  exists w',
    patch_current userId body w = (Return updatedUser, w') /\
    (fails (author_refs_call Posts id (author_ops kvs)) = false ->
     Forall2 (snapshot_written (to_bson id) kvs) (posts w) (posts w')) /\
    (fails (author_refs_call Comments id (author_ops kvs)) = false ->
     Forall2 (snapshot_written (to_bson id) kvs) (comments w) (comments w')) /\
    lookup "name" (sent kvs) =
      (if truthy (lookup "firstName" body) || truthy (lookup "lastName" body)
       then Some (to_bson (display_name updatedUser)) else None) /\
    lookup "photo" (sent kvs) =
      (if truthy (lookup "photo" body)
       then Some (to_bson (prop updatedUser "photo")) else None) /\
    (forall k, k <> "name" -> k <> "photo" -> lookup k (sent kvs) = None).
Proof.
  intros userId body w user Hf Hu updatedUser Hs Htrig id kvs.
  destruct (patch_current_run userId body w user Hf Hu Hs)
    as [w' [Hrun [_ [Hp [Hc _]]]]].
  rewrite Htrig in *. rewrite patch_updateOps_fields in *.
  exists w'. split; [exact Hrun|]. fold updatedUser id kvs in Hp, Hc.
  split; [|split].
  - intros Hfp. rewrite Hp. apply updated_author_refs; auto.
    apply patch_author_fields_nodup.
  - intros Hfc. rewrite Hc. apply updated_author_refs; auto.
    apply patch_author_fields_nodup.
  - subst kvs. unfold patch_author_fields, sent.
    destruct (truthy (lookup "firstName" body) || truthy (lookup "lastName" body));
      destruct (truthy (lookup "photo" body)); cbn [app map fst snd lookup];
      (split; [reflexivity|]); (split; [reflexivity|]);
      intros k Hn Hp';
      repeat match goal with
             | |- context [String.eqb ?a ?b] =>
                 let E := fresh in
                 destruct (String.eqb a b) eqn:E;
                 [apply String.eqb_eq in E; congruence|]
             end; reflexivity.
Qed.

End PatchMore.

(** ** More on the fan-out: threads and the avatar routes *)

Section FanOutMore.
Context {C : Collaborators}.

Lemma set_entry_field : forall afs k v pf,
  set_upath afs [UKey k] v (VObj pf) = VObj (set_field k v pf).
Proof. intros afs k v pf. cbn [set_upath]. destruct (lookup k pf); reflexivity. Qed.

Lemma is_entry_set_field : forall id k v pf,
  k <> "id" ->
  is_entry_of id (VObj (set_field k v pf)) = is_entry_of id (VObj pf).
Proof.
  intros id k v pf Hk. unfold is_entry_of. cbn [matches path_values].
  rewrite lookup_set_field_ne by congruence. reflexivity.
Qed.

Lemma apply_participant_sets : forall id kvs tf ps,
  (forall kv, In kv kvs -> fst kv <> "id") ->
  lookup "participants" tf = Some (VArr ps) ->
  exists tf' ps',
    apply_sets [("userToUpdate", FEq ["id"] id)] (participant_sets kvs) (VObj tf)
    = VObj tf' /\
    lookup "participants" tf' = Some (VArr ps') /\
    forall i pf,
      nth_error ps i = Some (VObj pf) -> is_entry_of id (VObj pf) = true ->
      nth_error ps' i = Some (VObj (assign pf (sent kvs))).
Proof.
  unfold apply_sets, assign.
  induction kvs as [|[k v] kvs IH]; intros tf ps Hk Hl;
    cbn [participant_sets sent map fold_left fst snd].
  - exists tf, ps. auto.
  - assert (Hstep : exists g,
               set_upath [("userToUpdate", FEq ["id"] id)]
                 [UKey "participants"; UEach "userToUpdate"; UKey k]
                 (to_bson v) (VObj tf)
               = VObj (set_field "participants" (VArr (map g ps)) tf) /\
               forall pf, is_entry_of id (VObj pf) = true ->
                          g (VObj pf) = VObj (set_field k (to_bson v) pf)).
    { eexists. split.
      - cbn [set_upath]. rewrite Hl. reflexivity.
      - intros pf He. cbn [existsb fst snd]. unfold is_entry_of in He.
        rewrite He. rewrite String.eqb_refl. cbn [andb orb].
        destruct (lookup k pf); reflexivity. }
    destruct Hstep as [g [-> Hg]].
    destruct (IH (set_field "participants" (VArr (map g ps)) tf) (map g ps))
      as [tf' [ps' [E [Hl' Hn']]]].
    + intros kv Hin. apply Hk. now right.
    + apply lookup_set_field_eq.
    + exists tf', ps'. split; [exact E|]. split; [exact Hl'|].
      intros i pf Hn He.
      apply (Hn' i (set_field k (to_bson v) pf)).
      * rewrite nth_error_map, Hn. cbn [option_map]. now rewrite Hg.
      * rewrite is_entry_set_field; [exact He|].
        apply (Hk (k, v)). now left.
Qed.

Lemma updated_participants : forall id kvs l,
  fails (participants_call id kvs) = false ->
  (forall kv, In kv kvs -> fst kv <> "id") ->
  Forall2 (entries_written (to_bson id) kvs) l
    (updated (participants_call id kvs) l).
Proof.
  intros id kvs l Hf Hk. unfold updated, participants_call in *. rewrite Hf.
  unfold updateMany. induction l as [|t l IH]; cbn [map]; constructor; auto.
  unfold entries_written. intros tf ps -> Hl Hm. rewrite Hm.
  destruct (apply_participant_sets (to_bson id) kvs tf ps Hk Hl)
    as [tf' [ps' [-> [Hl' Hn]]]].
  exists ps'. split; [exact Hl'|exact Hn].
Qed.

(** After a profile update that propagates and whose update of the threads
    did not fail, every participant entry of the profile in a thread holds
    the new display name and the stored photo, both of them whichever of
    the name and the photo the body held; the other fields of the entry are
    as they were. *)
Theorem patch_rewrites_thread_entries :
  forall userId body w user,
  fails (FindById Users (Some userId)) = false ->
  findById (users w) (Some userId) = Some user ->
  let updatedUser := VObj (assign (fields_of user) body) in
  fails (Save updatedUser) = false ->
  triggers body = true ->
  let id := prop updatedUser "_id" in
  let kvs := [("name", display_name updatedUser);
              ("photo", prop updatedUser "photo")] in
  fails (participants_call id kvs) = false ->
  exists w',
    patch_current userId body w = (Return updatedUser, w') /\
    Forall2 (entries_written (to_bson id) kvs) (threads w) (threads w') /\
    forall pf,
      prop (VObj (assign pf (sent kvs))) "name"
        = Some (to_bson (display_name updatedUser)) /\
      prop (VObj (assign pf (sent kvs))) "photo"
        = Some (to_bson (prop updatedUser "photo")) /\
      forall k, k <> "name" -> k <> "photo" ->
                prop (VObj (assign pf (sent kvs))) k = lookup k pf.
Proof.
  intros userId body w user Hf Hu updatedUser Hs Htrig id kvs Hft.
  destruct (patch_current_run userId body w user Hf Hu Hs)
    as [w' [Hrun [_ [_ [_ [Ht _]]]]]].
  rewrite Htrig in Ht. exists w'. split; [exact Hrun|]. split.
  - rewrite Ht. apply updated_participants; [exact Hft|].
    intros kv [<-|[<-|[]]]; discriminate.
  - intros pf. unfold kvs, sent, assign.
    cbn [map fold_left fst snd prop]. repeat split.
    + rewrite lookup_set_field_ne by discriminate. apply lookup_set_field_eq.
    + apply lookup_set_field_eq.
    + intros k Hn Hp. rewrite !lookup_set_field_ne by congruence. reflexivity.
Qed.

Lemma upload_sets_nodup : forall photo : value,
  NoDup (map fst [("photo", Some photo)]).
Proof. intros photo. repeat constructor. simpl. tauto. Qed.

(** An avatar upload or deletion that settles stores the new photo (the
    reference the upload gave, or null for a deletion) in the profile and
    leaves the other fields of the profile as they were; every post and
    comment of the profile, and every participant entry of the profile in a
    thread, then holds that photo, for each collection whose update did not
    fail, with the author name and the other fields untouched. *)
Theorem avatar_photo_reaches_all_copies :
  forall userId file w user photo,
  fails (FindById Users (Some userId)) = false ->
  findById (users w) (Some userId) = Some user ->
  avatar_photo userId file = Some photo ->
  let updatedUser := VObj (set_field "photo" photo (fields_of user)) in
  fails (Save updatedUser) = false ->
  let id := prop updatedUser "_id" in
  let kvs := [("photo", Some photo)] in
  exists w',
    updateUserAvatar userId file w =
      (Return (VObj [("updatedUser", updatedUser)]), w') /\
    findById (users w') (Some userId) = Some updatedUser /\
    prop updatedUser "photo" = Some photo /\
    (forall k, k <> "photo" -> prop updatedUser k = prop user k) /\
    (fails (author_refs_call Posts id (author_ops kvs)) = false ->
     Forall2 (snapshot_written (to_bson id) kvs) (posts w) (posts w')) /\
    (fails (author_refs_call Comments id (author_ops kvs)) = false ->
     Forall2 (snapshot_written (to_bson id) kvs) (comments w) (comments w')) /\
    (fails (participants_call id kvs) = false ->
     Forall2 (entries_written (to_bson id) kvs) (threads w) (threads w')).
Proof.
  intros userId file w user photo Hf Hu Hph updatedUser Hs id kvs.
  destruct (updateUserAvatar_run userId file w user photo Hf Hu Hph Hs)
    as [w' [Hrun [Husers [Hp [Hc [Ht _]]]]]].
  exists w'. split; [exact Hrun|].
  assert (Hid : has_id userId user = true).
  { cbn [findById] in Hu. apply find_some in Hu. tauto. }
  assert (Huser : user = VObj (fields_of user)).
  { unfold has_id in Hid. destruct user; try discriminate. reflexivity. }
  split; [|split; [|split; [|split; [|split]]]].
  - rewrite Husers. cbn [findById]. apply find_store_doc with (u := user).
    + exact Hu.
    + unfold has_id in *. rewrite Huser in Hid. cbn [prop] in *.
      unfold updatedUser. cbn [prop].
      rewrite lookup_set_field_ne by discriminate. exact Hid.
  - apply lookup_set_field_eq.
  - intros k Hk. unfold updatedUser. cbn [prop].
    rewrite lookup_set_field_ne by exact Hk. now destruct user.
  - intros Hfp. rewrite Hp. apply updated_author_refs; auto.
    apply upload_sets_nodup.
  - intros Hfc. rewrite Hc. apply updated_author_refs; auto.
    apply upload_sets_nodup.
  - intros Hft. rewrite Ht. apply updated_participants; [exact Hft|].
    intros kv [<-|[]]; discriminate.
Qed.

(** *** The paths of [updateUserAvatar] that do not settle *)

Lemma avatar_find_fails : forall userId file w,
  fails (FindById Users (Some userId)) = true ->
  updateUserAvatar userId file w =
  (Pending, logged "Failed retrieving user userId="
              (called (FindById Users (Some userId)) w)).
Proof.
  intros userId file w Hf. unfold updateUserAvatar. unfold bind at 1.
  rewrite db_findById_run, Hf. reflexivity.
Qed.

Lemma avatar_not_found : forall userId file w,
  fails (FindById Users (Some userId)) = false ->
  findById (users w) (Some userId) = None ->
  updateUserAvatar userId file w =
  (Pending, called (FindById Users (Some userId)) w).
Proof.
  intros userId file w Hf Hu. unfold updateUserAvatar. unfold bind at 1.
  rewrite db_findById_run, Hf. cbn [coll]. rewrite Hu. reflexivity.
Qed.

Lemma avatar_upload_throws : forall userId file w user,
  fails (FindById Users (Some userId)) = false ->
  findById (users w) (Some userId) = Some user ->
  avatar_photo userId file = None ->
  updateUserAvatar userId file w =
  (Pending, logged "Failed updating user avatar."
              (called (Upload userId (to_bson file))
                 (called (FindById Users (Some userId)) w))).
Proof.
  intros userId file w user Hf Hu Hph. unfold updateUserAvatar.
  unfold bind at 1. rewrite db_findById_run, Hf. cbn [coll]. rewrite Hu.
  cbv beta iota. unfold avatar_photo in Hph.
  destruct (truthy file); [|discriminate].
  unfold bind, record_call, ret. rewrite Hph. reflexivity.
Qed.

Lemma avatar_save_fails : forall userId file w user photo,
  fails (FindById Users (Some userId)) = false ->
  findById (users w) (Some userId) = Some user ->
  avatar_photo userId file = Some photo ->
  fails (Save (VObj (set_field "photo" photo (fields_of user)))) = true ->
  exists w',
    updateUserAvatar userId file w = (Pending, w') /\
    stores w' = stores w /\
    trace w' =
      trace w ++ [FindById Users (Some userId)] ++ upload_calls userId file
              ++ [Save (VObj (set_field "photo" photo (fields_of user)))].
Proof.
  intros userId file w user photo Hf Hu Hph Hs. unfold updateUserAvatar.
  unfold bind at 1. rewrite db_findById_run, Hf. cbn [coll]. rewrite Hu.
  cbv beta iota. unfold avatar_photo, upload_calls in *.
  destruct (truthy file).
  - unfold bind at 1. unfold bind at 1. unfold record_call, ret.
    rewrite Hph. cbv beta iota.
    unfold bind at 1. rewrite db_save_run, Hs. cbv beta iota.
    eexists. split; [reflexivity|]. split; [reflexivity|].
    cbn. now rewrite <- !app_assoc.
  - injection Hph as <-. unfold bind at 1. unfold ret at 1. cbv beta iota.
    unfold bind at 1. rewrite db_save_run, Hs. cbv beta iota.
    eexists. split; [reflexivity|]. split; [reflexivity|].
    cbn. now rewrite <- !app_assoc.
Qed.

(** [updateUserAvatar] never answers with an error. It stays pending
    exactly when the lookup fails, the profile is not stored, the upload
    throws or the save fails; then the four collections are as they were
    and no update of posts, comments or threads has been sent. *)
Theorem avatar_failure_never_answers :
  forall userId file w,
  (forall e, fst (updateUserAvatar userId file w) <> Throw e) /\
  (fst (updateUserAvatar userId file w) = Pending <->
     fails (FindById Users (Some userId)) = true \/
     findById (users w) (Some userId) = None \/
     avatar_photo userId file = None \/
     exists user photo,
       findById (users w) (Some userId) = Some user /\
       avatar_photo userId file = Some photo /\
       fails (Save (VObj (set_field "photo" photo (fields_of user)))) = true) /\
  (fst (updateUserAvatar userId file w) = Pending ->
     stores (snd (updateUserAvatar userId file w)) = stores w /\
     forall c, In c (trace (snd (updateUserAvatar userId file w))) ->
               is_update c = true -> In c (trace w)).
Proof.
  intros userId file w.
  destruct (fails (FindById Users (Some userId))) eqn:Hf.
  { rewrite (avatar_find_fails userId file w Hf). cbn [fst snd].
    split; [discriminate|]. split; [tauto|]. intros _. split; [reflexivity|].
    cbn [trace logged called]. intros c Hin Hc.
    apply in_app_or in Hin. destruct Hin as [Hin|[<-|[]]]; [exact Hin|discriminate]. }
  destruct (findById (users w) (Some userId)) as [user|] eqn:Hu.
  2:{ rewrite (avatar_not_found userId file w Hf Hu). cbn [fst snd].
      split; [discriminate|]. split; [tauto|]. intros _. split; [reflexivity|].
      cbn [trace called]. intros c Hin Hc.
      apply in_app_or in Hin. destruct Hin as [Hin|[<-|[]]]; [exact Hin|discriminate]. }
  destruct (avatar_photo userId file) as [photo|] eqn:Hph.
  2:{ rewrite (avatar_upload_throws userId file w user Hf Hu Hph). cbn [fst snd].
      split; [discriminate|]. split; [tauto|]. intros _. split; [reflexivity|].
      cbn [trace logged called]. intros c Hin Hc.
      apply in_app_or in Hin. destruct Hin as [Hin|[<-|[]]]; [|discriminate].
      apply in_app_or in Hin. destruct Hin as [Hin|[<-|[]]]; [exact Hin|discriminate]. }
  destruct (fails (Save (VObj (set_field "photo" photo (fields_of user))))) eqn:Hs.
  - destruct (avatar_save_fails userId file w user photo Hf Hu Hph Hs)
      as [w' [-> [Hst Htr]]]. cbn [fst snd].
    split; [discriminate|]. split.
    + split; [|reflexivity]. intros _. right. right. right.
      exists user, photo. auto.
    + intros _. split; [exact Hst|]. rewrite Htr. intros c Hin Hc.
      apply in_app_or in Hin. destruct Hin as [Hin|Hin]; [exact Hin|].
      cbn [app] in Hin. destruct Hin as [<-|Hin]; [discriminate|].
      apply in_app_or in Hin. unfold upload_calls in Hin.
      destruct Hin as [Hin|[<-|[]]]; [|discriminate].
      destruct (truthy file); [|destruct Hin].
      destruct Hin as [<-|[]]. discriminate.
  - destruct (updateUserAvatar_run userId file w user photo Hf Hu Hph Hs)
      as [w' [-> _]]. cbn [fst snd].
    split; [discriminate|]. split; [|discriminate].
    split; [discriminate|].
    intros [H|[H|[H|[u [ph [H1 [H2 H3]]]]]]]; try discriminate.
    injection H1 as <-. injection H2 as <-. congruence.
Qed.

End FanOutMore.

(** ** Creating a profile and setting permissions *)

Section CreateAndAdmin.
Context {C : Collaborators}.

Lemma lookup_with_prop_eq : forall k x fs, lookup k (with_prop k x fs) = x.
Proof.
  intros k [v|] fs; cbn [with_prop].
  - apply lookup_set_field_eq.
  - apply lookup_remove_field_eq.
Qed.

Lemma lookup_with_prop_ne : forall k k' x fs,
  k' <> k -> lookup k' (with_prop k x fs) = lookup k' fs.
Proof.
  intros k k' [v|] fs Hk; cbn [with_prop].
  - now apply lookup_set_field_ne.
  - now apply lookup_remove_field_ne.
Qed.

Lemma find_app_new : forall id doc coll,
  find (has_id id) coll = None -> has_id id doc = true ->
  find (has_id id) (coll ++ [doc]) = Some doc.
Proof.
  intros id doc coll Hn Hd. induction coll as [|d coll IH]; cbn [app find].
  - now rewrite Hd.
  - cbn [find] in Hn. destruct (has_id id d); [discriminate|]. auto.
Qed.

Lemma db_create_run : forall doc w,
  db_create doc w =
  (Return (if fails (Save doc) then Failed else Done doc),
   if fails (Save doc) then called (Save doc) w
   else set_coll Users (users w ++ [doc]) (called (Save doc) w)).
Proof.
  intros doc w. unfold db_create, bind, record_call.
  destruct (fails (Save doc)); reflexivity.
Qed.

(** A profile is created with the identity of the session, whatever the
    body says: its [_id] is the id of the request, its [authId] the subject
    of the token and its [email] the verified address, and every other
    field is the body's. The new document joins the profiles, the ones
    there stay, a lookup by the id finds it, and the answer is the
    document with an empty list of organisations. *)
Theorem created_profile_identity :
  forall a userId sub body w,
  truthy (a_email_verified a) = true ->
  fails (FindById Users (Some userId)) = false ->
  findById (users w) (Some userId) = None ->
  let doc := VObj (with_prop "email" (a_email a)
                     (with_prop "authId" sub
                        (with_prop "_id" (Some userId) body))) in
  fails (Save doc) = false ->
  exists w',
    post_users (Done a) (Some userId) sub body w =
      (Return (VObj (set_field "organisations" (VArr []) (fields_of doc))), w') /\
    prop doc "_id" = Some userId /\
    prop doc "authId" = sub /\
    prop doc "email" = a_email a /\
    (forall k, k <> "_id" -> k <> "authId" -> k <> "email" ->
               prop doc k = lookup k body) /\
    users w' = users w ++ [doc] /\
    findById (users w') (Some userId) = Some doc /\
    posts w' = posts w /\ comments w' = comments w /\ threads w' = threads w.
Proof.
  intros a userId sub body w Hv Hf Hu doc Hs.
  unfold post_users. unfold await at 1. unfold bind at 1. unfold bind at 1.
  unfold ret at 1. cbv beta iota. unfold ret at 1. rewrite Hv. cbn [negb].
  unfold await at 1. unfold bind at 1. unfold bind at 1.
  rewrite db_findById_run, Hf. cbn [coll]. rewrite Hu. cbv beta iota.
  unfold ret at 1. cbv beta iota.
  unfold await at 1. unfold bind at 1. unfold bind at 1.
  rewrite db_create_run. fold doc. rewrite Hs. cbv beta iota.
  unfold ret at 1. cbv beta iota.
  eexists. split; [reflexivity|].
  assert (Hid : prop doc "_id" = Some userId).
  { unfold doc. cbn [prop].
    rewrite !lookup_with_prop_ne by discriminate. apply lookup_with_prop_eq. }
  split; [exact Hid|]. split.
  { unfold doc. cbn [prop]. rewrite lookup_with_prop_ne by discriminate.
    apply lookup_with_prop_eq. }
  split.
  { unfold doc. cbn [prop]. apply lookup_with_prop_eq. }
  split.
  { intros k H1 H2 H3. unfold doc. cbn [prop].
    now rewrite !lookup_with_prop_ne by assumption. }
  split; [reflexivity|]. split; [|repeat split].
  cbn [findById users set_coll called] in *. apply find_app_new; [exact Hu|].
  unfold has_id. rewrite Hid. apply value_eqb_refl.
Qed.

(** A profile is not created: when the address is not verified, the answer
    is a forbidden error, before the id is looked at; without an id, an
    internal error with a log line; when a profile of the id is stored, a
    conflict. In each case the collections are as they were. *)
Theorem create_refusals :
  forall a userId sub body w,
  (truthy (a_email_verified a) = false ->
   post_users (Done a) userId sub body w = (Throw Forbidden, w)) /\
  (truthy (a_email_verified a) = true -> userId = None ->
   post_users (Done a) userId sub body w =
   (Throw InternalServerError,
    logged "No userId for create user, invalid configuration" w)) /\
  (forall id u,
     truthy (a_email_verified a) = true -> userId = Some id ->
     fails (FindById Users (Some id)) = false ->
     findById (users w) (Some id) = Some u ->
     post_users (Done a) userId sub body w =
     (Throw (Conflict "userExists"), called (FindById Users (Some id)) w)).
Proof.
  intros a userId sub body w. repeat split.
  - intros Hv. unfold post_users, await, bind, ret. now rewrite Hv.
  - intros Hv ->. unfold post_users, await, bind, ret. now rewrite Hv.
  - intros id u Hv -> Hf Hu. unfold post_users.
    unfold await at 1. unfold bind at 1. unfold bind at 1.
    unfold ret at 1. cbv beta iota. unfold ret at 1. rewrite Hv. cbn [negb].
    unfold await at 1. unfold bind at 1. unfold bind at 1.
    rewrite db_findById_run, Hf. cbn [coll]. rewrite Hu. reflexivity.
Qed.

Lemma set_permissions : forall (permissions : value) fs,
  apply_sets [] [([UKey "permissions"], Some permissions)] (VObj fs) =
  VObj (set_field "permissions" permissions fs).
Proof.
  intros permissions fs. unfold apply_sets. cbn [fold_left fst snd to_bson].
  cbn [set_upath]. destruct (lookup "permissions" fs); reflexivity.
Qed.

(** Setting a role the table knows answers with success whether or not a
    profile of the id is stored. Without such a profile nothing changes;
    with one, the stored profile holds the permissions of the role and its
    other fields as before, and every other profile is as it was. A role
    the table lacks is refused before the store is called. *)
Theorem permissions_set_for_role :
  forall ROLES userId role w,
  (ROLES role = None ->
   patch_permissions ROLES userId role w =
   (Throw (BadRequest "invalid role"), w)) /\
  (forall permissions,
     ROLES role = Some permissions ->
     fails (FindOneAndUpdate (Some userId)
              [([UKey "permissions"], Some permissions)]) = false ->
     exists w',
       patch_permissions ROLES userId role w =
       (Return (VObj [("success", VBool true)]), w') /\
       posts w' = posts w /\ comments w' = comments w /\
       threads w' = threads w /\
       (findById (users w) (Some userId) = None -> users w' = users w) /\
       (forall user,
          findById (users w) (Some userId) = Some user ->
          exists user',
            findById (users w') (Some userId) = Some user' /\
            prop user' "permissions" = Some permissions /\
            (forall k, k <> "permissions" -> prop user' k = prop user k)) /\
       (forall i d, nth_error (users w) i = Some d -> has_id userId d = false ->
                    nth_error (users w') i = Some d)).
Proof.
  intros ROLES userId role w. split.
  - intros Hr. unfold patch_permissions. now rewrite Hr.
  - intros permissions Hr Hf. unfold patch_permissions. rewrite Hr.
    unfold bind at 1. rewrite db_findOneAndUpdate_run, Hf. cbv beta iota.
    unfold ret at 1.
    destruct (findById (users w) (Some userId)) as [user|] eqn:Hu.
    + eexists. split; [reflexivity|].
      cbn [posts comments threads users set_coll called to_bson].
      repeat split; try discriminate.
      * intros user0 [= <-].
        assert (Hid : has_id userId user = true).
        { cbn [findById] in Hu. apply find_some in Hu. tauto. }
        assert (Huser : exists fs, user = VObj fs).
        { unfold has_id in Hid. destruct user; try discriminate. eauto. }
        destruct Huser as [fs ->]. rewrite set_permissions.
        eexists. split; [|split].
        -- cbn [findById] in *. apply find_store_doc with (u := VObj fs).
           ++ exact Hu.
           ++ unfold has_id in *. cbn [prop] in *.
              rewrite lookup_set_field_ne by discriminate. exact Hid.
        -- apply lookup_set_field_eq.
        -- intros k Hk. cbn [prop]. now apply lookup_set_field_ne.
      * intros i d Hn Hd. now apply nth_store_doc.
    + eexists. split; [reflexivity|].
      cbn [posts comments threads users called].
      repeat split; try discriminate. auto.
Qed.

End CreateAndAdmin.

(** ** More on the unsubscribe routes *)

Section UnsubscribeMore.
Context {C : Collaborators}.

Lemma set_notifyPrefs : forall (prefs : value) fs,
  apply_sets [] [([UKey "notifyPrefs"], Some prefs)] (VObj fs) =
  VObj (set_field "notifyPrefs" prefs fs).
Proof.
  intros prefs fs. unfold apply_sets. cbn [fold_left fst snd to_bson].
  cbn [set_upath]. destruct (lookup "notifyPrefs" fs); reflexivity.
Qed.

(** What PATCH /unsubscribe writes, GET /unsubscribe reads: with a token
    that passes both routes and a stored subject, the update answers with
    the preferences of the body and a read that follows answers with the
    same preferences. The update changes the [notifyPrefs] of the subject
    alone: its other fields, the other profiles and the other collections
    are as they were. *)
Theorem unsubscribe_round_trip :
  forall d id now now' body prefs w user,
  p_userId d = Some id ->
  js_lt (p_expireDate d) now = false ->
  js_lt (js_times (p_exp d) 1000) now' = false ->
  lookup "notifyPrefs" body = Some prefs ->
  fails (FindOneAndUpdate (Some id) [([UKey "notifyPrefs"], Some prefs)]) = false ->
  fails (FindById Users (Some id)) = false ->
  findById (users w) (Some id) = Some user ->
  exists w' w'' user',
    patch_unsubscribe (Payload d) now body w = (Return (Some prefs), w') /\
    get_unsubscribe (Payload d) now' w' =
      (Return (VObj [("notifyPrefs", prefs)]), w'') /\
    findById (users w') (Some id) = Some user' /\
    (forall k, k <> "notifyPrefs" -> prop user' k = prop user k) /\
    (forall i u, nth_error (users w) i = Some u -> has_id id u = false ->
                 nth_error (users w') i = Some u) /\
    posts w' = posts w /\ comments w' = comments w /\ threads w' = threads w.
Proof.
  intros d id now now' body prefs w user Hid He He' Hb Hfu Hff Hu.
  assert (Hhas : has_id id user = true).
  { cbn [findById] in Hu. apply find_some in Hu. tauto. }
  assert (Huser : exists fs, user = VObj fs).
  { unfold has_id in Hhas. destruct user; try discriminate. eauto. }
  destruct Huser as [fs ->].
  assert (Hfind : find (has_id id)
                    (store_doc id (VObj (set_field "notifyPrefs" prefs fs))
                       (users w))
                  = Some (VObj (set_field "notifyPrefs" prefs fs))).
  { apply find_store_doc with (u := VObj fs); [exact Hu|].
    unfold has_id in *. cbn [prop] in *.
    rewrite lookup_set_field_ne by discriminate. exact Hhas. }
  unfold patch_unsubscribe, get_unsubscribe. rewrite He, He', Hid, Hb.
  unfold write_notifyPrefs, read_notifyPrefs.
  unfold bind at 1. rewrite db_findOneAndUpdate_run, Hfu, Hu.
  cbn [option_map to_bson]. rewrite set_notifyPrefs.
  cbn [member prop]. rewrite lookup_set_field_eq. unfold ret at 1.
  eexists. eexists. exists (VObj (set_field "notifyPrefs" prefs fs)).
  split; [reflexivity|]. split.
  { unfold bind at 1. rewrite db_findById_run, Hff.
    cbn [coll users set_coll called findById]. rewrite Hfind.
    cbv beta iota. unfold ret, object. cbn [prop flat_map fst snd app].
    rewrite lookup_set_field_eq. reflexivity. }
  cbn [users posts comments threads set_coll called findById].
  split; [exact Hfind|]. split.
  { intros k Hk. cbn [prop]. now apply lookup_set_field_ne. }
  split; [|repeat split].
  intros i u Hn Hd. now apply nth_store_doc.
Qed.

(** A token that passes for a subject no profile is stored for: the read
    answers not found, the update an internal error (it reads the
    preferences of the null it was given); neither changes a collection. *)
Theorem unsubscribe_unknown_subject :
  forall d now body w,
  findById (users w) (p_userId d) = None ->
  (js_lt (js_times (p_exp d) 1000) now = false ->
   fails (FindById Users (p_userId d)) = false ->
   get_unsubscribe (Payload d) now w =
   (Throw NotFound, called (FindById Users (p_userId d)) w)) /\
  (js_lt (p_expireDate d) now = false ->
   fails (FindOneAndUpdate (p_userId d)
            [([UKey "notifyPrefs"], lookup "notifyPrefs" body)]) = false ->
   patch_unsubscribe (Payload d) now body w =
   (Throw InternalServerError,
    called (FindOneAndUpdate (p_userId d)
              [([UKey "notifyPrefs"], lookup "notifyPrefs" body)]) w)).
Proof.
  intros d now body w Hu. split.
  - intros He Hf. unfold get_unsubscribe. rewrite He. unfold read_notifyPrefs.
    unfold bind at 1. rewrite db_findById_run, Hf. cbn [coll]. rewrite Hu.
    reflexivity.
  - intros He Hf. unfold patch_unsubscribe. rewrite He.
    unfold write_notifyPrefs.
    unfold bind at 1. rewrite db_findOneAndUpdate_run, Hf, Hu. reflexivity.
Qed.

End UnsubscribeMore.

(** ** The session thunks of the client *)

(** With the remember cookie, [initAuth] dispatches three actions: loading
    on, then the user or an error, then loading off, whatever the request
    gives; it sends one request, and tags the data layer only when it
    dispatches the user. Without the cookie it does nothing. *)
Theorem initAuth_brackets_loading :
  forall response b,
  (rememberCookie b = false -> initAuth response b = b) /\
  (rememberCookie b = true ->
   exists x,
     dispatched (initAuth response b) =
       dispatched b ++ [SET_AUTH_LOADING true; x; SET_AUTH_LOADING false] /\
     requests (initAuth response b) = S (requests b) /\
     ((x = AUTH_ERROR /\ dataLayer (initAuth response b) = dataLayer b /\
       (response = None \/ response = Some None \/ response = Some (Some VNull)))
      \/
      (exists user,
         x = SET_USER (Some user) /\ response = Some (Some user) /\
         user <> VNull /\
         dataLayer (initAuth response b) =
           dataLayer b ++ [(prop user "id", truthy (str (organisationId b)))]))).
Proof.
  intros response b. split; intros Hc; unfold initAuth; rewrite Hc; cbn [negb].
  - reflexivity.
  - destruct response as [[user|]|].
    + destruct user;
        try (eexists; cbn [dispatch tag requested dispatched requests dataLayer
                           organisationId];
             rewrite <- !app_assoc;
             split; [reflexivity|]; split; [reflexivity|];
             right; eexists; split; [reflexivity|]; split; [reflexivity|];
             split; [discriminate|reflexivity]).
      exists AUTH_ERROR. cbn. rewrite <- !app_assoc.
      split; [reflexivity|]. split; [reflexivity|]. left. tauto.
    + exists AUTH_ERROR. cbn. rewrite <- !app_assoc.
      split; [reflexivity|]. split; [reflexivity|]. left. tauto.
    + exists AUTH_ERROR. cbn. rewrite <- !app_assoc.
      split; [reflexivity|]. split; [reflexivity|]. left. tauto.
Qed.

Lemma ticks_stopped : forall cookies b,
  intervalRunning b = false ->
  intervalRunning (ticks cookies b) = false /\
  reloads (ticks cookies b) = reloads b /\
  postredirect (ticks cookies b) = postredirect b.
Proof.
  unfold ticks. induction cookies as [|c cs IH]; intros b Hr; cbn [fold_left].
  - auto.
  - assert (E : checkCookieTick (set_cookie c b) = set_cookie c b).
    { unfold checkCookieTick. cbn [set_cookie intervalRunning]. now rewrite Hr. }
    rewrite E. apply (IH (set_cookie c b)). exact Hr.
Qed.

(** A started interval reloads the page at most once, however often it
    fires: while it finds the cookie it changes nothing; the first time the
    cookie is gone it stops, stores the path for the redirection and
    reloads once. It never dispatches an action, never tags the data layer
    and never clears the cookie: the logout it builds is not run. *)
Theorem interval_reloads_once :
  forall cookies b,
  intervalRunning b = true ->
  dispatched (ticks cookies b) = dispatched b /\
  dataLayer (ticks cookies b) = dataLayer b /\
  pathname (ticks cookies b) = pathname b /\
  (forallb (fun c => c) cookies = true ->
   intervalRunning (ticks cookies b) = true /\
   reloads (ticks cookies b) = reloads b /\
   postredirect (ticks cookies b) = postredirect b) /\
  (forallb (fun c => c) cookies = false ->
   intervalRunning (ticks cookies b) = false /\
   reloads (ticks cookies b) = S (reloads b) /\
   postredirect (ticks cookies b) = Some (pathname b)).
Proof.
  induction cookies as [|c cs IH]; intros b Hr.
  - cbn. repeat split; auto; discriminate.
  - change (ticks (c :: cs) b) with (ticks cs (checkCookieTick (set_cookie c b))).
    destruct c.
    + assert (E : checkCookieTick (set_cookie true b) = set_cookie true b).
      { unfold checkCookieTick. cbn [set_cookie intervalRunning rememberCookie].
        now rewrite Hr. }
      rewrite E. cbn [forallb andb].
      destruct (IH (set_cookie true b) Hr) as [H1 [H2 [H3 [H4 H5]]]].
      repeat split; try tauto.
    + assert (Hs : intervalRunning (checkCookieTick (set_cookie false b)) = false).
      { unfold checkCookieTick. cbn [set_cookie intervalRunning rememberCookie].
        now rewrite Hr. }
      destruct (ticks_stopped cs _ Hs) as [T1 [T2 T3]].
      assert (Hfr : forall b0,
                 intervalRunning b0 = false ->
                 dispatched (ticks cs b0) = dispatched b0 /\
                 dataLayer (ticks cs b0) = dataLayer b0 /\
                 pathname (ticks cs b0) = pathname b0).
      { clear. unfold ticks. induction cs as [|c cs IH]; intros b0 Hr0;
          cbn [fold_left]; [auto|].
        assert (E : checkCookieTick (set_cookie c b0) = set_cookie c b0).
        { unfold checkCookieTick. cbn [set_cookie intervalRunning].
          now rewrite Hr0. }
        rewrite E. apply (IH (set_cookie c b0)). exact Hr0. }
      destruct (Hfr _ Hs) as [F1 [F2 F3]].
      rewrite F1, F2, F3, T1, T2, T3.
      unfold checkCookieTick. cbn [set_cookie intervalRunning rememberCookie].
      rewrite Hr. cbn. repeat split; auto; discriminate.
Qed.

(** ** Runs on the sample directory *)

Lemma results_satisfy_filters_witness :
  exists resp w' d0,
    get_users (C := demo) (with_keywords "nurse" false) None sample
      = (Return resp, w') /\
    In d0 (users sample) /\
    matches (C := demo) (FEq ["type"] (VStr "Individual")) d0 = true /\
    text_score (Collaborators := demo) "nurse" d0 <> None.
Proof.
  eexists. eexists.
  assert (H : get_users (C := demo) (with_keywords "nurse" false) None sample
              = (Return _, _)) by (vm_compute; reflexivity).
  destruct (results_satisfy_filters (C := demo) _ _ _ _ _
              (directory_view ann) H ltac:(vm_compute; tauto))
    as [d0 [Hin [_ [Hty [_ Hk]]]]].
  exists d0. split; [exact H|]. split; [exact Hin|]. split; [exact Hty|].
  exact (Hk "nurse" eq_refl ltac:(discriminate)).
Defined.

Lemma page_holds_at_most_limit_witness :
  exists resp w',
    get_users (C := demo) (paged plain_query (Some 1) None) None sample
      = (Return resp, w') /\
    (List.length (response_data resp) <= 1)%nat.
Proof.
  eexists. eexists.
  assert (H : get_users (C := demo) (paged plain_query (Some 1) None) None sample
              = (Return _, _)) by (vm_compute; reflexivity).
  split; [exact H|].
  exact (proj1 (page_holds_at_most_limit (C := demo) _ _ _ _ _ H
                  ltac:(discriminate))).
Defined.


Lemma results_show_listed_fields_witness :
  exists resp w',
    get_users (C := demo) plain_query None sample = (Return resp, w') /\
    prop (directory_view ann) "email" = None /\
    exists d0,
      In d0 (users sample) /\
      prop (directory_view ann) "firstName" = prop d0 "firstName".
Proof.
  eexists. eexists.
  assert (H : get_users (C := demo) plain_query None sample = (Return _, _))
    by (vm_compute; reflexivity).
  destruct (results_show_listed_fields (C := demo) _ _ _ _ _
              (directory_view ann) H ltac:(vm_compute; tauto))
    as [Hkeys [d0 [Hin [Hcopy _]]]].
  split; [exact H|]. split; [reflexivity|].
  exists d0. split; [exact Hin|]. apply Hcopy. vm_compute. tauto.
Defined.

Lemma search_stops_before_querying_witness :
  fst (get_users (C := demo_with is_find None) plain_query (Some (VNum 1)) sample)
    = Throw InternalServerError /\
  fst (get_users (C := demo) plain_query (Some (VNum 9)) sample)
    = Throw Forbidden /\
  get_users (C := demo)
    {| q_ignoreUserLocation := false; q_filter := Some VNull;
       q_keywords := None; q_limit := None; q_objective := None;
       q_skip := None; q_includeMeta := false |} None sample
    = (Throw InternalServerError, sample).
Proof.
  split; [|split].
  - rewrite (proj1 (search_stops_before_querying (C := demo_with is_find None)
                      plain_query (VNum 1) sample) eq_refl).
    reflexivity.
  - rewrite (proj1 (proj2 (search_stops_before_querying (C := demo)
                             plain_query (VNum 9) sample)) eq_refl eq_refl).
    reflexivity.
  - apply (proj2 (proj2 (search_stops_before_querying (C := demo)
                           _ (VNum 1) sample))).
    reflexivity.
Defined.

Lemma profile_read_shows_owner_fields_to_owner_witness :
  exists resp w' user,
    get_user_by_id (C := demo) (VNum 1) (Some (VNum 2)) sample
      = (Return resp, w') /\
    findById (users sample) (Some (VNum 1)) = Some user /\
    prop resp "firstName" = prop user "firstName" /\
    forall k v, prop resp k = Some v -> In k profile_keys.
Proof.
  eexists. eexists.
  assert (H : get_user_by_id (C := demo) (VNum 1) (Some (VNum 2)) sample
              = (Return _, _)) by (vm_compute; reflexivity).
  destruct (profile_read_shows_owner_fields_to_owner (C := demo) _ _ _ _ _ H)
    as [user [Hu [Hk [_ [_ [_ [_ [Hf _]]]]]]]].
  exists user. split; [exact H|]. split; [exact Hu|]. split; [exact Hf|exact Hk].
Defined.

Lemma profile_read_location_witness :
  exists resp w',
    get_user_by_id (C := demo) (VNum 2) None sample = (Return resp, w') /\
    prop resp "location" = Some (VObj []).
Proof.
  eexists. eexists.
  assert (H : get_user_by_id (C := demo) (VNum 2) None sample
              = (Return _, _)) by (vm_compute; reflexivity).
  split; [exact H|].
  destruct (profile_read_location (C := demo) _ _ _ _ _ H)
    as [user [l0 [hide [Hu [Hl [Hh [Hhidden _]]]]]]].
  apply Hhidden.
  assert (E : Some hide = Some (VObj [("address", VBool true)])).
  { rewrite <- Hh. injection Hu as <-. reflexivity. }
  injection E as ->. reflexivity.
Defined.

Lemma profile_read_errors_witness :
  fst (get_user_by_id (C := demo) (VNum 9) None sample_with_carl)
    = Throw NotFound /\
  fst (get_user_by_id (C := demo) (VNum 3) None sample_with_carl)
    = Throw InternalServerError.
Proof.
  destruct (profile_read_errors (C := demo) (VNum 9) None sample_with_carl
              eq_refl) as [H1 _].
  destruct (profile_read_errors (C := demo) (VNum 3) None sample_with_carl
              eq_refl) as [_ [H2 _]].
  split.
  - apply H1. reflexivity.
  - apply (H2 carl); [reflexivity|]. left. reflexivity.
Defined.

Lemma patch_merges_body_witness :
  exists w',
    patch_current (C := demo) (VNum 1) [("about", VStr "doctor")] sample
      = (Return (VObj (assign (fields_of ann) [("about", VStr "doctor")])), w') /\
    findById (users w') (Some (VNum 1))
      = Some (VObj (assign (fields_of ann) [("about", VStr "doctor")])) /\
    List.length (users w') = 2%nat.
Proof.
  destruct (patch_merges_body (C := demo) (VNum 1) [("about", VStr "doctor")]
              sample ann eq_refl eq_refl eq_refl
              ltac:(repeat constructor; simpl; tauto))
    as [w' [Hrun [_ [Hfind [Hlen _]]]]].
  exists w'. split; [exact Hrun|]. split; [exact (Hfind eq_refl)|exact Hlen].
Defined.

Lemma patch_errors_change_nothing_witness :
  fst (patch_current (C := demo_with is_find None) (VNum 1) [] sample)
    = Throw InternalServerError /\
  patch_current (C := demo) (VNum 9) [] sample
    = (Throw NotFound, called (FindById Users (Some (VNum 9))) sample) /\
  fst (patch_current (C := demo_with is_save None) (VNum 1) [] sample)
    = Throw InternalServerError.
Proof.
  split; [|split].
  - rewrite (proj1 (patch_errors_change_nothing (C := demo_with is_find None)
                      (VNum 1) [] sample) eq_refl).
    reflexivity.
  - exact (proj1 (proj2 (patch_errors_change_nothing (C := demo)
                           (VNum 9) [] sample)) eq_refl eq_refl).
  - rewrite (proj2 (proj2 (patch_errors_change_nothing
                             (C := demo_with is_save None)
                             (VNum 1) [] sample)) ann eq_refl eq_refl eq_refl).
    reflexivity.
Defined.

Lemma patch_rewrites_author_snapshots_witness :
  exists w',
    patch_current (C := demo) (VNum 1) [("firstName", VStr "Anna")] sample
      = (Return (VObj (assign (fields_of ann) [("firstName", VStr "Anna")])), w') /\
    Forall2 (snapshot_written (C := demo) (VNum 1)
               [("name", Some (VStr "Anna Lee"))])
      (posts sample) (posts w').
Proof.
  destruct (patch_rewrites_author_snapshots (C := demo) (VNum 1)
              [("firstName", VStr "Anna")] sample ann
              eq_refl eq_refl eq_refl eq_refl)
    as [w' [Hrun [Hp _]]].
  exists w'. split; [exact Hrun|]. exact (Hp eq_refl).
Defined.

Lemma patch_rewrites_thread_entries_witness :
  exists w',
    patch_current (C := demo) (VNum 1) [("firstName", VStr "Anna")] sample
      = (Return (VObj (assign (fields_of ann) [("firstName", VStr "Anna")])), w') /\
    Forall2 (entries_written (C := demo) (VNum 1)
               [("name", Some (VStr "Anna Lee"));
                ("photo", Some (VStr "ann.png"))])
      (threads sample) (threads w').
Proof.
  destruct (patch_rewrites_thread_entries (C := demo) (VNum 1)
              [("firstName", VStr "Anna")] sample ann
              eq_refl eq_refl eq_refl eq_refl eq_refl)
    as [w' [Hrun [Ht _]]].
  exists w'. split; [exact Hrun|exact Ht].
Defined.

Lemma avatar_photo_reaches_all_copies_witness :
  exists w',
    updateUserAvatar (C := demo) (VNum 1) (Some (VStr "file")) sample
      = (Return (VObj [("updatedUser",
                        VObj (set_field "photo" (VStr "avatar.png")
                                (fields_of ann)))]), w') /\
    findById (users w') (Some (VNum 1))
      = Some (VObj (set_field "photo" (VStr "avatar.png") (fields_of ann))) /\
    Forall2 (snapshot_written (C := demo) (VNum 1)
               [("photo", Some (VStr "avatar.png"))])
      (comments sample) (comments w').
Proof.
  destruct (avatar_photo_reaches_all_copies (C := demo) (VNum 1)
              (Some (VStr "file")) sample ann (VStr "avatar.png")
              eq_refl eq_refl eq_refl eq_refl)
    as [w' [Hrun [Hfind [_ [_ [_ [Hc _]]]]]]].
  exists w'. split; [exact Hrun|]. split; [exact Hfind|exact (Hc eq_refl)].
Defined.

Lemma avatar_failure_never_answers_witness :
  fst (updateUserAvatar (C := demo_with is_find None) (VNum 1) None sample)
    = Pending /\
  stores (snd (updateUserAvatar (C := demo_with is_find None) (VNum 1) None
                 sample))
    = stores sample /\
  fst (updateUserAvatar (C := demo_with (fun _ => false) None) (VNum 1)
         (Some (VStr "file")) sample)
    = Pending.
Proof.
  destruct (avatar_failure_never_answers (C := demo_with is_find None)
              (VNum 1) None sample) as [_ [Hiff Hst]].
  destruct (avatar_failure_never_answers (C := demo_with (fun _ => false) None)
              (VNum 1) (Some (VStr "file")) sample) as [_ [Hiff' _]].
  assert (H : fst (updateUserAvatar (C := demo_with is_find None) (VNum 1) None
                     sample) = Pending)
    by (apply (proj2 Hiff); left; reflexivity).
  split; [exact H|]. split; [exact (proj1 (Hst H))|].
  apply (proj2 Hiff'). right. right. left. reflexivity.
Defined.

Lemma created_profile_identity_witness :
  exists w' doc,
    fst (post_users (C := demo)
           (Done {| a_email := Some (VStr "dan@example.org");
                    a_email_verified := Some (VBool true) |})
           (Some (VNum 4)) (Some (VStr "auth0|4"))
           [("firstName", VStr "Dan"); ("_id", VNum 1);
            ("email", VStr "ann@example.org")] sample)
      = Return (VObj (set_field "organisations" (VArr []) (fields_of doc))) /\
    users w' = users sample ++ [doc] /\
    prop doc "_id" = Some (VNum 4) /\
    prop doc "email" = Some (VStr "dan@example.org") /\
    findById (users w') (Some (VNum 4)) = Some doc.
Proof.
  destruct (created_profile_identity (C := demo)
              {| a_email := Some (VStr "dan@example.org");
                 a_email_verified := Some (VBool true) |}
              (VNum 4) (Some (VStr "auth0|4"))
              [("firstName", VStr "Dan"); ("_id", VNum 1);
               ("email", VStr "ann@example.org")] sample
              eq_refl eq_refl eq_refl eq_refl)
    as [w' [Hrun [Hid [_ [Hem [_ [Hus [Hfind _]]]]]]]].
  exists w'. eexists. split; [rewrite Hrun; reflexivity|].
  split; [exact Hus|]. split; [exact Hid|]. split; [exact Hem|exact Hfind].
Defined.

Lemma create_refusals_witness :
  post_users (C := demo)
    (Done {| a_email := Some (VStr "dan@example.org");
             a_email_verified := Some (VBool false) |})
    None None [] sample
    = (Throw Forbidden, sample) /\
  fst (post_users (C := demo)
         (Done {| a_email := Some (VStr "dan@example.org");
                  a_email_verified := Some (VBool true) |})
         None None [] sample)
    = Throw InternalServerError /\
  fst (post_users (C := demo)
         (Done {| a_email := Some (VStr "ann@example.org");
                  a_email_verified := Some (VBool true) |})
         (Some (VNum 1)) None [] sample)
    = Throw (Conflict "userExists").
Proof.
  split; [|split].
  - exact (proj1 (create_refusals (C := demo)
                    {| a_email := Some (VStr "dan@example.org");
                       a_email_verified := Some (VBool false) |}
                    None None [] sample) eq_refl).
  - rewrite (proj1 (proj2 (create_refusals (C := demo)
                             {| a_email := Some (VStr "dan@example.org");
                                a_email_verified := Some (VBool true) |}
                             None None [] sample)) eq_refl eq_refl).
    reflexivity.
  - rewrite (proj2 (proj2 (create_refusals (C := demo)
                             {| a_email := Some (VStr "ann@example.org");
                                a_email_verified := Some (VBool true) |}
                             (Some (VNum 1)) None [] sample))
               (VNum 1) ann eq_refl eq_refl eq_refl eq_refl).
    reflexivity.
Defined.

Lemma permissions_set_for_role_witness :
  patch_permissions (C := demo)
    (fun r => if (r =? "admin")%string then Some (VNum 7) else None)
    (VNum 1) "owner" sample
    = (Throw (BadRequest "invalid role"), sample) /\
  exists w' user',
    fst (patch_permissions (C := demo)
           (fun r => if (r =? "admin")%string then Some (VNum 7) else None)
           (VNum 1) "admin" sample)
      = Return (VObj [("success", VBool true)]) /\
    findById (users w') (Some (VNum 1)) = Some user' /\
    prop user' "permissions" = Some (VNum 7).
Proof.
  split.
  - exact (proj1 (permissions_set_for_role (C := demo)
                    (fun r => if (r =? "admin")%string then Some (VNum 7)
                              else None)
                    (VNum 1) "owner" sample) eq_refl).
  - destruct (proj2 (permissions_set_for_role (C := demo)
                       (fun r => if (r =? "admin")%string then Some (VNum 7)
                                 else None)
                       (VNum 1) "admin" sample) (VNum 7) eq_refl eq_refl)
      as [w' [Hrun [_ [_ [_ [_ [Hset _]]]]]]].
    destruct (Hset ann eq_refl) as [user' [Hfind [Hperm _]]].
    exists w', user'. split; [rewrite Hrun; reflexivity|].
    split; [exact Hfind|exact Hperm].
Defined.

Lemma unsubscribe_round_trip_witness :
  exists w' w'',
    patch_unsubscribe (C := demo) (token (Some 100) None) 99999
      [("notifyPrefs", VObj [("digest", VBool false)])] sample
      = (Return (Some (VObj [("digest", VBool false)])), w') /\
    get_unsubscribe (C := demo) (token (Some 100) None) 1000 w'
      = (Return (VObj [("notifyPrefs", VObj [("digest", VBool false)])]), w'').
Proof.
  destruct (unsubscribe_round_trip (C := demo)
              {| p_userId := Some (VNum 1); p_exp := Some 100;
                 p_expireDate := None |}
              (VNum 1) 99999 1000
              [("notifyPrefs", VObj [("digest", VBool false)])]
              (VObj [("digest", VBool false)]) sample ann
              eq_refl eq_refl eq_refl eq_refl eq_refl eq_refl eq_refl)
    as [w' [w'' [user' [Hp [Hg _]]]]].
  exists w', w''. split; [exact Hp|exact Hg].
Defined.

Lemma unsubscribe_unknown_subject_witness :
  fst (get_unsubscribe (C := demo)
         (Payload {| p_userId := Some (VNum 9); p_exp := Some 5;
                     p_expireDate := Some 5000 |}) 1000 sample)
    = Throw NotFound /\
  fst (patch_unsubscribe (C := demo)
         (Payload {| p_userId := Some (VNum 9); p_exp := Some 5;
                     p_expireDate := Some 5000 |}) 1000
         [("notifyPrefs", VObj [])] sample)
    = Throw InternalServerError.
Proof.
  destruct (unsubscribe_unknown_subject (C := demo)
              {| p_userId := Some (VNum 9); p_exp := Some 5;
                 p_expireDate := Some 5000 |} 1000
              [("notifyPrefs", VObj [])] sample eq_refl) as [Hg Hp].
  split.
  - rewrite (Hg eq_refl eq_refl). reflexivity.
  - rewrite (Hp eq_refl eq_refl). reflexivity.
Defined.

Lemma initAuth_brackets_loading_witness :
  initAuth None (set_cookie false browser) = set_cookie false browser /\
  exists x,
    dispatched (initAuth (Some (Some (VObj [("id", VNum 1)]))) browser)
      = [SET_AUTH_LOADING true; x; SET_AUTH_LOADING false] /\
    requests (initAuth (Some (Some (VObj [("id", VNum 1)]))) browser) = 1%nat.
Proof.
  split.
  - exact (proj1 (initAuth_brackets_loading None (set_cookie false browser))
             eq_refl).
  - destruct (proj2 (initAuth_brackets_loading
                       (Some (Some (VObj [("id", VNum 1)]))) browser) eq_refl)
      as [x [Hd [Hr _]]].
    exists x. split; [exact Hd|exact Hr].
Defined.

Lemma interval_reloads_once_witness :
  reloads (ticks [true; false; false; true] browser) = 1%nat /\
  postredirect (ticks [true; false; false; true] browser) = Some "/feed" /\
  dispatched (ticks [true; false; false; true] browser) = [] /\
  reloads (ticks [true; true] browser) = 0%nat.
Proof.
  destruct (interval_reloads_once [true; false; false; true] browser eq_refl)
    as [Hd [_ [_ [_ Hgone]]]].
  destruct (Hgone eq_refl) as [_ [Hr Hp]].
  destruct (interval_reloads_once [true; true] browser eq_refl)
    as [_ [_ [_ [Hkept _]]]].
  destruct (Hkept eq_refl) as [_ [Hr' _]].
  split; [exact Hr|]. split; [exact Hp|]. split; [exact Hd|exact Hr'].
Defined.
